(** * Deployment orchestration of the CDK toolkit: a shallow embedding

    The development follows the TypeScript sources of the toolkit library:

    - [Deployments] embeds [deployStack], [rollbackStack] and the
      publisher cache of [lib/api/deployments/deployments.ts];
    - [Assets] embeds [prepareAsset] / [prepareFileAsset] of
      [lib/api/deployments/assets.ts];
    - [Importer] embeds [discoverImportableResources] of the resource
      importer;
    - [AccountCache] embeds [AccountAccessKeyCache] of
      [lib/api/aws-auth/account-cache.ts];
    - [Parameters] holds the parameter resolution of the deploy step, whose
      implementation file is not part of the sources at hand;
    - [ImportWorkflow] embeds the rest of the resource importer: how
      identifiers are asked for or loaded from a mapping file, and how the
      template of an import is put together;
    - [DiffUtil] embeds [unionOf], [diffKeyedEntities], [dependsOnEqual]
      and [mangleLikeCloudFormation] of [cloudformation-diff/lib/diff/util.ts];
      [deepEqual] compares objects by reference first and is a parameter
      there.

    Reading a property an object does not have itself yields the member
    every object inherits under that name, if there is one ([constructor],
    [toString], ...); the mapping file of the importer and the maps that
    [diffKeyedEntities] compares are read that way ([ImportWorkflow.read],
    [DiffUtil.element]).  Elsewhere property names are taken to be none
    of these.  Objects list their properties in the order they were
    written.

    Asynchronous methods are functions in a small monad that threads the
    log of calls made so far and may reject with an error.  Everything the
    code obtains from a collaborator (the remote service, the environment
    access object, the event poller, the file system) is read from a record
    of oracles, so that a statement quantified over that record holds for
    every behaviour of the collaborators. *)

From Stdlib Require Import String Ascii ZArith List Bool Lia DecimalString.
From stdpp Require Import base option gmap strings list fin_maps.
Import ListNotations.
Set Warnings "-register-all".
Local Open Scope string_scope.
Local Open Scope list_scope.

(** ** JavaScript values used in conditions *)

(** [if (s)] on a string: the empty string is falsy. *)
Definition truthy_string (s : string) : bool :=
  negb (String.eqb s "").

(** [if (o)] on [string | undefined]. *)
Definition truthy_opt_string (o : option string) : bool :=
  match o with
  | Some s => truthy_string s
  | None => false
  end.

(** [a ?? b] *)
Definition nullish {A : Type} (a : option A) (b : A) : A :=
  match a with
  | Some x => x
  | None => b
  end.

(** [a ?? b] where [b] may be undefined as well *)
Definition nullish_opt {A : Type} (a b : option A) : option A :=
  match a with
  | Some x => Some x
  | None => b
  end.

(** [xs.join(sep)] *)
Fixpoint join (sep : string) (xs : list string) : string :=
  match xs with
  | [] => ""
  | [x] => x
  | x :: rest => x +:+ sep +:+ join sep rest
  end.

(** A text between double quotes, as error messages show option names. *)
Definition quoted (s : string) : string :=
  String (ascii_of_nat 34) s +:+ String (ascii_of_nat 34) EmptyString.

(** The last character of a string, if it has one. *)
Fixpoint last_char (s : string) : option ascii :=
  match s with
  | EmptyString => None
  | String c EmptyString => Some c
  | String _ rest => last_char rest
  end.

(** ** Errors and asynchronous computations *)

(** A thrown value.  [ToolkitError] is the class the toolkit throws itself;
    [ForeignError] stands for whatever a collaborator rejects with. *)
Inductive Error : Type :=
| ToolkitError (message : string)
| ForeignError (message : string).

Definition error_message (e : Error) : string :=
  match e with
  | ToolkitError m => m
  | ForeignError m => m
  end.

Inductive Outcome (A : Type) : Type :=
| Resolved (a : A)
| Rejected (e : Error).
Arguments Resolved {A} a.
Arguments Rejected {A} e.

Section AsyncMonad.
(** [Ev] is the type of log entries: one per call to a collaborator. *)
Context {Ev : Type}.

Definition Async (A : Type) : Type := list Ev -> Outcome A * list Ev.

Definition ret {A} (a : A) : Async A := fun log => (Resolved a, log).

Definition throw {A} (e : Error) : Async A := fun log => (Rejected e, log).

Definition bind {A B} (m : Async A) (k : A -> Async B) : Async B :=
  fun log =>
    match m log with
    | (Resolved a, log') => k a log'
    | (Rejected e, log') => (Rejected e, log')
    end.

(** Record something in the log without waiting for an answer: this is
    how a message written to the host is modelled, which is taken to go
    through. *)
Definition emit (ev : Ev) : Async unit := fun log => (Resolved tt, log ++ [ev]).

(** Call a collaborator: the call is logged, then the collaborator's
    answer (a value or a rejection) is delivered. *)
Definition call {A} (ev : Ev) (answer : Outcome A) : Async A :=
  fun log => (answer, log ++ [ev]).

(** [try { body } catch (e) { handler(e) }] *)
Definition try_catch {A} (body : Async A) (handler : Error -> Async A) : Async A :=
  fun log =>
    match body log with
    | (Resolved a, log') => (Resolved a, log')
    | (Rejected e, log') => handler e log'
    end.

(** [try { body } finally { cleanup }]: the cleanup always runs; when it
    rejects, its error replaces the outcome of the body. *)
Definition try_finally {A} (body : Async A) (cleanup : Async unit) : Async A :=
  fun log =>
    match body log with
    | (r, log') =>
        match cleanup log' with
        | (Resolved _, log'') => (r, log'')
        | (Rejected e, log'') => (Rejected e, log'')
        end
    end.

(** A step that makes no call: its outcome is already known. *)
Definition settle {A} (o : Outcome A) : Async A := fun log => (o, log).

(** Run from an empty log. *)
Definition run {A} (m : Async A) : Outcome A * list Ev := m [].
End AsyncMonad.
Arguments Async : clear implicits.

Declare Scope async_scope.
Delimit Scope async_scope with async.
Notation "'do' x <- m ; k" := (bind m (fun x => k))
  (at level 10, x name, m at level 100, k at level 200) : async_scope.
Notation "'do' ' p <- m ; k" := (bind m (fun x => match x with p => k end))
  (at level 10, p pattern, m at level 100, k at level 200) : async_scope.
Notation "'exec' m ; k" := (bind m (fun _ => k))
  (at level 10, m at level 100, k at level 200) : async_scope.
Local Open Scope async_scope.

(** * The deployment coordinator ([deployments.ts]) *)
Module Deployments.

(** ** Data *)

(** The fields of [cxapi.CloudFormationStackArtifact] the coordinator reads. *)
Record StackArtifact : Type := {
  stackName : string;
  requiresBootstrapStackVersion : option Z;
  bootstrapStackVersionSsmParameter : option string;
  cloudFormationExecutionRoleArn : option string;
}.

(** [RollbackChoice], imported from [../stack-events]. *)
Inductive RollbackChoice : Type :=
| NONE
| START_ROLLBACK
| CONTINUE_UPDATE_ROLLBACK
| ROLLBACK_FAILED.

Definition RollbackChoice_eqb (a b : RollbackChoice) : bool :=
  match a, b with
  | NONE, NONE
  | START_ROLLBACK, START_ROLLBACK
  | CONTINUE_UPDATE_ROLLBACK, CONTINUE_UPDATE_ROLLBACK
  | ROLLBACK_FAILED, ROLLBACK_FAILED => true
  | _, _ => false
  end.

(** What the coordinator reads from a stack status: its printed form, the
    rollback choice derived from it and whether it is a rollback-success
    status.  The derivation itself lives in the status class; here the
    derived values are part of what is observed. *)
Record StackStatus : Type := {
  display : string;
  rollbackChoice : RollbackChoice;
  isRollbackSuccess : bool;
}.

(** The result of [CloudFormationStack.lookup] and of [stabilizeStack]. *)
Record CloudFormationStack : Type := {
  stackId : string;
  stackStatus : StackStatus;
}.

(** An entry of [poller.resourceErrors]. *)
Record ResourceError : Type := {
  isStackEvent : bool;
  parentStackLogicalIds : list string;
  LogicalResourceId : option string;
}.

(** The object literal [{ method: 'change-set', changeSetName, execute }];
    a caller-built method of another kind has its own [method] tag. *)
Record DeploymentMethod : Type := {
  method : string;
  dm_changeSetName : option string;
  dm_execute : option bool;
}.

(** Options of [deployStack] that are handed on unchanged. *)
Record PassThrough : Type := {
  deployName : option string;
  notificationArns : option (list string);
  reuseAssets : option (list string);
  forceDeployment : option bool;
  parameters : list (string * option string);
  usePreviousParameters : option bool;
  rollback : option bool;
  extraUserAgent : option string;
  assetParallelism : option bool;
}.

Record DeployStackOptions : Type := {
  ds_stack : StackArtifact;
  ds_roleArn : option string;
  ds_execute : option bool;
  ds_changeSetName : option string;
  ds_deploymentMethod : option DeploymentMethod;
  ds_rest : PassThrough;
}.

(** The argument object built for the [deployStack] function of
    [deploy-stack.ts]. *)
Record DeployStackArgs : Type := {
  a_stack : StackArtifact;
  a_roleArn : option string;
  a_deploymentMethod : option DeploymentMethod;
  a_rest : PassThrough;
}.

(** The three variants of [DeployStackResult]; their payload plays no
    role in the coordinator. *)
Inductive DeployStackResult : Type :=
| DidDeployStack
| FailpausedNeedRollbackFirst
| ReplacementRequiresRollback.

Record RollbackStackOptions : Type := {
  rs_stack : StackArtifact;
  rs_roleArn : option string;
  orphanFailedResources : option bool;
  orphanLogicalIds : option (list string);
  validateBootstrapStackVersionFlag : option bool;
}.

(** [{ stackArn, notInRollbackableState: true }] or
    [{ stackArn, success: true }] *)
Inductive RollbackStackResult : Type :=
| NotInRollbackableState (stackArn : string)
| Success (stackArn : string).

Definition notInRollbackableState (r : RollbackStackResult) : bool :=
  match r with
  | NotInRollbackableState _ => true
  | Success _ => false
  end.

Record RollbackStackInput : Type := {
  rb_StackName : string;
  rb_RoleARN : option string;
  rb_ClientRequestToken : string;
  rb_RetainExceptOnCreate : bool;
}.

Record ContinueUpdateRollbackInput : Type := {
  cur_StackName : string;
  cur_ClientRequestToken : string;
  cur_RoleARN : option string;
  cur_ResourcesToSkip : list string;
}.

(** ** Calls to collaborators *)

Inductive Event : Type :=
| AccessStackForMutableStackOperations (stack : string)
| ValidateVersion (requires : option Z) (ssmParameter : option string)
| ReplacePlaceholders (s : option string)
| DeployStackCall (args : DeployStackArgs)
| Lookup (name : string)
| IoWarn (msg : string)
| IoDebug (msg : string)
| CfnRollbackStack (input : RollbackStackInput)
| PollerPoll (name : string) (stackStatuses : list string)
| CfnContinueUpdateRollback (input : ContinueUpdateRollbackInput)
| MonitorStart (name : string)
| StabilizeStack (name : string)
| MonitorStop (name : string).

(** The calls that change the state of the remote stack. *)
Definition is_mutating (ev : Event) : bool :=
  match ev with
  | CfnRollbackStack _ | CfnContinueUpdateRollback _ | DeployStackCall _ => true
  | _ => false
  end.

Definition mutating_calls (log : list Event) : nat :=
  length (List.filter is_mutating log).

(** The collaborators.  Those used inside the rollback loop are indexed by
    the number of the iteration that asks, counted from 0, so that a
    [World] scripts the whole sequence of observations. *)
Record World : Type := {
  w_accessStack : Outcome unit;
  w_validateVersion : option Z -> option string -> Outcome unit;
  w_replacePlaceholders : nat -> option string -> Outcome (option string);
  w_deployStack : DeployStackArgs -> Outcome DeployStackResult;
  w_lookup : nat -> Outcome CloudFormationStack;
  w_randomUUID : nat -> string;
  w_rollbackStack : nat -> Outcome unit;
  w_poll : nat -> Outcome (list ResourceError);
  w_continueUpdateRollback : nat -> list string -> Outcome unit;
  w_monitorStart : nat -> Outcome unit;
  w_stabilizeStack : nat -> Outcome (option CloudFormationStack);
  w_monitorErrors : nat -> list string;
  w_monitorStop : nat -> Outcome unit;
  w_formatErrorMessage : Error -> string;
}.

Definition BOOTSTRAP_STACK_VERSION_FOR_ROLLBACK : Z := 23.

Definition both_supplied_message : string :=
  "You cannot supply both 'deploymentMethod' and 'changeSetName/execute'. Supply one or the other.".

Definition cannot_combine_message : string :=
  "Cannot combine --force with --orphan".

Definition disappeared_message : string :=
  "Stack deploy failed (the stack disappeared while we were rolling it back)".

Definition recourse_suffix : string :=
  " (fix problem and retry, or orphan these resources using --orphan or --force)".

Definition no_progress_message : string :=
  "Rollback did not finish after a large number of iterations; stopping because it looks like we're not making progress anymore. You can retry if rollback was progressing as expected.".

(** [suffixWithErrors] *)
Definition suffixWithErrors (msg : string) (errors : list string) : string :=
  if (0 <? length errors)%nat then msg +:+ ": " +:+ join ", " errors else msg.

Section Coordinator.
Variable w : World.

(** [validateBootstrapStackVersion]: the version check of the
    environment, with the stack name put in front of a failure. *)
Definition validateBootstrapStackVersion
    (name : string) (requires : option Z) (ssmParameter : option string)
  : Async Event unit :=
  try_catch
    (call (ValidateVersion requires ssmParameter)
          (w_validateVersion w requires ssmParameter))
    (fun e => throw (ToolkitError (name +:+ ": " +:+ w_formatErrorMessage w e))).

(** *** [deployStack] *)

(** The first statement of [deployStack]: honour the legacy options. *)
Definition resolveDeploymentMethod (options : DeployStackOptions)
  : Outcome (option DeploymentMethod) :=
  let deploymentMethod := ds_deploymentMethod options in
  if truthy_opt_string (ds_changeSetName options)
     || bool_decide (ds_execute options <> None)
  then
    match deploymentMethod with
    | Some _ => Rejected (ToolkitError both_supplied_message)
    | None =>
        Resolved (Some {| method := "change-set";
                          dm_changeSetName := ds_changeSetName options;
                          dm_execute := ds_execute options |})
    end
  else Resolved deploymentMethod.

Definition deployStack (options : DeployStackOptions) : Async Event DeployStackResult :=
  do deploymentMethod <- settle (resolveDeploymentMethod options);
  exec call (AccessStackForMutableStackOperations (stackName (ds_stack options)))
            (w_accessStack w);
  exec validateBootstrapStackVersion
         (stackName (ds_stack options))
         (requiresBootstrapStackVersion (ds_stack options))
         (bootstrapStackVersionSsmParameter (ds_stack options));
  let role := nullish_opt (ds_roleArn options)
                          (cloudFormationExecutionRoleArn (ds_stack options)) in
  do executionRoleArn <- call (ReplacePlaceholders role) (w_replacePlaceholders w 0 role);
  let args := {| a_stack := ds_stack options;
                 a_roleArn := executionRoleArn;
                 a_deploymentMethod := deploymentMethod;
                 a_rest := ds_rest options |} in
  call (DeployStackCall args) (w_deployStack w args).

(** *** [rollbackStack] *)

(** How the [switch] of one iteration ends: with a [return], or by
    falling through to the monitoring code with the list of resources
    to skip as it stands then. *)
Inductive SwitchExit : Type :=
| SwitchReturn (r : RollbackStackResult)
| SwitchBreak (resourcesToSkip : list string).

(** How one iteration of the [while] ends. *)
Inductive IterationExit : Type :=
| Return (r : RollbackStackResult)
| Continue (resourcesToSkip : list string).

(** [poller.resourceErrors.filter(...).map(...)] *)
Definition failedTopLevelResources (errors : list ResourceError) : list string :=
  List.map (fun r => nullish (LogicalResourceId r) "")
           (List.filter (fun r => negb (isStackEvent r)
                                  && (length (parentStackLogicalIds r) =? 0)%nat)
                        errors).

(** The [switch] on the rollback choice.  Its [default] branch throws
    "Unexpected rollback choice"; no value of the enumeration reaches it. *)
Definition rollbackSwitch (options : RollbackStackOptions) (i : nat)
    (resourcesToSkip : list string)
    (cloudFormationStack : CloudFormationStack) (executionRoleArn : option string)
  : Async Event SwitchExit :=
  let deployName := stackName (rs_stack options) in
  let stackArn := stackId cloudFormationStack in
  match rollbackChoice (stackStatus cloudFormationStack) with
  | NONE =>
      exec emit (IoWarn ("Stack " +:+ deployName +:+ " does not need a rollback: "
                         +:+ display (stackStatus cloudFormationStack)));
      ret (SwitchReturn (NotInRollbackableState (stackId cloudFormationStack)))
  | START_ROLLBACK =>
      exec emit (IoDebug ("Initiating rollback of stack " +:+ deployName));
      exec call (CfnRollbackStack {| rb_StackName := deployName;
                                     rb_RoleARN := executionRoleArn;
                                     rb_ClientRequestToken := w_randomUUID w i;
                                     rb_RetainExceptOnCreate := true |})
                (w_rollbackStack w i);
      ret (SwitchBreak resourcesToSkip)
  | CONTINUE_UPDATE_ROLLBACK =>
      do resourcesToSkip <-
        (if nullish (orphanFailedResources options) false
         then
           do resourceErrors <-
             call (PollerPoll deployName
                              ["ROLLBACK_IN_PROGRESS"; "UPDATE_ROLLBACK_IN_PROGRESS"])
                  (w_poll w i);
           ret (failedTopLevelResources resourceErrors)
         else ret resourcesToSkip);
      let skipDescription :=
        if (0 <? length resourcesToSkip)%nat
        then " (orphaning: " +:+ join ", " resourcesToSkip +:+ ")"
        else "" in
      exec emit (IoWarn ("Continuing rollback of stack " +:+ deployName +:+ skipDescription));
      exec call (CfnContinueUpdateRollback
                   {| cur_StackName := deployName;
                      cur_ClientRequestToken := w_randomUUID w i;
                      cur_RoleARN := executionRoleArn;
                      cur_ResourcesToSkip := resourcesToSkip |})
                (w_continueUpdateRollback w i resourcesToSkip);
      ret (SwitchBreak resourcesToSkip)
  | ROLLBACK_FAILED =>
      exec emit (IoWarn ("Stack " +:+ deployName
                         +:+ " failed creation and rollback. This state cannot be rolled back. You can recreate this stack by running 'cdk deploy'."));
      ret (SwitchReturn (NotInRollbackableState stackArn))
  end.

(** The [try]/[catch]/[finally] around [stabilizeStack]: yields
    [stackErrorMessage] and [finalStackState]. *)
Definition awaitStabilization (options : RollbackStackOptions) (i : nat)
    (cloudFormationStack : CloudFormationStack)
  : Async Event (option string * CloudFormationStack) :=
  let deployName := stackName (rs_stack options) in
  try_finally
    (try_catch
       (do successStack <- call (StabilizeStack deployName) (w_stabilizeStack w i);
        match successStack with
        | None => throw (ToolkitError disappeared_message)
        | Some successStack =>
            let errors := join ", " (w_monitorErrors w i) in
            ret (if truthy_string errors then Some errors else None, successStack)
        end)
       (fun e =>
          ret (Some (suffixWithErrors (w_formatErrorMessage w e) (w_monitorErrors w i)),
               cloudFormationStack)))
    (call (MonitorStop deployName) (w_monitorStop w i)).

(** The body of the [while] loop. *)
Definition rollbackIteration (options : RollbackStackOptions) (i : nat)
    (resourcesToSkip : list string) : Async Event IterationExit :=
  let deployName := stackName (rs_stack options) in
  do cloudFormationStack <- call (Lookup deployName) (w_lookup w i);
  let stackArn := stackId cloudFormationStack in
  let role := nullish_opt (rs_roleArn options)
                          (cloudFormationExecutionRoleArn (rs_stack options)) in
  do executionRoleArn <- call (ReplacePlaceholders role) (w_replacePlaceholders w i role);
  do exit <- rollbackSwitch options i resourcesToSkip cloudFormationStack executionRoleArn;
  match exit with
  | SwitchReturn r => ret (Return r)
  | SwitchBreak resourcesToSkip =>
      exec call (MonitorStart deployName) (w_monitorStart w i);
      do '(stackErrorMessage, finalStackState) <-
        awaitStabilization options i cloudFormationStack;
      if isRollbackSuccess (stackStatus finalStackState)
         || negb (truthy_opt_string stackErrorMessage)
      then ret (Return (Success stackArn))
      else if RollbackChoice_eqb (rollbackChoice (stackStatus finalStackState))
                                 CONTINUE_UPDATE_ROLLBACK
              && nullish (orphanFailedResources options) false
      then ret (Continue resourcesToSkip)
      else throw (ToolkitError (nullish stackErrorMessage "undefined" +:+ recourse_suffix))
  end.

(** [let maxLoops = 10; while (maxLoops--) { ... } throw ...]: the
    argument [maxLoops] is the value of the counter when the loop
    condition is evaluated, [i] the number of iterations already made. *)
Fixpoint rollbackLoop (options : RollbackStackOptions) (maxLoops : nat) (i : nat)
    (resourcesToSkip : list string) : Async Event RollbackStackResult :=
  match maxLoops with
  | O => throw (ToolkitError no_progress_message)
  | S maxLoops' =>
      do exit <- rollbackIteration options i resourcesToSkip;
      match exit with
      | Return r => ret r
      | Continue resourcesToSkip' =>
          rollbackLoop options maxLoops' (S i) resourcesToSkip'
      end
  end.

Definition rollbackStack (options : RollbackStackOptions) : Async Event RollbackStackResult :=
  let resourcesToSkip := nullish (orphanLogicalIds options) [] in
  if nullish (orphanFailedResources options) false
     && (0 <? length resourcesToSkip)%nat
  then throw (ToolkitError cannot_combine_message)
  else
    exec call (AccessStackForMutableStackOperations (stackName (rs_stack options)))
              (w_accessStack w);
    exec (if nullish (validateBootstrapStackVersionFlag options) true
          then validateBootstrapStackVersion
                 (stackName (rs_stack options))
                 (Some BOOTSTRAP_STACK_VERSION_FOR_ROLLBACK)
                 (bootstrapStackVersionSsmParameter (rs_stack options))
          else ret tt);
    rollbackLoop options 10 0 resourcesToSkip.
End Coordinator.

(** ** The publisher cache *)

(** A manifest object.  [manifestRef] is its identity as a JavaScript
    object, the key under which a [Map] files it; [manifestEntries] is what
    it holds.  Two objects may hold the same entries and still be two. *)
Record AssetManifest : Type := {
  manifestRef : positive;
  manifestEntries : list string;
}.

Record Environment : Type := {
  envName : string;
  account : string;
  region : string;
}.

(** A publisher object ([cdk_assets.AssetPublishing]): what it was built
    from, and whether a failure has been recorded on it so far. *)
Record AssetPublishing : Type := {
  pub_manifest : AssetManifest;
  pub_env : Environment;
  pub_prefix : string;
  hasFailures : bool;
}.

(** The mutable fields of a [Deployments] instance, with the store of the
    publisher objects it has created; publishers are referred to by their
    identity in that store. *)
Record Instance : Type := {
  publisherCache : gmap positive positive;
  publishers : gmap positive AssetPublishing;
  _allowCrossAccountAssetPublishing : option bool;
}.

(** A freshly constructed [Deployments]. *)
Definition newDeployments : Instance :=
  {| publisherCache := ∅; publishers := ∅; _allowCrossAccountAssetPublishing := None |}.

(** What the collaborators answer during one call of a public asset
    method. *)
Record Answers : Type := {
  ans_access : Outcome unit;
  ans_validate : Outcome unit;
  ans_environment : Outcome Environment;
  ans_entry : Outcome bool;
  ans_crossAccount : Outcome bool;
  ans_formatErrorMessage : Error -> string;
}.

(** What a call leaves behind: its outcome, the publisher it obtained from
    the cache (if it came that far), and the instance as it is afterwards. *)
Record Reply (A : Type) : Type := {
  outcome : Outcome A;
  obtained : option positive;
  after : Instance;
}.
Arguments outcome {A} r.
Arguments obtained {A} r.
Arguments after {A} r.

Section PublisherCache.
(** [chalk.bold] *)
Variable bold : string -> string.

Definition cachedPublisher (d : Instance) (assetManifest : AssetManifest)
    (env : Environment) (name : option string) : positive * Instance :=
  match publisherCache d !! manifestRef assetManifest with
  | Some existing => (existing, d)
  | None =>
      let prefix := match name with
                    | Some n => if truthy_string n then bold n +:+ ": " else ""
                    | None => ""
                    end in
      let publisher := fresh (dom (publishers d)) in
      (publisher,
       {| publisherCache := <[manifestRef assetManifest := publisher]> (publisherCache d);
          publishers := <[publisher := {| pub_manifest := assetManifest;
                                          pub_env := env;
                                          pub_prefix := prefix;
                                          hasFailures := false |}]> (publishers d);
          _allowCrossAccountAssetPublishing := _allowCrossAccountAssetPublishing d |})
  end.

(** [publisher.buildEntry] / [publisher.publishEntry] resolving after
    having recorded a failure ([failed = true]) or not. *)
Definition recordOutcome (d : Instance) (publisher : positive) (failed : bool) : Instance :=
  {| publisherCache := publisherCache d;
     publishers := alter (fun p => {| pub_manifest := pub_manifest p;
                                      pub_env := pub_env p;
                                      pub_prefix := pub_prefix p;
                                      hasFailures := hasFailures p || failed |})
                         publisher (publishers d);
     _allowCrossAccountAssetPublishing := _allowCrossAccountAssetPublishing d |}.

Definition publisherHasFailures (d : Instance) (publisher : positive) : bool :=
  match publishers d !! publisher with
  | Some p => hasFailures p
  | None => false
  end.

(** [buildSingleAsset]; [validation] is [None] for
    ['no-version-validation']. *)
Definition buildSingleAsset (d : Instance) (validation : option (option Z * option string))
    (assetManifest : AssetManifest) (asset : string) (stack : StackArtifact)
    (name : option string) (a : Answers) : Reply unit :=
  let validated :=
    match validation with
    | None => Resolved tt
    | Some _ =>
        match ans_access a with
        | Rejected e => Rejected e
        | Resolved _ =>
            match ans_validate a with
            | Rejected e =>
                Rejected (ToolkitError (stackName stack +:+ ": " +:+ ans_formatErrorMessage a e))
            | Resolved _ => Resolved tt
            end
        end
    end in
  match validated with
  | Rejected e => {| outcome := Rejected e; obtained := None; after := d |}
  | Resolved _ =>
      match ans_environment a with
      | Rejected e => {| outcome := Rejected e; obtained := None; after := d |}
      | Resolved resolvedEnvironment =>
          let '(publisher, d1) := cachedPublisher d assetManifest resolvedEnvironment name in
          match ans_entry a with
          | Rejected e => {| outcome := Rejected e; obtained := Some publisher; after := d1 |}
          | Resolved failed =>
              let d2 := recordOutcome d1 publisher failed in
              {| outcome := if publisherHasFailures d2 publisher
                            then Rejected (ToolkitError ("Failed to build asset " +:+ asset))
                            else Resolved tt;
                 obtained := Some publisher;
                 after := d2 |}
          end
      end
  end.

(** [allowCrossAccountAssetPublishingForEnv]: computed on first use, then
    read from the instance. *)
Definition allowCrossAccountAssetPublishingForEnv (d : Instance) (a : Answers)
  : Outcome bool * Instance :=
  match _allowCrossAccountAssetPublishing d with
  | Some allowed => (Resolved allowed, d)
  | None =>
      match ans_access a with
      | Rejected e => (Rejected e, d)
      | Resolved _ =>
          match ans_crossAccount a with
          | Rejected e => (Rejected e, d)
          | Resolved allowed =>
              (Resolved allowed,
               {| publisherCache := publisherCache d;
                  publishers := publishers d;
                  _allowCrossAccountAssetPublishing := Some allowed |})
          end
      end
  end.

(** [publishSingleAsset] *)
Definition publishSingleAsset (d : Instance) (assetManifest : AssetManifest)
    (asset : string) (name : option string) (a : Answers) : Reply unit :=
  match ans_environment a with
  | Rejected e => {| outcome := Rejected e; obtained := None; after := d |}
  | Resolved stackEnv =>
      let '(publisher, d1) := cachedPublisher d assetManifest stackEnv name in
      match allowCrossAccountAssetPublishingForEnv d1 a with
      | (Rejected e, d2) => {| outcome := Rejected e; obtained := Some publisher; after := d2 |}
      | (Resolved _, d2) =>
          match ans_entry a with
          | Rejected e => {| outcome := Rejected e; obtained := Some publisher; after := d2 |}
          | Resolved failed =>
              let d3 := recordOutcome d2 publisher failed in
              {| outcome := if publisherHasFailures d3 publisher
                            then Rejected (ToolkitError ("Failed to publish asset " +:+ asset))
                            else Resolved tt;
                 obtained := Some publisher;
                 after := d3 |}
          end
      end
  end.

(** [isSingleAssetPublished] *)
Definition isSingleAssetPublished (d : Instance) (assetManifest : AssetManifest)
    (asset : string) (name : option string) (a : Answers) : Reply bool :=
  match ans_environment a with
  | Rejected e => {| outcome := Rejected e; obtained := None; after := d |}
  | Resolved stackEnv =>
      let '(publisher, d1) := cachedPublisher d assetManifest stackEnv name in
      {| outcome := ans_entry a; obtained := Some publisher; after := d1 |}
  end.

(** A call of one of the three public asset methods. *)
Inductive Request : Type :=
| Build (validation : option (option Z * option string)) (assetManifest : AssetManifest)
        (asset : string) (stack : StackArtifact) (name : option string)
| Publish (assetManifest : AssetManifest) (asset : string) (name : option string)
| IsPublished (assetManifest : AssetManifest) (asset : string) (name : option string).

Definition requestManifest (r : Request) : AssetManifest :=
  match r with
  | Build _ m _ _ _ | Publish m _ _ | IsPublished m _ _ => m
  end.

(** What is observed of a call: the manifest object it named and the
    publisher it obtained. *)
Record Observation : Type := {
  asked : AssetManifest;
  got : option positive;
}.

Definition serve (d : Instance) (r : Request) (a : Answers) : Observation * Instance :=
  match r with
  | Build validation m asset stack name =>
      let reply := buildSingleAsset d validation m asset stack name a in
      ({| asked := m; got := obtained reply |}, after reply)
  | Publish m asset name =>
      let reply := publishSingleAsset d m asset name a in
      ({| asked := m; got := obtained reply |}, after reply)
  | IsPublished m asset name =>
      let reply := isSingleAssetPublished d m asset name a in
      ({| asked := m; got := obtained reply |}, after reply)
  end.

(** A sequence of calls on one instance, each with the answers the
    collaborators give during it. *)
Fixpoint serveAll (d : Instance) (calls : list (Request * Answers))
  : list Observation * Instance :=
  match calls with
  | [] => ([], d)
  | (r, a) :: rest =>
      let '(o, d1) := serve d r a in
      let '(os, d2) := serveAll d1 rest in
      (o :: os, d2)
  end.

(** The cache never files one publisher under two manifests, and every
    publisher it files is an object of the store. *)
Definition cache_ok (d : Instance) : Prop :=
  (forall m p, publisherCache d !! m = Some p -> is_Some (publishers d !! p))
  /\ (forall m1 m2 p, publisherCache d !! m1 = Some p ->
                      publisherCache d !! m2 = Some p -> m1 = m2).

(** Every entry of the cache of [d] is still there, unchanged, in [d']. *)
Definition cache_kept (d d' : Instance) : Prop :=
  forall m p, publisherCache d !! m = Some p -> publisherCache d' !! m = Some p.
End PublisherCache.

(** ** Vocabulary of the statements *)

(** [m] issues at most [k] state-changing calls, whatever was logged
    before it started. *)
Definition adds_at_most {A} (k : nat) (m : Async Event A) : Prop :=
  forall log, (mutating_calls (snd (m log)) <= mutating_calls log + k)%nat.

(** The statements before the loop of [rollbackStack] let it start: the
    options pass the validation, the environment is accessible and the
    bootstrap version check, when requested, passes. *)
Definition enters_loop (w : World) (options : RollbackStackOptions) : Prop :=
  nullish (orphanFailedResources options) false
    && (0 <? length (nullish (orphanLogicalIds options) []))%nat = false
  /\ w_accessStack w = Resolved tt
  /\ (nullish (validateBootstrapStackVersionFlag options) true = true ->
      w_validateVersion w (Some BOOTSTRAP_STACK_VERSION_FOR_ROLLBACK)
        (bootstrapStackVersionSsmParameter (rs_stack options)) = Resolved tt).

(** The [switch] of iteration [i] is reached with [stack] as the looked-up
    stack: the lookup and the resolution of the role placeholders, which
    precede the [switch], both resolve. *)
Definition observes (w : World) (options : RollbackStackOptions) (i : nat)
    (stack : CloudFormationStack) : Prop :=
  w_lookup w i = Resolved stack
  /\ exists role,
      w_replacePlaceholders w i
        (nullish_opt (rs_roleArn options)
                     (cloudFormationExecutionRoleArn (rs_stack options)))
      = Resolved role.

(** ** Concrete scenarios *)

Definition demoArtifact : StackArtifact :=
  {| stackName := "Demo";
     requiresBootstrapStackVersion := None;
     bootstrapStackVersionSsmParameter := None;
     cloudFormationExecutionRoleArn := None |}.

Definition stackIn (c : RollbackChoice) : CloudFormationStack :=
  {| stackId := "arn:demo";
     stackStatus := {| display := "STATUS"; rollbackChoice := c; isRollbackSuccess := false |} |}.

(** A world in which every collaborator answers; the stack is in the state
    [script i] at the start of iteration [i] and again after the action of
    that iteration, and the activity monitor has seen [errors]. *)
Definition scriptedWorld (script : nat -> RollbackChoice) (errors : list string) : World :=
  {| w_accessStack := Resolved tt;
     w_validateVersion := fun _ _ => Resolved tt;
     w_replacePlaceholders := fun _ role => Resolved role;
     w_deployStack := fun _ => Resolved DidDeployStack;
     w_lookup := fun i => Resolved (stackIn (script i));
     w_randomUUID := fun _ => "token";
     w_rollbackStack := fun _ => Resolved tt;
     w_poll := fun _ => Resolved [];
     w_continueUpdateRollback := fun _ _ => Resolved tt;
     w_monitorStart := fun _ => Resolved tt;
     w_stabilizeStack := fun i => Resolved (Some (stackIn (script i)));
     w_monitorErrors := fun _ => errors;
     w_monitorStop := fun _ => Resolved tt;
     w_formatErrorMessage := error_message |}.

Definition rollbackOptions (force : option bool) (orphan : option (list string))
  : RollbackStackOptions :=
  {| rs_stack := demoArtifact;
     rs_roleArn := None;
     orphanFailedResources := force;
     orphanLogicalIds := orphan;
     validateBootstrapStackVersionFlag := None |}.

Definition noPassThrough : PassThrough :=
  {| deployName := None; notificationArns := None; reuseAssets := None;
     forceDeployment := None; parameters := []; usePreviousParameters := None;
     rollback := None; extraUserAgent := None; assetParallelism := None |}.

Definition deployOptions (dm : option DeploymentMethod) (name : option string)
    (exe : option bool) : DeployStackOptions :=
  {| ds_stack := demoArtifact;
     ds_roleArn := None;
     ds_execute := exe;
     ds_changeSetName := name;
     ds_deploymentMethod := dm;
     ds_rest := noPassThrough |}.

Definition directMethod : DeploymentMethod :=
  {| method := "direct"; dm_changeSetName := None; dm_execute := None |}.

(** Three manifest objects: [manifestA] and [manifestTwin] hold the same
    entries and are two objects; [manifestB] holds other entries. *)
Definition manifestA : AssetManifest :=
  {| manifestRef := 7; manifestEntries := ["abc123"] |}.

Definition manifestTwin : AssetManifest :=
  {| manifestRef := 8; manifestEntries := ["abc123"] |}.

Definition manifestB : AssetManifest :=
  {| manifestRef := 9; manifestEntries := ["def456"; "0a1b2c"] |}.

Definition calmAnswers : Answers :=
  {| ans_access := Resolved tt;
     ans_validate := Resolved tt;
     ans_environment := Resolved {| envName := "aws://1/here"; account := "1"; region := "here" |};
     ans_entry := Resolved false;
     ans_crossAccount := Resolved true;
     ans_formatErrorMessage := error_message |}.

(** Build and publish from [manifestA], with a failed build in between
    calls, then touch the twin and the other manifest. *)
Definition demoCalls : list (Request * Answers) :=
  [ (Build None manifestA "abc123" demoArtifact (Some "Demo"), calmAnswers);
    (Publish manifestA "abc123" (Some "Demo"), calmAnswers);
    (IsPublished manifestTwin "abc123" None, calmAnswers);
    (Build (Some (Some 6%Z, None)) manifestB "def456" demoArtifact None,
     {| ans_access := Resolved tt;
        ans_validate := Resolved tt;
        ans_environment := ans_environment calmAnswers;
        ans_entry := Resolved true;
        ans_crossAccount := Resolved true;
        ans_formatErrorMessage := error_message |});
    (IsPublished manifestA "abc123" (Some "Demo"), calmAnswers) ].

End Deployments.

(** * Preparing assets ([assets.ts]) *)
Module Assets.

(** [cxschema.FileAssetPackaging] *)
Inductive FileAssetPackaging : Type :=
| ZIP_DIRECTORY
| FILE.

(** The [packaging] tag of a file asset in the stack metadata. *)
Inductive FilePackagingTag : Type :=
| zip
| file.

Record FileAssetMetadataEntry : Type := {
  f_id : string;
  f_packaging : FilePackagingTag;
  f_path : string;
  f_sourceHash : string;
  s3BucketParameter : string;
  s3KeyParameter : string;
  artifactHashParameter : string;
}.

Record ContainerImageAssetMetadataEntry : Type := {
  c_id : string;
  c_path : string;
  c_sourceHash : string;
  imageNameParameter : option string;
  repositoryName : option string;
  imageTag : option string;
  buildArgs : option (list (string * string));
  target : option string;
  dockerFile : option string;
}.

(** [cxschema.AssetMetadataEntry], with the entries whose [packaging] is
    none of the three known tags kept apart. *)
Inductive AssetMetadataEntry : Type :=
| FileAsset (asset : FileAssetMetadataEntry)
| ContainerImageAsset (asset : ContainerImageAssetMetadataEntry)
| UnknownAsset (id : string) (packaging : string).

Definition assetId (asset : AssetMetadataEntry) : string :=
  match asset with
  | FileAsset a => f_id a
  | ContainerImageAsset a => c_id a
  | UnknownAsset id _ => id
  end.

Record FileSource : Type := {
  src_path : string;
  src_packaging : FileAssetPackaging;
}.

Record FileDestination : Type := {
  bucketName : string;
  objectKey : string;
}.

Record DockerImageSource : Type := {
  directory : string;
  dockerBuildArgs : option (list (string * string));
  dockerBuildTarget : option string;
  dockerFileName : option string;
}.

Record DockerImageDestination : Type := {
  dest_repositoryName : string;
  dest_imageTag : string;
}.

(** Modelled from the spec: the manifest under construction, whose class
    ([AssetManifestBuilder] of [asset-manifest-builder.ts]) is not among
    the sources.  Its entries are keyed by content hash ([sourceHash]);
    each is a file asset (path, packaging, destination bucket and key) or
    a container-image asset (build directory and arguments, destination
    repository and tag). *)
Record AssetManifestBuilder : Type := {
  files : gmap string (FileSource * FileDestination);
  dockerImages : gmap string (DockerImageSource * DockerImageDestination);
}.

Definition emptyManifest : AssetManifestBuilder :=
  {| files := ∅; dockerImages := ∅ |}.

(** Modelled from the spec: [addFileAsset] of the missing builder files
    the entry under its source hash. *)
Definition addFileAsset (b : AssetManifestBuilder) (sourceHash : string)
    (source : FileSource) (destination : FileDestination) : AssetManifestBuilder :=
  {| files := <[sourceHash := (source, destination)]> (files b);
     dockerImages := dockerImages b |}.

(** Modelled from the spec: [addDockerImageAsset] of the missing builder
    files the entry under its source hash. *)
Definition addDockerImageAsset (b : AssetManifestBuilder) (sourceHash : string)
    (source : DockerImageSource) (destination : DockerImageDestination)
  : AssetManifestBuilder :=
  {| files := files b;
     dockerImages := <[sourceHash := (source, destination)]> (dockerImages b) |}.

Record ToolkitInfo : Type := {
  found : bool;
  toolkitBucketName : string;
}.

Inductive Event : Type :=
| LookupToolkit
| IoDebug (msg : string)
| PrepareEcrRepository (repositoryName : string).

(** The characters of an asset id that a repository name cannot hold are
    replaced by a dash: [id.replace(/[:/]/g, '-')]. *)
Fixpoint dashed (s : string) : string :=
  match s with
  | EmptyString => EmptyString
  | String c rest =>
      String (if Ascii.eqb c ":" || Ascii.eqb c "/" then "-"%char else c) (dashed rest)
  end.

(** [toLowerCase] on the letters A to Z. *)
Definition lower_ascii (c : ascii) : ascii :=
  let n := nat_of_ascii c in
  if (65 <=? n)%nat && (n <=? 90)%nat then ascii_of_nat (n + 32) else c.

(** What [toLowerCase] makes of text whose only letters are those of
    ASCII; the scenarios use it. *)
Fixpoint lower_letters (s : string) : string :=
  match s with
  | EmptyString => EmptyString
  | String c rest => String (lower_ascii c) (lower_letters rest)
  end.

Section Preparing.
(** [path.extname] of the platform, [cxapi.ASSET_PREFIX_SEPARATOR], what
    [envResources.lookupToolkit] and [envResources.prepareEcrRepository]
    answer, [String.prototype.toLowerCase], and the printed form of an
    asset ([JSON.stringify]) for the debug messages. *)
Variable extname : string -> string.
Variable ASSET_PREFIX_SEPARATOR : string.
Variable lookupToolkit : Outcome ToolkitInfo.
Variable prepareEcrRepository : string -> Outcome string.
Variable toLowerCase : string -> string.
Variable stringify : AssetMetadataEntry -> string.
(** [chalk.blue] *)
Variable blue : string -> string.

Definition prepareFileAsset (asset : FileAssetMetadataEntry)
    (assetManifest : AssetManifestBuilder) (toolkitInfo : ToolkitInfo)
    (packaging : FileAssetPackaging)
  : Async Event (list (string * string) * AssetManifestBuilder) :=
  let extension := match packaging with
                   | ZIP_DIRECTORY => ".zip"
                   | FILE => extname (f_path asset)
                   end in
  let baseName := f_sourceHash asset +:+ extension in
  let s3Prefix := if String.eqb (f_id asset) (f_sourceHash asset)
                  then "assets/"
                  else "assets/" +:+ f_id asset +:+ "/" in
  let key := s3Prefix +:+ baseName in
  let s3url := "s3://" +:+ toolkitBucketName toolkitInfo +:+ "/" +:+ key in
  exec emit (IoDebug ("Storing asset " +:+ f_path asset +:+ " at " +:+ s3url));
  let assetManifest' :=
    addFileAsset assetManifest (f_sourceHash asset)
      {| src_path := f_path asset; src_packaging := packaging |}
      {| bucketName := toolkitBucketName toolkitInfo; objectKey := key |} in
  ret ([ (s3BucketParameter asset, toolkitBucketName toolkitInfo);
         (s3KeyParameter asset, s3Prefix +:+ ASSET_PREFIX_SEPARATOR +:+ baseName);
         (artifactHashParameter asset, f_sourceHash asset) ],
       assetManifest').

Definition prepareDockerImageAsset (asset : ContainerImageAssetMetadataEntry)
    (assetManifest : AssetManifestBuilder)
  : Async Event (list (string * string) * AssetManifestBuilder) :=
  if negb (truthy_opt_string (imageNameParameter asset))
     && (negb (truthy_opt_string (repositoryName asset))
         || negb (truthy_opt_string (imageTag asset)))
  then throw (ToolkitError ("Invalid Docker image asset configuration: "
                            +:+ quoted "repositoryName" +:+ " and " +:+ quoted "imageTag"
                            +:+ " are required when " +:+ quoted "imageNameParameter"
                            +:+ " is left out"))
  else
    let repositoryName := nullish (repositoryName asset)
                                  ("cdk/" +:+ toLowerCase (dashed (c_id asset))) in
    do repositoryUri <- call (PrepareEcrRepository repositoryName)
                             (prepareEcrRepository repositoryName);
    let imageTag := nullish (imageTag asset) (c_sourceHash asset) in
    let assetManifest' :=
      addDockerImageAsset assetManifest (c_sourceHash asset)
        {| directory := c_path asset;
           dockerBuildArgs := buildArgs asset;
           dockerBuildTarget := target asset;
           dockerFileName := dockerFile asset |}
        {| dest_repositoryName := repositoryName; dest_imageTag := imageTag |} in
    match imageNameParameter asset with
    | Some p =>
        if truthy_string p
        then ret ([ (p, repositoryUri +:+ ":" +:+ imageTag) ], assetManifest')
        else ret ([], assetManifest')
    | None => ret ([], assetManifest')
    end.

Definition prepareAsset (asset : AssetMetadataEntry)
    (assetManifest : AssetManifestBuilder) (toolkitInfo : ToolkitInfo)
  : Async Event (list (string * string) * AssetManifestBuilder) :=
  match asset with
  | FileAsset a =>
      prepareFileAsset a assetManifest toolkitInfo
        (match f_packaging a with
         | zip => ZIP_DIRECTORY
         | file => FILE
         end)
  | ContainerImageAsset a => prepareDockerImageAsset a assetManifest
  | UnknownAsset _ packaging =>
      throw (ToolkitError ("Unsupported packaging type: " +:+ packaging
                           +:+ ". You might need to upgrade your aws-cdk toolkit to support this asset type."))
  end.

(** The [for] loop of [addMetadataAssetsToManifest]; [params] collects the
    parameters, a later asset overwriting an earlier one of the same name. *)
Fixpoint prepareAll (assets : list AssetMetadataEntry) (reuse : list string)
    (hasAssembly : bool) (toolkitInfo : ToolkitInfo)
    (params : gmap string string) (assetManifest : AssetManifestBuilder)
  : Async Event (gmap string string * AssetManifestBuilder) :=
  match assets with
  | [] => ret (params, assetManifest)
  | asset :: rest =>
      if existsb (String.eqb (assetId asset)) reuse
      then
        exec emit (IoDebug ("Reusing asset " +:+ assetId asset +:+ ": " +:+ stringify asset));
        prepareAll rest reuse hasAssembly toolkitInfo params assetManifest
      else
        exec emit (IoDebug ("Preparing asset " +:+ assetId asset +:+ ": " +:+ stringify asset));
        if negb hasAssembly
        then throw (ToolkitError "Unexpected: stack assembly is required in order to find assets in assembly directory")
        else
          do '(added, assetManifest') <- prepareAsset asset assetManifest toolkitInfo;
          prepareAll rest reuse hasAssembly toolkitInfo
                     (List.fold_left (fun m kv => <[fst kv := snd kv]> m) added params)
                     assetManifest'
  end.

Definition addMetadataAssetsToManifest (assets : list AssetMetadataEntry)
    (hasAssembly : bool) (environmentName : string)
    (assetManifest : AssetManifestBuilder) (reuse : option (list string))
  : Async Event (gmap string string * AssetManifestBuilder) :=
  let reuse := nullish reuse [] in
  if (length assets =? 0)%nat then ret (∅, assetManifest)
  else
    do toolkitInfo <- call LookupToolkit lookupToolkit;
    if negb (found toolkitInfo)
    then throw (ToolkitError ("This stack uses assets, so the toolkit stack must be deployed to the environment (Run "
                              +:+ quoted (blue ("cdk bootstrap " +:+ environmentName)) +:+ ")"))
    else prepareAll assets reuse hasAssembly toolkitInfo ∅ assetManifest.
End Preparing.

(** ** Concrete scenarios *)

Definition demoToolkit : ToolkitInfo :=
  {| found := true; toolkitBucketName := "staging-bucket" |}.

Definition demoFileAsset (id : string) (tag : FilePackagingTag) : FileAssetMetadataEntry :=
  {| f_id := id;
     f_packaging := tag;
     f_path := "asset.abc123/index.js";
     f_sourceHash := "abc123";
     s3BucketParameter := "BucketParam";
     s3KeyParameter := "KeyParam";
     artifactHashParameter := "HashParam" |}.

(** An extension function for the scenarios: what follows the last dot. *)
Fixpoint after_last_dot (s : string) (seen : option string) : string :=
  match s with
  | EmptyString => nullish seen ""
  | String c rest =>
      if Ascii.eqb c "." then after_last_dot rest (Some ("." +:+ rest))
      else after_last_dot rest seen
  end.

End Assets.

(** * The account cache ([account-cache.ts]) *)
Module AccountCache.

Record Account : Type := {
  accountId : string;
  partition : string;
}.

(** [AccountAccessKeyCache.MAX_ENTRIES] *)
Definition MAX_ENTRIES : nat := 1000.

(** How a file-system call fails: with one of the error codes the cache
    looks at, as a [SyntaxError] of the JSON reader, or otherwise. *)
Inductive FsError : Type :=
| ENOENT
| EACCES
| EROFS
| JsonSyntaxError
| OtherFsError (message : string).

Definition thrown (e : FsError) : Error :=
  match e with
  | ENOENT => ForeignError "ENOENT"
  | EACCES => ForeignError "EACCES"
  | EROFS => ForeignError "EROFS"
  | JsonSyntaxError => ForeignError "SyntaxError"
  | OtherFsError m => ForeignError m
  end.

(** The cache file: absent, holding something that is not JSON, or holding
    a map from access key ids to accounts. *)
Inductive CacheFile : Type :=
| Absent
| Garbled
| Holding (map : gmap string Account).

(** What the file system does during one call: the read may fail for a
    reason of its own, and so may [ensureFile] or [writeJson]; a failed
    [writeJson] leaves the file as it was or, when [cutShort], without
    readable content. *)
Record Conditions : Type := {
  readFailure : option FsError;
  ensureFailure : option FsError;
  writeFailure : option FsError;
  cutShort : bool;
}.

(** [fs.readJson(this.cacheFile)] *)
Definition readJson (f : CacheFile) (c : Conditions) : FsError + gmap string Account :=
  match readFailure c with
  | Some e => inl e
  | None =>
      match f with
      | Absent => inl ENOENT
      | Garbled => inl JsonSyntaxError
      | Holding m => inr m
      end
  end.

Definition loadMap (f : CacheFile) (c : Conditions) : Outcome (gmap string Account) :=
  match readJson f c with
  | inr m => Resolved m
  | inl ENOENT | inl EACCES => Resolved ∅
  | inl JsonSyntaxError => Resolved ∅
  | inl e => Rejected (thrown e)
  end.

Definition saveMap (f : CacheFile) (c : Conditions) (map : gmap string Account)
  : Outcome unit * CacheFile :=
  let attempt : (FsError * CacheFile) + CacheFile :=
    match ensureFailure c with
    | Some e => inl (e, f)
    | None =>
        let ensured := match f with
                       | Absent => Garbled
                       | _ => f
                       end in
        match writeFailure c with
        | Some e => inl (e, if cutShort c then Garbled else ensured)
        | None => inr (Holding map)
        end
    end in
  match attempt with
  | inr f' => (Resolved tt, f')
  | inl (ENOENT, f') | inl (EACCES, f') | inl (EROFS, f') => (Resolved tt, f')
  | inl (e, f') => (Rejected (thrown e), f')
  end.

(** The map that [put] hands to [saveMap], given the map it has loaded. *)
Definition updated (map : gmap string Account) (accessKeyId : string) (account : Account)
  : gmap string Account :=
  let map := if (MAX_ENTRIES <=? size map)%nat then ∅ else map in
  <[accessKeyId := account]> map.

Definition put (f : CacheFile) (c : Conditions) (accessKeyId : string) (account : Account)
  : Outcome unit * CacheFile :=
  match loadMap f c with
  | Rejected e => (Rejected e, f)
  | Resolved map => saveMap f c (updated map accessKeyId account)
  end.

Definition get (f : CacheFile) (c : Conditions) (accessKeyId : string)
  : Outcome (option Account) :=
  match loadMap f c with
  | Rejected e => Rejected e
  | Resolved map => Resolved (map !! accessKeyId)
  end.

(** [fetch]: the cached account if there is one, else the account the
    resolver finds, which is put in the cache. *)
Definition fetch (f : CacheFile) (c : Conditions) (accessKeyId : string)
    (resolver : Outcome (option Account)) : Outcome (option Account) * CacheFile :=
  match get f c accessKeyId with
  | Rejected e => (Rejected e, f)
  | Resolved (Some cached) => (Resolved (Some cached), f)
  | Resolved None =>
      match resolver with
      | Rejected e => (Rejected e, f)
      | Resolved None => (Resolved None, f)
      | Resolved (Some account) =>
          match put f c accessKeyId account with
          | (Rejected e, f') => (Rejected e, f')
          | (Resolved _, f') => (Resolved (Some account), f')
          end
      end
  end.

(** A use of the cache, with the conditions it meets. *)
Inductive Operation : Type :=
| Put (c : Conditions) (accessKeyId : string) (account : Account)
| Fetch (c : Conditions) (accessKeyId : string) (resolver : Outcome (option Account))
| Get (c : Conditions) (accessKeyId : string).

Definition perform (f : CacheFile) (op : Operation) : CacheFile :=
  match op with
  | Put c accessKeyId account => snd (put f c accessKeyId account)
  | Fetch c accessKeyId resolver => snd (fetch f c accessKeyId resolver)
  | Get _ _ => f
  end.

(** A sequence of uses of one cache file. *)
Definition performAll (f : CacheFile) (ops : list Operation) : CacheFile :=
  List.fold_left perform ops f.

(** The file holds no more than [MAX_ENTRIES] entries. *)
Definition within_limit (f : CacheFile) : Prop :=
  match f with
  | Holding m => (size m <= MAX_ENTRIES)%nat
  | Absent | Garbled => True
  end.

Definition fairWeather : Conditions :=
  {| readFailure := None; ensureFailure := None; writeFailure := None; cutShort := false |}.

End AccountCache.

(** * Discovering importable resources (the resource importer) *)
Module Importer.

(** A JSON value, as found in a template.  A number is kept by the text
    JavaScript prints for it. *)
Inductive JSON : Type :=
| JNull
| JBool (b : bool)
| JNumber (printed : string)
| JString (s : string)
| JArray (items : list JSON)
| JObject (fields : list (string * JSON)).

(** [if (v)] *)
Definition truthy (v : JSON) : bool :=
  match v with
  | JNull => false
  | JBool b => b
  | JNumber printed => negb (String.eqb printed "0")
  | JString s => truthy_string s
  | JArray _ | JObject _ => true
  end.

(** [fields[key]] on the fields of an object. *)
Fixpoint field {A : Type} (key : string) (fields : list (string * A)) : option A :=
  match fields with
  | [] => None
  | (k, v) :: rest => if String.eqb k key then Some v else field key rest
  end.

(** [v?.[key]] for a key that is neither an index nor [length]: defined on
    objects only; [null] and [undefined] are not told apart by the [??]
    that follows each use. *)
Definition prop (key : string) (v : option JSON) : option JSON :=
  match v with
  | Some (JObject fields) =>
      match field key fields with
      | Some JNull => None
      | found => found
      end
  | _ => None
  end.

(** [{ ...fields, key: value }] *)
Fixpoint with_field (key : string) (value : JSON) (fields : list (string * JSON))
  : list (string * JSON) :=
  match fields with
  | [] => [(key, value)]
  | (k, v) :: rest =>
      if String.eqb k key then (k, value) :: rest
      else (k, v) :: with_field key value rest
  end.

(** [String(v)], as [join] and template literals apply it. *)
Fixpoint js_string (v : JSON) : string :=
  match v with
  | JNull => "null"
  | JBool true => "true"
  | JBool false => "false"
  | JNumber printed => printed
  | JString s => s
  | JArray items =>
      join "," (List.map (fun item => match item with
                                      | JNull => ""
                                      | _ => js_string item
                                      end) items)
  | JObject _ => "[object Object]"
  end.

(** A template: its [Resources] section, each resource an object. *)
Record Template : Type := {
  Resources : option (list (string * list (string * JSON)));
}.

(** What the importer reads of a [ResourceDifference]. *)
Record ResourceDifference : Type := {
  isAddition : bool;
  newResourceType : option string;
}.

Record ImportableResource : Type := {
  logicalId : string;
  resourceDiff : ResourceDifference;
  resourceDefinition : list (string * JSON);
}.

Record DiscoverImportableResourcesResult : Type := {
  additions : list ImportableResource;
  hasNonAdditions : bool;
}.

(** The fields of a [ResourceImporter]: the stack artifact it was made for
    and the memo of the deployed template. *)
Record ResourceImporter : Type := {
  stackTemplate : option Template;
  _currentTemplate : option Template;
}.

Inductive Event : Type :=
| ReadCurrentTemplate
| IoWarn (msg : string).

(** [addDefaultDeletionPolicy] *)
Definition addDefaultDeletionPolicy (resource : list (string * JSON)) : list (string * JSON) :=
  match field "DeletionPolicy" resource with
  | Some policy =>
      if truthy policy then resource
      else with_field "DeletionPolicy" (JString "Retain") resource
  | None => with_field "DeletionPolicy" (JString "Retain") resource
  end.

(** [this.stack.template?.Resources?.[logicalId]] *)
Definition templateResource (template : option Template) (logicalId : string)
  : option (list (string * JSON)) :=
  match template with
  | Some t =>
      match Resources t with
      | Some resources => field logicalId resources
      | None => None
      end
  | None => None
  end.

(** [describeResource]: the construct path of the resource when the
    template records one, its logical id otherwise. *)
Definition describeResource (imp : ResourceImporter) (logicalId : string) : string :=
  match prop "aws:cdk:path"
             (prop "Metadata" (option_map JObject (templateResource (stackTemplate imp) logicalId)))
  with
  | Some path => js_string path
  | None => logicalId
  end.

Definition refused_message (offending : list string) : string :=
  "No resource updates or deletes are allowed on import operation. Make sure to resolve pending changes "
  +:+ "to existing resources, before attempting an import. Updated/deleted resources: "
  +:+ join ", " offending +:+ " (--force to override)".

Definition ignoring_message (offending : list string) : string :=
  "Ignoring updated/deleted resources (--force): " +:+ join ", " offending.

Section Discovering.
(** [cfnDiff.fullDiff], read at [diff.resources.changes] and listed as
    [Object.entries] lists it, and [deployments.readCurrentTemplate]. *)
Variable fullDiffChanges : Template -> option Template -> list (string * ResourceDifference).
Variable readCurrentTemplate : Outcome Template.

(** [currentTemplate]: read once, then taken from the memo. *)
Definition currentTemplate (imp : ResourceImporter) : Async Event (Template * ResourceImporter) :=
  match _currentTemplate imp with
  | Some t => ret (t, imp)
  | None =>
      do t <- call ReadCurrentTemplate readCurrentTemplate;
      ret (t, {| stackTemplate := stackTemplate imp; _currentTemplate := Some t |})
  end.

(** The changes the importer looks at: all but those of [CDKMetadata]. *)
Definition resourceChanges (changes : list (string * ResourceDifference))
  : list (string * ResourceDifference) :=
  List.filter (fun c => negb (String.eqb (fst c) "CDKMetadata")) changes.

Definition nonAdditionsOf (changes : list (string * ResourceDifference))
  : list (string * ResourceDifference) :=
  List.filter (fun c => negb (isAddition (snd c))) changes.

Definition additionsOf (changes : list (string * ResourceDifference))
  : list (string * ResourceDifference) :=
  List.filter (fun c => isAddition (snd c)) changes.

Definition discoverImportableResources (imp : ResourceImporter) (allowNonAdditions : option bool)
  : Async Event (DiscoverImportableResourcesResult * ResourceImporter) :=
  let allowNonAdditions := nullish allowNonAdditions false in
  do '(current, imp') <- currentTemplate imp;
  let changes := resourceChanges (fullDiffChanges current (stackTemplate imp')) in
  let nonAdditions := nonAdditionsOf changes in
  let additions := additionsOf changes in
  exec (if (0 <? length nonAdditions)%nat
        then
          let offendingResources :=
            List.map (fun c => describeResource imp' (fst c)) nonAdditions in
          if allowNonAdditions
          then emit (IoWarn (ignoring_message offendingResources))
          else throw (ToolkitError (refused_message offendingResources))
        else ret tt);
  ret ({| additions :=
            List.map (fun c =>
                        {| logicalId := fst c;
                           resourceDiff := snd c;
                           resourceDefinition :=
                             addDefaultDeletionPolicy
                               (nullish (templateResource (stackTemplate imp') (fst c)) []) |})
                     additions;
          hasNonAdditions := (0 <? length nonAdditions)%nat |},
       imp').
End Discovering.

(** ** Concrete scenarios *)

Definition added (type : string) : ResourceDifference :=
  {| isAddition := true; newResourceType := Some type |}.

Definition altered (type : string) : ResourceDifference :=
  {| isAddition := false; newResourceType := Some type |}.

Definition desiredTemplate : Template :=
  {| Resources :=
       Some [ ("Bucket", [ ("Type", JString "AWS::S3::Bucket") ]);
              ("Queue", [ ("Type", JString "AWS::SQS::Queue");
                          ("DeletionPolicy", JString "Delete") ]);
              ("Topic", [ ("Type", JString "AWS::SNS::Topic");
                          ("Metadata", JObject [ ("aws:cdk:path", JString "Demo/Topic/Resource") ]) ]) ] |}.

Definition demoImporter : ResourceImporter :=
  {| stackTemplate := Some desiredTemplate; _currentTemplate := None |}.

Definition twoAdditions : list (string * ResourceDifference) :=
  [ ("Bucket", added "AWS::S3::Bucket");
    ("CDKMetadata", altered "AWS::CDK::Metadata");
    ("Queue", added "AWS::SQS::Queue") ].

Definition additionAndChange : list (string * ResourceDifference) :=
  [ ("Bucket", added "AWS::S3::Bucket");
    ("Topic", altered "AWS::SNS::Topic") ].

End Importer.

(** * Parameter resolution of the deploy step *)
Module Parameters.

(** Modelled from the spec: a template-declared parameter, of which the
    resolution reads the optional default, whether the parameter is sourced
    from the remote parameter store, and whether it carries the
    no-invalidate marker.  The classes that resolve parameters
    ([TemplateParameters] and [ParameterValues] of the deployments'
    [cfn-api]) are not among the sources; their test file
    ([cloudformation.test.ts]) is, and where it shows more than the spec
    says (values are compared with the current ones, overrides of
    undeclared parameters are passed on, the text of the error) the
    definitions below follow it. *)
Record TemplateParameter : Type := {
  Default : option string;
  fromParameterStore : bool;
  noInvalidate : bool;
}.

(** An entry of the outgoing parameter set:
    [{ ParameterKey, ParameterValue }] or
    [{ ParameterKey, UsePreviousValue: true }]. *)
Inductive ApiParameter : Type :=
| ParameterValue (key value : string)
| UsePreviousValue (key : string).

Definition ParameterKey (a : ApiParameter) : string :=
  match a with
  | ParameterValue key _ | UsePreviousValue key => key
  end.

(** Modelled from the spec: what [hasChanges] answers, [false], [true] or
    ['ssm'] (the tests of the store-sourced parameters expect ['ssm']). *)
Inductive ParameterChanges : Type :=
| NoChanges
| Changes
| SsmChanges.

(** Modelled from the spec: a resolved parameter set ([ParameterValues]):
    the declared parameters, the value in force for each name, and the
    outgoing set. *)
Record ParameterValues : Type := {
  formalParams : list (string * TemplateParameter);
  values : gmap string string;
  apiParameters : list ApiParameter;
}.

(** Modelled from the spec: [updates[key]], the override given for a
    name; a name may be listed with [undefined], which is no override. *)
Definition supplied (updates : list (string * option string)) (key : string) : option string :=
  match Importer.field key updates with
  | Some given => given
  | None => None
  end.

(** Modelled from the spec: what the loop over the declared parameters
    has gathered. *)
Record Resolving : Type := {
  r_values : gmap string string;
  r_api : list ApiParameter;
  missingRequired : list string;
}.

(** Modelled from the spec: step 2 of the deploy state machine for one
    declared parameter.  An override is used and sent; else a previous
    value is kept, with [UsePreviousValue]; else the default is in force
    and nothing is sent; else the parameter is missing a value. *)
Definition resolve (updates : list (string * option string))
    (previousValues : gmap string string)
    (acc : Resolving) (declared : string * TemplateParameter) : Resolving :=
  let key := fst declared in
  match supplied updates key with
  | Some updatedValue =>
      {| r_values := <[key := updatedValue]> (r_values acc);
         r_api := r_api acc ++ [ParameterValue key updatedValue];
         missingRequired := missingRequired acc |}
  | None =>
      match previousValues !! key with
      | Some previous =>
          {| r_values := <[key := previous]> (r_values acc);
             r_api := r_api acc ++ [UsePreviousValue key];
             missingRequired := missingRequired acc |}
      | None =>
          match Default (snd declared) with
          | Some default =>
              {| r_values := <[key := default]> (r_values acc);
                 r_api := r_api acc;
                 missingRequired := missingRequired acc |}
          | None =>
              {| r_values := r_values acc;
                 r_api := r_api acc;
                 missingRequired := missingRequired acc ++ [key] |}
          end
      end
  end.

(** Modelled from the spec: the overrides of names the template does not
    declare, as far as they have a non-empty value; they are passed on all
    the same, as the test "unknown parameter in overrides, pass it anyway"
    expects. *)
Definition unexpected (formal : list (string * TemplateParameter))
    (updates : list (string * option string)) : list (string * string) :=
  List.flat_map (fun kv => match Importer.field (fst kv) formal, snd kv with
                           | None, Some value =>
                               if truthy_string value then [(fst kv, value)] else []
                           | _, _ => []
                           end)
                updates.

(** Modelled from the spec: the resolution of all parameters a template
    declares, given the overrides and the previous values by name; it
    fails with the "missing a value" error, which lists the parameters
    that have neither override, previous value nor default.  The missing
    code is the constructor of [ParameterValues]. *)
Definition resolveAll (formal : list (string * TemplateParameter))
    (updates : list (string * option string)) (previousValues : gmap string string)
  : Outcome ParameterValues :=
  let declared :=
    List.fold_left (resolve updates previousValues) formal
                   {| r_values := ∅; r_api := []; missingRequired := [] |} in
  if (0 <? length (missingRequired declared))%nat
  then Rejected (ToolkitError ("The following CloudFormation Parameters are missing a value: "
                               +:+ join ", " (missingRequired declared)))
  else
    let extra := unexpected formal updates in
    Resolved
      {| formalParams := formal;
         values := List.fold_left (fun vs kv => <[fst kv := snd kv]> vs) extra
                                  (r_values declared);
         apiParameters := r_api declared
                          ++ List.map (fun kv => ParameterValue (fst kv) (snd kv)) extra |}.

(** Modelled from the spec: [TemplateParameters.updateExisting] and
    [TemplateParameters.supplyAll]. *)
Definition updateExisting (formal : list (string * TemplateParameter))
    (updates : list (string * option string)) (previousValues : gmap string string)
  : Outcome ParameterValues :=
  resolveAll formal updates previousValues.

(** Modelled from the spec: [TemplateParameters.supplyAll], the
    resolution without previous values. *)
Definition supplyAll (formal : list (string * TemplateParameter))
    (updates : list (string * option string)) : Outcome ParameterValues :=
  resolveAll formal updates ∅.

(** Modelled from the spec: [hasChanges].  A declared parameter that is
    sourced from the parameter store and lacks the no-invalidate marker
    makes the answer ['ssm']; otherwise the values in force are compared
    with the current ones: a current value that is gone or different, or
    a value in force that is new, is a change. *)
Definition hasChanges (v : ParameterValues) (currentValues : gmap string string)
  : ParameterChanges :=
  if existsb (fun kp => fromParameterStore (snd kp) && negb (noInvalidate (snd kp)))
             (formalParams v)
  then SsmChanges
  else if existsb (fun kv => negb (bool_decide (values v !! fst kv = Some (snd kv))))
                  (map_to_list currentValues)
  then Changes
  else if existsb (fun kv => negb (bool_decide (is_Some (currentValues !! fst kv))))
                  (map_to_list (values v))
  then Changes
  else NoChanges.

(** ** The cases of the test file *)

Definition PARAM : string := "TheParameter".
Definition DEFAULT : string := "TheDefault".
Definition OVERRIDE : string := "TheOverride".

Definition ordinary (default : option string) : TemplateParameter :=
  {| Default := default; fromParameterStore := false; noInvalidate := false |}.

(** [makeParams] of the test file: the outgoing set and the answer of
    [hasChanges] for the previous values. *)
Definition makeParams (defaultValue hasPrevValue override : bool)
  : Outcome (list ApiParameter * ParameterChanges) :=
  let params := [ (PARAM, ordinary (if defaultValue then Some DEFAULT else None)) ] in
  let prevParams : gmap string string := if hasPrevValue then {[ PARAM := "Foo" ]} else ∅ in
  match updateExisting params [ (PARAM, if override then Some OVERRIDE else None) ] prevParams
  with
  | Resolved stackParams => Resolved (apiParameters stackParams, hasChanges stackParams prevParams)
  | Rejected e => Rejected e
  end.

(** The template of the two tests on store-sourced parameters. *)
Definition storeTemplate (marker : bool) : list (string * TemplateParameter) :=
  [ ("Foo", {| Default := Some "/Some/Key";
               fromParameterStore := true;
               noInvalidate := marker |}) ].

Definition oldValues : gmap string string := {[ "Foo" := "/Some/Key" ]}.

Definition hasChangesOf (o : Outcome ParameterValues) (currentValues : gmap string string)
  : option ParameterChanges :=
  match o with
  | Resolved v => Some (hasChanges v currentValues)
  | Rejected _ => None
  end.

End Parameters.

(** * Resolving import identifiers (the resource importer, continued) *)
Module ImportWorkflow.
Import Importer.

(** A plain object with string values, its properties in the order of
    their first assignment. *)
Definition Dict : Type := list (string * string).

(** [fields[key] = value] *)
Fixpoint assign {A : Type} (key : string) (value : A) (fields : list (string * A))
  : list (string * A) :=
  match fields with
  | [] => [(key, value)]
  | (k, v) :: rest =>
      if String.eqb k key then (k, value) :: rest
      else (k, v) :: assign key value rest
  end.

(** [delete fields[key]] *)
Definition remove {A : Type} (key : string) (fields : list (string * A))
  : list (string * A) :=
  List.filter (fun kv => negb (String.eqb (fst kv) key)) fields.


(** The index [n] as a property name. *)
Definition index_name (n : nat) : string :=
  NilZero.string_of_uint (Nat.to_uint n).

Fixpoint indexed {A : Type} (from : nat) (items : list A) : list (string * A) :=
  match items with
  | [] => []
  | item :: rest => (index_name from, item) :: indexed (S from) rest
  end.

Fixpoint characters (s : string) : list JSON :=
  match s with
  | EmptyString => []
  | String c rest => JString (String c EmptyString) :: characters rest
  end.

(** [Object.entries(v)]: the properties of an object, the elements of an
    array and the characters of a string under their indices, nothing for
    the other values. *)
Definition entries (v : JSON) : list (string * JSON) :=
  match v with
  | JObject fields => fields
  | JArray items => indexed 0 items
  | JString s => indexed 0 (characters s)
  | _ => []
  end.

(** [fmtdict] *)
Definition fmtdict (xs : list (string * JSON)) : string :=
  join ", " (List.map (fun kv => fst kv +:+ "=" +:+ js_string (snd kv)) xs).


(** The names under which every object inherits a member of
    [Object.prototype], as the language defines it: reading such a
    property of an object that has none of its own under the name yields
    the inherited member, a function, or under [__proto__] the prototype
    itself.  All of them are truthy and [Object.entries] lists nothing of
    them. *)
Definition inherited_names : list string :=
  [ "constructor"; "hasOwnProperty"; "isPrototypeOf"; "propertyIsEnumerable";
    "toLocaleString"; "toString"; "valueOf"; "__proto__";
    "__defineGetter__"; "__defineSetter__"; "__lookupGetter__"; "__lookupSetter__" ].

Definition inherits (key : string) : bool :=
  existsb (String.eqb key) inherited_names.

(** What reading a property of an object read from JSON yields: a value
    of its own, or the member every object inherits under the name. *)
Inductive Held : Type :=
| Own (v : JSON)
| Member (name : string).

(** [fields[key]], read. *)
Definition read (fields : list (string * JSON)) (key : string) : option Held :=
  match field key fields with
  | Some v => Some (Own v)
  | None => if inherits key then Some (Member key) else None
  end.

(** [if (held)] *)
Definition truthy_held (held : Held) : bool :=
  match held with
  | Own v => truthy v
  | Member _ => true
  end.

(** [Object.entries(held)] *)
Definition entries_held (held : Held) : list (string * JSON) :=
  match held with
  | Own v => entries v
  | Member _ => []
  end.

(** [fields[key] = value] on an ordinary object: under [__proto__] the
    assignment goes to the accessor every object inherits, which makes no
    property of the object's own. *)
Definition store {A : Type} (key : string) (value : A) (fields : list (string * A))
  : list (string * A) :=
  if String.eqb key "__proto__" then fields else assign key value fields.




(** The information necessary to execute an import. *)
Record ImportMap : Type := {
  resourceMap : list (string * Held);
  importResources : list ImportableResource;
}.



Inductive Event : Type :=
| IoInfo (msg : string)
| IoWarn (msg : string)
| Confirm (msg : string) (type : string) (props : Dict) (stringifiedProps : string)
| Prompt (msg : string) (name type idProp : string) (responseDescription : option string)
         (defaultValue : string)
| ReadJson (filename : string)
| GetResourceIdentifierSummaries.

Definition is_question (ev : Event) : bool :=
  match ev with
  | Confirm _ _ _ _ | Prompt _ _ _ _ _ _ => true
  | _ => false
  end.


Section Resolving.
(** The resource importer at hand, the colours of [chalk], [util.format]
    with one and with two arguments, and the host's answers to
    confirmations and to prompts. *)
Variable imp : ResourceImporter.
Variable blue yellow grey : string -> string.
Variable format1 : string -> string -> string.
Variable format2 : string -> string -> string -> string.
Variable confirm : list Event -> Outcome bool.
Variable prompt : list Event -> Outcome string.










(** The loop of [loadResourceIdentifiers] over the properties of the
    object read from the file. *)
Fixpoint loadAll (available : list ImportableResource)
    (contents : list (string * JSON)) (ret_ : ImportMap)
  : Async Event (ImportMap * list (string * JSON)) :=
  match available with
  | [] => ret (ret_, contents)
  | resource :: rest =>
      let descr := describeResource imp (logicalId resource) in
      match read contents (logicalId resource) with
      | Some idProps =>
          if truthy_held idProps
          then
            exec emit (IoInfo (format2 "%s: importing using %s" (blue descr)
                                       (blue (fmtdict (entries_held idProps)))));
            loadAll rest (remove (logicalId resource) contents)
                    {| resourceMap := store (logicalId resource) idProps (resourceMap ret_);
                       importResources := importResources ret_ ++ [resource] |}
          else
            exec emit (IoInfo (format1 "%s: skipping" (blue descr)));
            loadAll rest contents ret_
      | None =>
          exec emit (IoInfo (format1 "%s: skipping" (blue descr)));
          loadAll rest contents ret_
      end
  end.

(** [loadResourceIdentifiers]; the file is taken to hold an object, whose
    properties [readJson] delivers in the order [Object.keys] lists
    them. *)
Definition loadResourceIdentifiers (readJson : Outcome (list (string * JSON)))
    (available : list ImportableResource) (filename : string) : Async Event ImportMap :=
  do contents <- call (ReadJson filename) readJson;
  do '(ret_, contents') <- loadAll available contents
                                   {| resourceMap := []; importResources := [] |};
  let unknown := List.map fst contents' in
  exec (if (0 <? length unknown)%nat
        then emit (IoWarn ("Unrecognized resource identifiers in mapping file: "
                           +:+ join ", " unknown))
        else ret tt);
  ret ret_.
End Resolving.

Section Adding.
(** [deployments.readCurrentTemplate] *)
Variable readCurrentTemplate : Outcome Template.

(** [currentTemplateWithAdditions]: the additions are written into the
    memoised template itself.  They are resource changes of a template
    diff, which has none under [__proto__]. *)
Definition currentTemplateWithAdditions (imp : ResourceImporter)
    (additions : list ImportableResource)
  : Async Importer.Event (Template * ResourceImporter) :=
  do '(template, imp') <- currentTemplate readCurrentTemplate imp;
  let template' :=
    {| Resources :=
         Some (List.fold_left
                 (fun resources add =>
                    assign (logicalId add) (resourceDefinition add) resources)
                 additions (nullish (Resources template) [])) |} in
  ret (template', {| stackTemplate := stackTemplate imp';
                     _currentTemplate := Some template' |}).
End Adding.

(** ** Vocabulary *)



(** Reading the mapping file under the resource's id yields something
    truthy: a truthy value of the file, or, when the file has none under
    that name, a member every object inherits. *)
Definition wanted (contents : list (string * JSON)) (resource : ImportableResource) : bool :=
  match field (logicalId resource) contents with
  | Some idProps => truthy idProps
  | None => inherits (logicalId resource)
  end.


Definition is_info (ev : Event) : bool :=
  match ev with
  | IoInfo _ => true
  | _ => false
  end.




(** The warning about what is left of the mapping file, if anything. *)
Definition unrecognized (unknown : list string) : list Event :=
  match unknown with
  | [] => []
  | _ => [IoWarn ("Unrecognized resource identifiers in mapping file: "
                  +:+ join ", " unknown)]
  end.

(** The resource definition has a truthy [DeletionPolicy]. *)
Definition keeps_policy (definition : list (string * JSON)) : Prop :=
  exists policy, field "DeletionPolicy" definition = Some policy /\ truthy policy = true.

(** ** Concrete scenarios *)

Definition bucketResource : ImportableResource :=
  {| logicalId := "Bucket";
     resourceDiff := added "AWS::S3::Bucket";
     resourceDefinition := [ ("Type", JString "AWS::S3::Bucket");
                             ("Properties", JObject [ ("BucketName", JString "my-bucket");
                                                      ("Tags", JArray []) ]) ] |}.

Definition keyResource : ImportableResource :=
  {| logicalId := "Key";
     resourceDiff := added "AWS::Route53::KeySigningKey";
     resourceDefinition := [ ("Type", JString "AWS::Route53::KeySigningKey");
                             ("Properties", JObject [ ("Name", JString "signer") ]) ] |}.



(** Colours left out, and a [format] that puts its arguments after the
    pattern. *)
Definition plain (s : string) : string := s.
Definition demoFormat1 (pattern a : string) : string := pattern +:+ " " +:+ a.
Definition demoFormat2 (pattern a b : string) : string := pattern +:+ " " +:+ a +:+ " " +:+ b.

(** What [discoverImportableResources] finds when the bucket and the
    queue of [desiredTemplate] are new, and the template of their
    import into an empty stack. *)
Definition demoFound : DiscoverImportableResourcesResult :=
  {| additions :=
       [ {| logicalId := "Bucket";
            resourceDiff := added "AWS::S3::Bucket";
            resourceDefinition := [ ("Type", JString "AWS::S3::Bucket");
                                    ("DeletionPolicy", JString "Retain") ] |};
         {| logicalId := "Queue";
            resourceDiff := added "AWS::SQS::Queue";
            resourceDefinition := [ ("Type", JString "AWS::SQS::Queue");
                                    ("DeletionPolicy", JString "Delete") ] |} ];
     hasNonAdditions := false |}.

Definition importTemplate : Template :=
  {| Resources := Some (List.map (fun add => (logicalId add, resourceDefinition add))
                                 (additions demoFound)) |}.

Definition demoMapping : list (string * JSON) :=
  [ ("Bucket", JObject [ ("BucketName", JString "my-bucket") ]);
    ("Key", JNull);
    ("Ghost", JObject [ ("Name", JString "nobody") ]) ].

End ImportWorkflow.

(** * Helpers of the template diff ([cloudformation-diff], [util.ts]) *)
Module DiffUtil.
Import Importer.

(** [result.add(v)] on a [Set], its elements in insertion order. *)
Definition add (result : list string) (v : string) : list string :=
  if existsb (String.eqb v) result then result else result ++ [v].

(** [unionOf] *)
Definition unionOf (lv rv : list string) : list string :=
  List.fold_left add rv (List.fold_left add lv []).

Section Keyed.
(** The elements of the maps and of the result; a property may hold
    [undefined].  [member key] is the member every object inherits under
    [key], as a value the element diff may be handed. *)
Context {E T : Type}.
Variable elementDiff : option E -> option E -> string -> T.
Variable member : string -> E.

(** [m && m[key]]: the map's own property, or else the member every
    object inherits under the name. *)
Definition element (m : option (list (string * option E))) (key : string) : option E :=
  match m with
  | None => None
  | Some fields => match field key fields with
                   | Some v => v
                   | None => if ImportWorkflow.inherits key then Some (member key) else None
                   end
  end.

Definition keys_of (m : option (list (string * option E))) : list string :=
  match m with
  | None => []
  | Some fields => List.map fst fields
  end.

(** [diffKeyedEntities] *)
Definition diffKeyedEntities (oldValue newValue : option (list (string * option E)))
  : list (string * T) :=
  List.fold_left
    (fun result logicalId =>
       let oldElement := element oldValue logicalId in
       let newElement := element newValue logicalId in
       match oldElement, newElement with
       | None, None => result
       | _, _ => ImportWorkflow.store logicalId (elementDiff oldElement newElement logicalId)
                                      result
       end)
    (unionOf (keys_of oldValue) (keys_of newValue)) [].
End Keyed.

Section DependsOn.
(** [deepEqual], which [dependsOnEqual] calls on the elements. *)
Variable deepEqual : JSON -> JSON -> bool.

(** The two nested loops over arrays of the same length: the inner loop
    leaves at [break] after its first round. *)
Fixpoint compareElements (rvalue : list JSON) (length_ : nat) (remaining : list JSON) : bool :=
  match remaining with
  | [] => true
  | li :: rest =>
      match rvalue with
      | [] => compareElements rvalue length_ rest
      | r0 :: _ =>
          if negb (deepEqual li r0) && (0 =? Z.of_nat length_ - 1)%Z then false
          else compareElements rvalue length_ rest
      end
  end.

(** [dependsOnEqual] *)
Definition dependsOnEqual (lvalue rvalue : JSON) : bool :=
  match lvalue, rvalue with
  | JArray l, JArray r =>
      if negb (length l =? length r)%nat then false
      else compareElements r (length l) l
  | JArray array, nonArray | nonArray, JArray array =>
      match array with
      | [ only ] => deepEqual only nonArray
      | _ => false
      end
  | _, _ => false
  end.
End DependsOn.

(** A string as its UTF-16 code units. *)
Definition is_high_surrogate (u : N) : bool := ((55296 <=? u) && (u <=? 56319))%N.
Definition is_low_surrogate (u : N) : bool := ((56320 <=? u) && (u <=? 57343))%N.

(** [mangleLikeCloudFormation]: with the [u] flag the pattern runs over
    code points, so a surrogate pair is one match and a lone surrogate
    is one too. *)
Fixpoint mangleLikeCloudFormation (payload : list N) : list N :=
  match payload with
  | [] => []
  | u :: rest =>
      if (u <? 128)%N then u :: mangleLikeCloudFormation rest
      else if is_high_surrogate u
      then match rest with
           | l :: rest' =>
               if is_low_surrogate l then 63%N :: mangleLikeCloudFormation rest'
               else 63%N :: mangleLikeCloudFormation rest
           | [] => [63%N]
           end
      else 63%N :: mangleLikeCloudFormation rest
  end.

(** Text of code units below 128 only. *)
Definition ascii_units (payload : list N) : Prop := Forall (fun u => (u < 128)%N) payload.

End DiffUtil.

(** * Vocabulary of the parameter resolution *)
Module ParametersVocabulary.
Import Parameters.

(** The value in force for a declared parameter: the override, else the
    previous value, else the default. *)
Definition in_force (updates : list (string * option string))
    (previousValues : gmap string string) (key : string) (p : TemplateParameter)
  : option string :=
  match supplied updates key with
  | Some value => Some value
  | None =>
      match previousValues !! key with
      | Some previous => Some previous
      | None => Default p
      end
  end.

(** What is sent for a declared parameter. *)
Definition entry (updates : list (string * option string))
    (previousValues : gmap string string) (key : string) : list ApiParameter :=
  match supplied updates key with
  | Some value => [ParameterValue key value]
  | None =>
      match previousValues !! key with
      | Some _ => [UsePreviousValue key]
      | None => []
      end
  end.

(** The entries of an outgoing set that are about one parameter. *)
Definition about (key : string) (api : list ApiParameter) : list ApiParameter :=
  List.filter (fun a => String.eqb (ParameterKey a) key) api.

End ParametersVocabulary.

(** * Vocabulary of the import diff *)
Module ImporterVocabulary.
Import Importer.

(** The stack's template records [path] as the construct path of the
    resource: under [Resources], the resource's [Metadata] is an object
    that holds [path] under ['aws:cdk:path']. *)
Definition recorded_path (template : option Template) (logicalId : string) (path : JSON)
  : Prop :=
  exists t resources resource metadata,
    template = Some t
    /\ Resources t = Some resources
    /\ field logicalId resources = Some resource
    /\ field "Metadata" resource = Some (JObject metadata)
    /\ field "aws:cdk:path" metadata = Some path
    /\ path <> JNull.

(** What a message calls a resource: its construct path when the
    template records one, its logical id otherwise. *)
Definition names_resource (template : option Template) (logicalId name : string) : Prop :=
  (exists path, recorded_path template logicalId path /\ name = js_string path)
  \/ ((forall path, ~ recorded_path template logicalId path) /\ name = logicalId).

End ImporterVocabulary.

(** * Vocabulary for further properties *)
Module AssetsVocabulary.
Import Assets.

(** The source hash under which an asset is filed, when its packaging is
    known. *)
Definition assetSourceHash (asset : AssetMetadataEntry) : option string :=
  match asset with
  | FileAsset a => Some (f_sourceHash a)
  | ContainerImageAsset a => Some (c_sourceHash a)
  | UnknownAsset _ _ => None
  end.

(** [reuse.indexOf(asset.id) > -1] *)
Definition reused (reuse : list string) (asset : AssetMetadataEntry) : bool :=
  existsb (String.eqb (assetId asset)) reuse.

(** The character is none of those the asset id is cleared of for the
    default repository name: colon and slash. *)
Definition clear_of_separators (c : ascii) : bool :=
  negb (Ascii.eqb c ":") && negb (Ascii.eqb c "/").

Fixpoint forall_chars (P : ascii -> bool) (s : string) : bool :=
  match s with
  | EmptyString => true
  | String c rest => P c && forall_chars P rest
  end.

Definition invalid_docker_message : string :=
  "Invalid Docker image asset configuration: "
  +:+ quoted "repositoryName" +:+ " and " +:+ quoted "imageTag"
  +:+ " are required when " +:+ quoted "imageNameParameter"
  +:+ " is left out".

Definition demoImageAsset (id : string) (name repo tag : option string)
  : ContainerImageAssetMetadataEntry :=
  {| c_id := id;
     c_path := "asset.def456";
     c_sourceHash := "def456";
     imageNameParameter := name;
     repositoryName := repo;
     imageTag := tag;
     buildArgs := None;
     target := None;
     dockerFile := None |}.

End AssetsVocabulary.

Module DeploymentsVocabulary.
Import Deployments.

(** [m] can resolve to [x]. *)
Definition returns {Ev A : Type} (m : Async Ev A) (x : A) : Prop :=
  exists log log', m log = (Resolved x, log').

(** [m] only adds to the log, and every entry it adds satisfies [P]. *)
Definition appends {Ev A : Type} (P : Ev -> Prop) (m : Async Ev A) : Prop :=
  forall log, exists added, snd (m log) = log ++ added /\ Forall P added.

Definition is_version_check (ev : Event) : bool :=
  match ev with
  | ValidateVersion _ _ => true
  | _ => false
  end.

(** The requests to continue an update rollback found in a log. *)
Definition continueRequests (log : list Event) : list ContinueUpdateRollbackInput :=
  List.flat_map (fun ev => match ev with
                           | CfnContinueUpdateRollback input => [input]
                           | _ => []
                           end) log.

(** The requests to start a rollback found in a log. *)
Definition rollbackRequests (log : list Event) : list RollbackStackInput :=
  List.flat_map (fun ev => match ev with
                           | CfnRollbackStack input => [input]
                           | _ => []
                           end) log.

(** What a request to continue an update rollback must carry: the name
    of the stack and, as resources to skip, the failed top-level resources
    of some poll of the events under automatic orphaning, the caller's
    list otherwise. *)
Definition skip_request_ok (w : World) (options : RollbackStackOptions)
    (input : ContinueUpdateRollbackInput) : Prop :=
  cur_StackName input = stackName (rs_stack options)
  /\ (nullish (orphanFailedResources options) false = true ->
      exists i errors,
        w_poll w i = Resolved errors
        /\ cur_ResourcesToSkip input = failedTopLevelResources errors)
  /\ (nullish (orphanFailedResources options) false = false ->
      cur_ResourcesToSkip input = nullish (orphanLogicalIds options) []).

Definition request_ok (w : World) (options : RollbackStackOptions) (ev : Event) : Prop :=
  match ev with
  | CfnContinueUpdateRollback input => skip_request_ok w options input
  | _ => True
  end.

(** Every publisher of [d] is still a publisher of [d'], built from the
    same manifest for the same environment with the same prefix, and with
    its failures still recorded. *)
Definition publishers_kept (d d' : Instance) : Prop :=
  forall p x, publishers d !! p = Some x ->
    exists x', publishers d' !! p = Some x'
               /\ pub_manifest x' = pub_manifest x
               /\ pub_env x' = pub_env x
               /\ pub_prefix x' = pub_prefix x
               /\ (hasFailures x = true -> hasFailures x' = true).

(** The publisher filed under a manifest was built from that manifest. *)
Definition cache_built_from (d : Instance) : Prop :=
  forall r p, publisherCache d !! r = Some p ->
    exists x, publishers d !! p = Some x /\ manifestRef (pub_manifest x) = r.

(** What one step leaves in order: the cache invariant, the link between
    cache and publishers, the publishers themselves and the memoised
    flag. *)
Definition step_ok (d d' : Instance) : Prop :=
  (cache_ok d -> cache_built_from d -> cache_built_from d')
  /\ publishers_kept d d'
  /\ (forall b, _allowCrossAccountAssetPublishing d = Some b ->
                _allowCrossAccountAssetPublishing d' = Some b).

(** The role the coordinator resolves placeholders in: the one of the
    options, or else the one of the stack. *)
Definition requestedRole (options : RollbackStackOptions) : option string :=
  nullish_opt (rs_roleArn options) (cloudFormationExecutionRoleArn (rs_stack options)).

(** A world in which waiting for the stack to stabilise fails. *)
Definition failingWorld (choice : RollbackChoice) : World :=
  {| w_accessStack := Resolved tt;
     w_validateVersion := fun _ _ => Resolved tt;
     w_replacePlaceholders := fun _ role => Resolved role;
     w_deployStack := fun _ => Resolved DidDeployStack;
     w_lookup := fun _ => Resolved (stackIn choice);
     w_randomUUID := fun _ => "token";
     w_rollbackStack := fun _ => Resolved tt;
     w_poll := fun _ =>
       Resolved [ {| isStackEvent := false; parentStackLogicalIds := [];
                     LogicalResourceId := Some "Bucket" |};
                  {| isStackEvent := false; parentStackLogicalIds := [ "Nested" ];
                     LogicalResourceId := Some "Inner" |};
                  {| isStackEvent := true; parentStackLogicalIds := [];
                     LogicalResourceId := Some "Demo" |} ];
     w_continueUpdateRollback := fun _ _ => Resolved tt;
     w_monitorStart := fun _ => Resolved tt;
     w_stabilizeStack := fun _ => Rejected (ForeignError "stack went into ROLLBACK_FAILED");
     w_monitorErrors := fun _ => [ "Bucket is not empty" ];
     w_monitorStop := fun _ => Resolved tt;
     w_formatErrorMessage := error_message |}.

(** A world whose bootstrap stack is too old. *)
Definition outdatedWorld : World :=
  {| w_accessStack := Resolved tt;
     w_validateVersion := fun _ _ => Rejected (ForeignError "bootstrap stack version 6 is too old");
     w_replacePlaceholders := fun _ role => Resolved role;
     w_deployStack := fun _ => Resolved DidDeployStack;
     w_lookup := fun _ => Resolved (stackIn START_ROLLBACK);
     w_randomUUID := fun _ => "token";
     w_rollbackStack := fun _ => Resolved tt;
     w_poll := fun _ => Resolved [];
     w_continueUpdateRollback := fun _ _ => Resolved tt;
     w_monitorStart := fun _ => Resolved tt;
     w_stabilizeStack := fun _ => Resolved (Some (stackIn NONE));
     w_monitorErrors := fun _ => [];
     w_monitorStop := fun _ => Resolved tt;
     w_formatErrorMessage := error_message |}.

End DeploymentsVocabulary.

(* ===================================================================== *)
(** * Properties *)
(* ===================================================================== *)

(** ** Generic facts about the log *)
Section LogFacts.
Import Deployments.

Lemma mutating_calls_app (l1 l2 : list Event) :
  mutating_calls (l1 ++ l2) = (mutating_calls l1 + mutating_calls l2)%nat.
Proof.
  unfold mutating_calls. rewrite List.filter_app, List.length_app. reflexivity.
Qed.

Lemma adds_weaken {A} (m : Async Event A) (j k : nat) :
  (j <= k)%nat -> adds_at_most j m -> adds_at_most k m.
Proof. intros Hjk Hm log. specialize (Hm log). lia. Qed.

Lemma adds_ret {A} (a : A) : adds_at_most 0 (ret a).
Proof. intros log. unfold ret, throw, settle. cbn [snd]. lia. Qed.

Lemma adds_throw {A} (e : Error) : adds_at_most 0 (@throw Event A e).
Proof. intros log. unfold ret, throw, settle. cbn [snd]. lia. Qed.

Lemma adds_settle {A} (o : Outcome A) : adds_at_most 0 (@settle Event A o).
Proof. intros log. unfold ret, throw, settle. cbn [snd]. lia. Qed.

Lemma adds_emit (ev : Event) :
  adds_at_most (if is_mutating ev then 1 else 0) (emit ev).
Proof.
  intros log. unfold emit. cbn [snd]. rewrite mutating_calls_app.
  assert (mutating_calls [ev] = if is_mutating ev then 1%nat else 0%nat) as ->
    by (unfold mutating_calls; cbn; destruct (is_mutating ev); reflexivity).
  lia.
Qed.

Lemma adds_call {A} (ev : Event) (answer : Outcome A) :
  adds_at_most (if is_mutating ev then 1 else 0) (call ev answer).
Proof.
  intros log. unfold call. cbn [snd]. rewrite mutating_calls_app.
  assert (mutating_calls [ev] = if is_mutating ev then 1%nat else 0%nat) as ->
    by (unfold mutating_calls; cbn; destruct (is_mutating ev); reflexivity).
  lia.
Qed.

Lemma adds_bind {A B} (m : Async Event A) (k : A -> Async Event B) (a b : nat) :
  adds_at_most a m -> (forall x, adds_at_most b (k x)) -> adds_at_most (a + b) (bind m k).
Proof.
  intros Hm Hk log. unfold bind. specialize (Hm log).
  destruct (m log) as [[x | e] log']; cbn [snd] in *.
  - specialize (Hk x log'). lia.
  - lia.
Qed.

Lemma adds_try_catch {A} (body : Async Event A) (handler : Error -> Async Event A)
    (a b : nat) :
  adds_at_most a body -> (forall e, adds_at_most b (handler e)) ->
  adds_at_most (a + b) (try_catch body handler).
Proof.
  intros Hm Hk log. unfold try_catch. specialize (Hm log).
  destruct (body log) as [[x | e] log']; cbn [snd] in *.
  - lia.
  - specialize (Hk e log'). lia.
Qed.

Lemma adds_try_finally {A} (body : Async Event A) (cleanup : Async Event unit)
    (a b : nat) :
  adds_at_most a body -> adds_at_most b cleanup ->
  adds_at_most (a + b) (try_finally body cleanup).
Proof.
  intros Hm Hc log. unfold try_finally. specialize (Hm log).
  destruct (body log) as [r log']. specialize (Hc log').
  destruct (cleanup log') as [[u | e] log'']; cbn [snd] in *; lia.
Qed.

End LogFacts.

(** ** The rollback loop *)
Section RollbackFacts.
Import Deployments.
Variable w : World.

Lemma adds_bind_l0 {A B} (m : Async Event A) (k : A -> Async Event B) (b : nat) :
  adds_at_most 0 m -> (forall x, adds_at_most b (k x)) -> adds_at_most b (bind m k).
Proof. intros Hm Hk. apply (adds_bind m k 0 b); assumption. Qed.

Lemma adds_bind_r0 {A B} (m : Async Event A) (k : A -> Async Event B) (a : nat) :
  adds_at_most a m -> (forall x, adds_at_most 0 (k x)) -> adds_at_most a (bind m k).
Proof.
  intros Hm Hk. eapply adds_weaken; [ | apply (adds_bind m k a 0); eassumption ]. lia.
Qed.

Lemma adds_try_catch_r0 {A} (body : Async Event A) (handler : Error -> Async Event A)
    (a : nat) :
  adds_at_most a body -> (forall e, adds_at_most 0 (handler e)) ->
  adds_at_most a (try_catch body handler).
Proof.
  intros Hm Hk. eapply adds_weaken; [ | apply (adds_try_catch body handler a 0); eassumption ].
  lia.
Qed.

Lemma adds_try_finally_r0 {A} (body : Async Event A) (cleanup : Async Event unit)
    (a : nat) :
  adds_at_most a body -> adds_at_most 0 cleanup ->
  adds_at_most a (try_finally body cleanup).
Proof.
  intros Hm Hk. eapply adds_weaken; [ | apply (adds_try_finally body cleanup a 0); eassumption ].
  lia.
Qed.

(** Bound the state-changing calls of a computation by following its
    structure; at a sequence the budget goes to one side only. *)
Ltac adds :=
  cbv zeta;
  lazymatch goal with
  | |- adds_at_most _ (bind _ _) =>
      first [ apply adds_bind_l0; [ solve [adds] | intros; adds ]
            | apply adds_bind_r0; [ adds | intros; solve [adds] ] ]
  | |- adds_at_most _ (ret _) => eapply adds_weaken; [ | apply adds_ret ]; lia
  | |- adds_at_most _ (throw _) => eapply adds_weaken; [ | apply adds_throw ]; lia
  | |- adds_at_most _ (settle _) => eapply adds_weaken; [ | apply adds_settle ]; lia
  | |- adds_at_most _ (emit _) => eapply adds_weaken; [ | apply adds_emit ]; cbn; lia
  | |- adds_at_most _ (call _ _) => eapply adds_weaken; [ | apply adds_call ]; cbn; lia
  | |- adds_at_most _ (try_catch _ _) =>
      apply adds_try_catch_r0; [ adds | intros; adds ]
  | |- adds_at_most _ (try_finally _ _) =>
      apply adds_try_finally_r0; adds
  | |- adds_at_most _ (if ?c then _ else _) => destruct c; adds
  | |- adds_at_most _ (match ?x with _ => _ end) => destruct x; adds
  end.

Lemma validate_adds name requires ssm :
  adds_at_most 0 (validateBootstrapStackVersion w name requires ssm).
Proof. unfold validateBootstrapStackVersion. adds. Qed.

Lemma switch_adds options i skip stack role :
  adds_at_most 1 (rollbackSwitch w options i skip stack role).
Proof. unfold rollbackSwitch. adds. Qed.

Lemma stabilization_adds options i stack :
  adds_at_most 0 (awaitStabilization w options i stack).
Proof. unfold awaitStabilization. adds. Qed.

Lemma iteration_adds options i skip :
  adds_at_most 1 (rollbackIteration w options i skip).
Proof.
  unfold rollbackIteration. cbv zeta.
  apply adds_bind_l0; [ adds | intros stack ].
  apply adds_bind_l0; [ adds | intros role ].
  apply adds_bind_r0; [ apply switch_adds | intros [r | skip'] ]; [ adds | ].
  apply adds_bind_l0; [ adds | intros _ ].
  apply adds_bind_l0; [ apply stabilization_adds | intros [msg final] ].
  adds.
Qed.

Lemma loop_adds options maxLoops i skip :
  adds_at_most maxLoops (rollbackLoop w options maxLoops i skip).
Proof.
  revert i skip. induction maxLoops as [ | n IH ]; intros i skip; cbn [rollbackLoop].
  - adds.
  - change (S n) with (1 + n)%nat. apply adds_bind; [ apply iteration_adds | ].
    intros [r | skip']; [ adds | apply IH ].
Qed.

Lemma rollbackStack_adds options : adds_at_most 10 (rollbackStack w options).
Proof.
  unfold rollbackStack. cbv zeta.
  destruct (_ && _); [ adds | ].
  apply adds_bind_l0; [ adds | intros _ ].
  apply adds_bind_l0; [ | intros _; apply loop_adds ].
  destruct (nullish _ true); [ apply validate_adds | adds ].
Qed.

(** When every iteration the loop can still make ends in [continue], the
    loop runs out of its budget and throws. *)
Lemma loop_exhausted options maxLoops : forall i skip log,
  (forall j skip' log', (i <= j < i + maxLoops)%nat ->
     exists skip'', fst (rollbackIteration w options j skip' log') = Resolved (Continue skip'')) ->
  fst (rollbackLoop w options maxLoops i skip log) = Rejected (ToolkitError no_progress_message).
Proof.
  induction maxLoops as [ | n IH ]; intros i skip log Hcont; cbn [rollbackLoop].
  - reflexivity.
  - unfold bind at 1.
    destruct (Hcont i skip log ltac:(lia)) as [skip'' Hi].
    destruct (rollbackIteration w options i skip log) as [out log'].
    cbn [fst] in Hi. subst out.
    apply IH. intros j skip' log'' Hj. apply Hcont. lia.
Qed.

(** An iteration ends in [continue] only when the caller has asked for
    automatic orphaning. *)
Lemma continue_needs_orphaning options i skip skip' log :
  fst (rollbackIteration w options i skip log) = Resolved (Continue skip') ->
  nullish (orphanFailedResources options) false = true.
Proof.
  unfold rollbackIteration, rollbackSwitch, awaitStabilization.
  unfold bind, call, emit, ret, throw, try_finally, try_catch. cbv zeta.
  destruct (nullish (orphanFailedResources options) false); [ reflexivity | ].
  repeat first
    [ rewrite andb_false_r
    | match goal with
      | |- context [match ?x with _ => _ end] => destruct x; cbn [fst snd]
      end ];
    discriminate.
Qed.

(** Under [enters_loop] the function is its loop, run after the two calls
    that precede it. *)
Lemma rollbackStack_enters options :
  enters_loop w options ->
  exists log0,
    mutating_calls log0 = 0%nat /\
    run (rollbackStack w options)
    = rollbackLoop w options 10 0 (nullish (orphanLogicalIds options) []) log0.
Proof.
  intros (Hvalid & Haccess & Hversion).
  unfold run, rollbackStack. cbv zeta. rewrite Hvalid.
  unfold bind at 1. unfold call at 1. rewrite Haccess.
  unfold bind at 1.
  destruct (nullish (validateBootstrapStackVersionFlag options) true) eqn:Hflag.
  - unfold validateBootstrapStackVersion, try_catch, call.
    rewrite (Hversion eq_refl). eexists; split; [ | reflexivity ]. reflexivity.
  - unfold ret. eexists; split; [ | reflexivity ]. reflexivity.
Qed.

End RollbackFacts.

Section RollbackClaims.
Import Deployments.

Lemma last_char_append (s t : string) :
  t <> "" -> last_char (s +:+ t) = last_char t.
Proof.
  intros Ht. induction s as [ | c s IH ]; [ reflexivity | ].
  change (String c s +:+ t) with (String c (s +:+ t)).
  cbn [last_char]. destruct (s +:+ t) eqn:Hst.
  - destruct s; [ | discriminate ]. change ("" +:+ t) with t in Hst. contradiction.
  - exact IH.
Qed.

(** The message of the terminal failure cannot be mistaken for the one
    raised when the loop runs out of iterations: the latter ends in a full
    stop, the former in a closing bracket. *)
Lemma recourse_is_not_no_progress (msg : string) :
  msg +:+ recourse_suffix <> no_progress_message.
Proof.
  intros H. apply (f_equal last_char) in H.
  rewrite last_char_append in H by discriminate.
  vm_compute in H. discriminate.
Qed.

(** C2: whatever the options and whatever the collaborators answer, one
    invocation of [rollbackStack] issues at most 10 state-changing calls
    (rollbackStack / continueUpdateRollback), at most one in each iteration
    of its loop; and when the loop is entered and each of the 10 iterations
    ends in [continue], the invocation does not return: it rejects with the
    "no progress" error, whose message differs from the messages of the
    validation error and of the terminal failure. *)
Theorem rollback_loop_budget (w : World) (options : RollbackStackOptions) :
  (mutating_calls (snd (run (rollbackStack w options))) <= 10)%nat
  /\ (forall i skip log,
        (mutating_calls (snd (rollbackIteration w options i skip log))
         <= mutating_calls log + 1)%nat)
  /\ (enters_loop w options ->
      (forall i skip log, (i < 10)%nat ->
         exists skip',
           fst (rollbackIteration w options i skip log) = Resolved (Continue skip')) ->
      fst (run (rollbackStack w options)) = Rejected (ToolkitError no_progress_message))
  /\ no_progress_message <> cannot_combine_message
  /\ (forall msg, msg +:+ recourse_suffix <> no_progress_message).
Proof.
  split; [ | split; [ | split; [ | split ] ] ].
  - apply (rollbackStack_adds w options []).
  - intros i skip log. apply iteration_adds.
  - intros Henter Hcont.
    destruct (rollbackStack_enters w options Henter) as (log0 & _ & ->).
    apply loop_exhausted. intros j skip' log' Hj. apply Hcont. lia.
  - discriminate.
  - apply recourse_is_not_no_progress.
Qed.

(** A stack that stays in need of a continued rollback, with the caller
    asking for automatic orphaning: all ten iterations are used up. *)
Lemma rollback_loop_budget_witness :
  fst (run (rollbackStack (scriptedWorld (fun _ => CONTINUE_UPDATE_ROLLBACK) ["boom"])
                          (rollbackOptions (Some true) None)))
  = Rejected (ToolkitError no_progress_message).
Proof.
  apply (proj1 (proj2 (proj2
    (rollback_loop_budget (scriptedWorld (fun _ => CONTINUE_UPDATE_ROLLBACK) ["boom"])
                          (rollbackOptions (Some true) None))))).
  - repeat split.
  - intros i skip log _. eexists. vm_compute. reflexivity.
Defined.

(** One iteration whose [switch] sees NONE or ROLLBACK_FAILED: the
    iteration ends the loop with the result, after a warning and without
    any further call. *)
Lemma iteration_not_rollbackable (w : World) (options : RollbackStackOptions)
    (stack : CloudFormationStack) (n i : nat) (skip : list string) (log : list Event) :
  rollbackChoice (stackStatus stack) = NONE
  \/ rollbackChoice (stackStatus stack) = ROLLBACK_FAILED ->
  observes w options i stack ->
  exists log',
    rollbackLoop w options (S n) i skip log
    = (Resolved (NotInRollbackableState (stackId stack)), log')
    /\ mutating_calls log' = mutating_calls log.
Proof.
  intros Hchoice (Hlookup & role & Hrole).
  cbn [rollbackLoop]. unfold rollbackIteration, rollbackSwitch. cbv zeta.
  unfold bind, call. rewrite Hlookup, Hrole.
  destruct Hchoice as [-> | ->]; unfold emit, ret;
    (eexists; split; [ reflexivity | ]);
    rewrite !mutating_calls_app; unfold mutating_calls; cbn; lia.
Qed.

(** C3 (as amended): when the [switch] of an iteration sees a stack whose
    rollback choice is NONE or ROLLBACK_FAILED, [rollbackStack] returns at
    once a result with [notInRollbackableState = true] and issues no
    state-changing call from that observation on; when this is the first
    status observed, no state-changing call is issued in the invocation. *)
Theorem rollback_not_rollbackable (w : World) (options : RollbackStackOptions)
    (stack : CloudFormationStack) :
  rollbackChoice (stackStatus stack) = NONE
  \/ rollbackChoice (stackStatus stack) = ROLLBACK_FAILED ->
  (forall n i skip log,
      observes w options i stack ->
      exists log',
        rollbackLoop w options (S n) i skip log
        = (Resolved (NotInRollbackableState (stackId stack)), log')
        /\ notInRollbackableState (NotInRollbackableState (stackId stack)) = true
        /\ mutating_calls log' = mutating_calls log)
  /\ (enters_loop w options ->
      observes w options 0 stack ->
      exists log,
        run (rollbackStack w options)
        = (Resolved (NotInRollbackableState (stackId stack)), log)
        /\ mutating_calls log = 0%nat).
Proof.
  intros Hchoice. split.
  - intros n i skip log Hobs.
    destruct (iteration_not_rollbackable w options stack n i skip log Hchoice Hobs)
      as (log' & Hrun & Hcount).
    exists log'. repeat split; assumption.
  - intros Henter Hobs.
    destruct (rollbackStack_enters w options Henter) as (log0 & Hzero & ->).
    destruct (iteration_not_rollbackable w options stack 9 0
                (nullish (orphanLogicalIds options) []) log0 Hchoice Hobs)
      as (log' & Hrun & Hcount).
    exists log'. split; [ exact Hrun | lia ].
Qed.

Lemma rollback_not_rollbackable_witness :
  exists log,
    run (rollbackStack (scriptedWorld (fun _ => NONE) []) (rollbackOptions None None))
    = (Resolved (NotInRollbackableState "arn:demo"), log)
    /\ mutating_calls log = 0%nat.
Proof.
  apply (proj2 (rollback_not_rollbackable
                  (scriptedWorld (fun _ => NONE) []) (rollbackOptions None None)
                  (stackIn NONE) (or_introl eq_refl))).
  - repeat split.
  - split; [ reflexivity | eexists; reflexivity ].
Defined.

(** C3 as stated fails: with automatic orphaning, a first iteration that
    continues the update rollback and leaves the stack in the same state
    is followed by a second one; when that one observes NONE the result
    has [notInRollbackableState = true], yet the invocation has issued one
    state-changing call. *)
Lemma rollback_not_rollbackable_counterexample :
  let w := scriptedWorld (fun i => if (i =? 0)%nat then CONTINUE_UPDATE_ROLLBACK else NONE)
                         ["boom"] in
  let options := rollbackOptions (Some true) None in
  observes w options 1 (stackIn NONE)
  /\ fst (run (rollbackStack w options)) = Resolved (NotInRollbackableState "arn:demo")
  /\ mutating_calls (snd (run (rollbackStack w options))) = 1%nat.
Proof.
  cbv zeta. split; [ | split ].
  - split; [ reflexivity | eexists; reflexivity ].
  - vm_compute. reflexivity.
  - vm_compute. reflexivity.
Qed.

(** C4 (as amended): an invocation of [rollbackStack] that asks for
    automatic orphaning and also names at least one logical id to orphan
    is rejected with "Cannot combine --force with --orphan", and the log
    of calls is still empty then: the error precedes every call,
    state-changing or not.  The guard tests the length of the list, so a
    list that names no id is no list. *)
Theorem rollback_force_with_orphan (w : World) (options : RollbackStackOptions)
    (ids : list string) :
  orphanFailedResources options = Some true ->
  orphanLogicalIds options = Some ids ->
  ids <> [] ->
  run (rollbackStack w options) = (Rejected (ToolkitError cannot_combine_message), [])
  /\ mutating_calls (snd (run (rollbackStack w options))) = 0%nat.
Proof.
  intros Hforce Hids Hne.
  assert (run (rollbackStack w options)
          = (Rejected (ToolkitError cannot_combine_message), [])) as Hrun.
  { unfold run, rollbackStack. cbv zeta. rewrite Hforce, Hids. cbn [nullish].
    destruct ids as [ | id rest ]; [ congruence | reflexivity ]. }
  split; [ exact Hrun | rewrite Hrun; reflexivity ].
Qed.

Lemma rollback_force_with_orphan_witness :
  run (rollbackStack (scriptedWorld (fun _ => START_ROLLBACK) [])
                     (rollbackOptions (Some true) (Some ["Bucket"])))
  = (Rejected (ToolkitError cannot_combine_message), []).
Proof.
  apply (proj1 (rollback_force_with_orphan
                  (scriptedWorld (fun _ => START_ROLLBACK) [])
                  (rollbackOptions (Some true) (Some ["Bucket"])) ["Bucket"]
                  eq_refl eq_refl ltac:(discriminate))).
Defined.

(** C4 as stated fails: the flag together with a list that is supplied
    but names no id is not refused; the rollback is requested and the
    invocation succeeds. *)
Lemma rollback_force_with_orphan_counterexample :
  let w := scriptedWorld (fun _ => START_ROLLBACK) [] in
  let options := rollbackOptions (Some true) (Some []) in
  orphanFailedResources options = Some true
  /\ orphanLogicalIds options = Some []
  /\ fst (run (rollbackStack w options)) = Resolved (Success "arn:demo")
  /\ mutating_calls (snd (run (rollbackStack w options))) = 1%nat.
Proof.
  cbv zeta. split; [ reflexivity | ]. split; [ reflexivity | ].
  split; vm_compute; reflexivity.
Qed.

(** The boundary of C4: an empty list of ids is the same as no list. *)
Lemma rollback_force_with_empty_orphan_list (w : World) (options : RollbackStackOptions) :
  orphanLogicalIds options = Some [] ->
  run (rollbackStack w options)
  = run (rollbackStack w {| rs_stack := rs_stack options;
                            rs_roleArn := rs_roleArn options;
                            orphanFailedResources := orphanFailedResources options;
                            orphanLogicalIds := None;
                            validateBootstrapStackVersionFlag :=
                              validateBootstrapStackVersionFlag options |}).
Proof.
  intros Hids. unfold run, rollbackStack. cbn. rewrite Hids. reflexivity.
Qed.

End RollbackClaims.

(** ** Legacy options of [deployStack] *)
Section DeployClaims.
Import Deployments.

Lemma resolveDeploymentMethod_legacy (options : DeployStackOptions) :
  truthy_opt_string (ds_changeSetName options) = true \/ ds_execute options <> None ->
  resolveDeploymentMethod options
  = match ds_deploymentMethod options with
    | Some _ => Rejected (ToolkitError both_supplied_message)
    | None => Resolved (Some {| method := "change-set";
                                dm_changeSetName := ds_changeSetName options;
                                dm_execute := ds_execute options |})
    end.
Proof.
  intros Hlegacy. unfold resolveDeploymentMethod. cbv zeta.
  destruct Hlegacy as [-> | Hexe]; [ reflexivity | ].
  rewrite (bool_decide_eq_true_2 _ Hexe), orb_true_r. reflexivity.
Qed.

(** Every call of the deploy function carries the method that the first
    statement of [deployStack] has resolved. *)
Lemma deployStack_call_method (w : World) (options : DeployStackOptions)
    (dm : option DeploymentMethod) (args : DeployStackArgs) :
  resolveDeploymentMethod options = Resolved dm ->
  List.In (DeployStackCall args) (snd (run (deployStack w options))) ->
  a_deploymentMethod args = dm.
Proof.
  intros Hdm. unfold run, deployStack, validateBootstrapStackVersion.
  unfold bind, settle, call, try_catch, throw. rewrite Hdm. cbv zeta.
  destruct (w_accessStack w); cbn;
    [ | intros H; repeat (destruct H as [H | H]; [ discriminate H | ]); contradiction ].
  destruct (w_validateVersion w _ _); cbn;
    [ | intros H; repeat (destruct H as [H | H]; [ discriminate H | ]); contradiction ].
  destruct (w_replacePlaceholders w 0 _); cbn;
    intros H; repeat (destruct H as [H | H]; [ try discriminate H | ]); try contradiction.
  injection H as <-. reflexivity.
Qed.

(** C9 (as amended): an invocation of [deployStack] that supplies
    [deploymentMethod] together with a non-empty [changeSetName] or with
    [execute] (true or false) is rejected with the ToolkitError "You cannot
    supply both 'deploymentMethod' and 'changeSetName/execute'..." while the
    log of calls is still empty, so before any environment access or remote
    call; when [deploymentMethod] is absent and a non-empty [changeSetName]
    or [execute] is supplied, the method becomes a change-set method that
    carries the given change-set name and execute flag, and that is the
    method every call of the deploy function receives. *)
Theorem deployStack_legacy_options (w : World) (options : DeployStackOptions) :
  truthy_opt_string (ds_changeSetName options) = true \/ ds_execute options <> None ->
  (forall dm, ds_deploymentMethod options = Some dm ->
      run (deployStack w options) = (Rejected (ToolkitError both_supplied_message), []))
  /\ (ds_deploymentMethod options = None ->
      let translated := {| method := "change-set";
                           dm_changeSetName := ds_changeSetName options;
                           dm_execute := ds_execute options |} in
      resolveDeploymentMethod options = Resolved (Some translated)
      /\ forall args,
           List.In (DeployStackCall args) (snd (run (deployStack w options))) ->
           a_deploymentMethod args = Some translated).
Proof.
  intros Hlegacy. pose proof (resolveDeploymentMethod_legacy options Hlegacy) as Hres.
  split.
  - intros dm Hdm. rewrite Hdm in Hres.
    unfold run, deployStack, bind, settle. rewrite Hres. reflexivity.
  - intros Hnone. cbv zeta. rewrite Hnone in Hres. split; [ exact Hres | ].
    intros args. apply deployStack_call_method. exact Hres.
Qed.

Lemma deployStack_legacy_options_witness :
  run (deployStack (scriptedWorld (fun _ => NONE) [])
                   (deployOptions (Some directMethod) (Some "my-change-set") None))
  = (Rejected (ToolkitError both_supplied_message), [])
  /\ run (deployStack (scriptedWorld (fun _ => NONE) [])
                      (deployOptions (Some directMethod) None (Some false)))
     = (Rejected (ToolkitError both_supplied_message), []).
Proof.
  split.
  - apply (proj1 (deployStack_legacy_options
                    (scriptedWorld (fun _ => NONE) [])
                    (deployOptions (Some directMethod) (Some "my-change-set") None)
                    (or_introl eq_refl)) directMethod eq_refl).
  - assert (Some false <> @None bool) as Hexe by discriminate.
    exact (proj1 (deployStack_legacy_options
                    (scriptedWorld (fun _ => NONE) [])
                    (deployOptions (Some directMethod) None (Some false))
                    (or_intror Hexe)) directMethod eq_refl).
Defined.

(** The translation of the legacy options reaches the deploy function. *)
Example deployStack_translates_legacy :
  run (deployStack (scriptedWorld (fun _ => NONE) [])
                   (deployOptions None (Some "my-change-set") (Some false)))
  = (Resolved DidDeployStack,
     [ AccessStackForMutableStackOperations "Demo";
       ValidateVersion None None;
       ReplacePlaceholders None;
       DeployStackCall {| a_stack := demoArtifact;
                          a_roleArn := None;
                          a_deploymentMethod :=
                            Some {| method := "change-set";
                                    dm_changeSetName := Some "my-change-set";
                                    dm_execute := Some false |};
                          a_rest := noPassThrough |} ]).
Proof. reflexivity. Qed.

(** C9 as stated fails: [changeSetName] supplied as the empty string next
    to [deploymentMethod] is not rejected; the deployment goes ahead with
    the given method. *)
Lemma deployStack_legacy_options_counterexample :
  let options := deployOptions (Some directMethod) (Some "") None in
  ds_deploymentMethod options = Some directMethod
  /\ ds_changeSetName options = Some ""
  /\ run (deployStack (scriptedWorld (fun _ => NONE) []) options)
     = (Resolved DidDeployStack,
        [ AccessStackForMutableStackOperations "Demo";
          ValidateVersion None None;
          ReplacePlaceholders None;
          DeployStackCall {| a_stack := demoArtifact;
                             a_roleArn := None;
                             a_deploymentMethod := Some directMethod;
                             a_rest := noPassThrough |} ]).
Proof. cbv zeta. repeat split. Qed.

End DeployClaims.

(** ** The publisher cache *)
Section PublisherCacheFacts.
Import Deployments.
Variable bold : string -> string.

Lemma cache_ok_new : cache_ok newDeployments.
Proof.
  split.
  - intros m p H. cbn in H. rewrite lookup_empty in H. discriminate.
  - intros m1 m2 p H. cbn in H. rewrite lookup_empty in H. discriminate.
Qed.

Lemma cache_kept_refl d : cache_kept d d.
Proof. intros m p H. exact H. Qed.

Lemma cache_kept_trans d1 d2 d3 :
  cache_kept d1 d2 -> cache_kept d2 d3 -> cache_kept d1 d3.
Proof. intros H12 H23 m p H. apply H23, H12, H. Qed.

Lemma cachedPublisher_spec d m env name p d' :
  cache_ok d ->
  cachedPublisher bold d m env name = (p, d') ->
  cache_ok d' /\ cache_kept d d' /\ publisherCache d' !! manifestRef m = Some p.
Proof.
  intros [Hstore Hinj]. unfold cachedPublisher.
  destruct (publisherCache d !! manifestRef m) as [existing | ] eqn:Hcache.
  - intros [= <- <-]. repeat split; try assumption. apply cache_kept_refl.
  - cbv zeta. intros [= <- <-]. unfold cache_ok, cache_kept.
    cbn [publisherCache publishers].
    set (p := fresh (dom (publishers d))).
    assert (publishers d !! p = None) as Hfresh.
    { apply not_elem_of_dom. apply is_fresh. }
    assert (forall m0, publisherCache d !! m0 <> Some p) as Hunused.
    { intros m0 H0. destruct (Hstore m0 p H0) as [x Hx]. congruence. }
    split; [ split | split ].
    + intros m0 p0. rewrite lookup_insert.
      destruct (decide (manifestRef m = m0)) as [Heq | Hne].
      * intros [= <-]. rewrite lookup_insert_eq. eauto.
      * intros H0. rewrite lookup_insert_ne.
        -- eapply Hstore, H0.
        -- intros <-. exact (Hunused m0 H0).
    + intros m1 m2 p0. rewrite !lookup_insert.
      destruct (decide (manifestRef m = m1)) as [Heq1 | Hne1];
        destruct (decide (manifestRef m = m2)) as [Heq2 | Hne2].
      * congruence.
      * intros [= <-] H2. destruct (Hunused m2 H2).
      * intros H1 [= <-]. destruct (Hunused m1 H1).
      * apply Hinj.
    + intros m0 p0 H0. rewrite lookup_insert_ne; [ exact H0 | ].
      intros Heq. rewrite <- Heq in H0. congruence.
    + apply lookup_insert_eq.
Qed.

Lemma recordOutcome_spec d p failed :
  cache_ok d -> cache_ok (recordOutcome d p failed) /\ cache_kept d (recordOutcome d p failed).
Proof.
  intros [Hstore Hinj]. split; [ split | ].
  - intros m p0 H0. cbn [recordOutcome publisherCache publishers] in *.
    rewrite lookup_alter. destruct (Hstore m p0 H0) as [x Hx].
    destruct (decide (p = p0)) as [-> | Hne]; rewrite Hx; cbn; eauto.
  - exact Hinj.
  - intros m p0 H0. exact H0.
Qed.

Lemma allowCrossAccount_spec d a o d' :
  cache_ok d ->
  allowCrossAccountAssetPublishingForEnv d a = (o, d') ->
  cache_ok d' /\ cache_kept d d'.
Proof.
  intros Hok. unfold allowCrossAccountAssetPublishingForEnv.
  destruct (_allowCrossAccountAssetPublishing d);
    [ | destruct (ans_access a); [ destruct (ans_crossAccount a) | ] ];
    intros [= <- <-]; split; try exact Hok; try apply cache_kept_refl.
  intros m p H. exact H.
Qed.

Lemma build_spec d validation m asset stack name a :
  cache_ok d ->
  cache_ok (after (buildSingleAsset bold d validation m asset stack name a))
  /\ cache_kept d (after (buildSingleAsset bold d validation m asset stack name a))
  /\ forall p, obtained (buildSingleAsset bold d validation m asset stack name a) = Some p ->
       publisherCache (after (buildSingleAsset bold d validation m asset stack name a))
         !! manifestRef m = Some p.
Proof.
  intros Hok. unfold buildSingleAsset.
  destruct (match validation with
            | Some _ => _
            | None => Resolved tt
            end) as [ [] | e ].
  2:{ cbn. repeat split; try apply Hok; try apply cache_kept_refl. discriminate. }
  destruct (ans_environment a) as [env | e].
  2:{ cbn. repeat split; try apply Hok; try apply cache_kept_refl. discriminate. }
  destruct (cachedPublisher bold d m env name) as [p d1] eqn:Hcached.
  destruct (cachedPublisher_spec _ _ _ _ _ _ Hok Hcached) as (Hok1 & Hkept1 & Hfiled).
  destruct (ans_entry a) as [failed | e]; cbn [after obtained].
  - destruct (recordOutcome_spec d1 p failed Hok1) as [Hok2 Hkept2].
    split; [ exact Hok2 | split ].
    + eapply cache_kept_trans; eassumption.
    + intros p0 [= <-]. exact Hfiled.
  - split; [ exact Hok1 | split; [ exact Hkept1 | ] ]. intros p0 [= <-]. exact Hfiled.
Qed.

Lemma publish_spec d m asset name a :
  cache_ok d ->
  cache_ok (after (publishSingleAsset bold d m asset name a))
  /\ cache_kept d (after (publishSingleAsset bold d m asset name a))
  /\ forall p, obtained (publishSingleAsset bold d m asset name a) = Some p ->
       publisherCache (after (publishSingleAsset bold d m asset name a))
         !! manifestRef m = Some p.
Proof.
  intros Hok. unfold publishSingleAsset.
  destruct (ans_environment a) as [env | e].
  2:{ cbn. repeat split; try apply Hok; try apply cache_kept_refl. discriminate. }
  destruct (cachedPublisher bold d m env name) as [p d1] eqn:Hcached.
  destruct (cachedPublisher_spec _ _ _ _ _ _ Hok Hcached) as (Hok1 & Hkept1 & Hfiled).
  destruct (allowCrossAccountAssetPublishingForEnv d1 a) as [allowed d2] eqn:Hallow.
  destruct (allowCrossAccount_spec _ _ _ _ Hok1 Hallow) as [Hok2 Hkept2].
  assert (cache_kept d d2) as Hkept by (eapply cache_kept_trans; eassumption).
  destruct allowed as [allowed | e]; [ destruct (ans_entry a) as [failed | e] | ];
    cbn [after obtained].
  - destruct (recordOutcome_spec d2 p failed Hok2) as [Hok3 Hkept3].
    split; [ exact Hok3 | split ].
    + eapply cache_kept_trans; eassumption.
    + intros p0 [= <-]. apply Hkept2, Hfiled.
  - split; [ exact Hok2 | split; [ exact Hkept | ] ]. intros p0 [= <-]. apply Hkept2, Hfiled.
  - split; [ exact Hok2 | split; [ exact Hkept | ] ]. intros p0 [= <-]. apply Hkept2, Hfiled.
Qed.

Lemma isPublished_spec d m asset name a :
  cache_ok d ->
  cache_ok (after (isSingleAssetPublished bold d m asset name a))
  /\ cache_kept d (after (isSingleAssetPublished bold d m asset name a))
  /\ forall p, obtained (isSingleAssetPublished bold d m asset name a) = Some p ->
       publisherCache (after (isSingleAssetPublished bold d m asset name a))
         !! manifestRef m = Some p.
Proof.
  intros Hok. unfold isSingleAssetPublished.
  destruct (ans_environment a) as [env | e].
  2:{ cbn. repeat split; try apply Hok; try apply cache_kept_refl. discriminate. }
  destruct (cachedPublisher bold d m env name) as [p d1] eqn:Hcached.
  destruct (cachedPublisher_spec _ _ _ _ _ _ Hok Hcached) as (Hok1 & Hkept1 & Hfiled).
  cbn [after obtained].
  split; [ exact Hok1 | split; [ exact Hkept1 | ] ]. intros p0 [= <-]. exact Hfiled.
Qed.

(** A call keeps the cache in order, keeps its entries, and files the
    publisher it obtained under the manifest it named. *)
Lemma serve_spec d r a o d' :
  cache_ok d ->
  serve bold d r a = (o, d') ->
  cache_ok d' /\ cache_kept d d'
  /\ asked o = requestManifest r
  /\ forall p, got o = Some p -> publisherCache d' !! manifestRef (asked o) = Some p.
Proof.
  intros Hok. destruct r as [validation m asset stack name | m asset name | m asset name];
    cbn [serve requestManifest]; cbv zeta; intros [= <- <-]; cbn [asked got].
  - destruct (build_spec d validation m asset stack name a Hok) as (H1 & H2 & H3).
    split; [ exact H1 | split; [ exact H2 | split; [ reflexivity | exact H3 ] ] ].
  - destruct (publish_spec d m asset name a Hok) as (H1 & H2 & H3).
    split; [ exact H1 | split; [ exact H2 | split; [ reflexivity | exact H3 ] ] ].
  - destruct (isPublished_spec d m asset name a Hok) as (H1 & H2 & H3).
    split; [ exact H1 | split; [ exact H2 | split; [ reflexivity | exact H3 ] ] ].
Qed.

Lemma serveAll_spec calls : forall d os d',
  cache_ok d ->
  serveAll bold d calls = (os, d') ->
  cache_ok d' /\ cache_kept d d'
  /\ forall o p, List.In o os -> got o = Some p ->
                 publisherCache d' !! manifestRef (asked o) = Some p.
Proof.
  induction calls as [ | [r a] rest IH ]; intros d os d' Hok; cbn [serveAll].
  - intros [= <- <-]. split; [ exact Hok | split; [ apply cache_kept_refl | ] ].
    intros o p [].
  - destruct (serve bold d r a) as [o d1] eqn:Hserve.
    destruct (serveAll bold d1 rest) as [os' d2] eqn:Hrest.
    intros [= <- <-].
    destruct (serve_spec _ _ _ _ _ Hok Hserve) as (Hok1 & Hkept1 & _ & Hfiled1).
    destruct (IH _ _ _ Hok1 Hrest) as (Hok2 & Hkept2 & Hfiled2).
    split; [ exact Hok2 | split ].
    + eapply cache_kept_trans; eassumption.
    + intros o' p [<- | Hin] Hgot.
      * apply Hkept2, Hfiled1, Hgot.
      * apply Hfiled2; assumption.
Qed.

Lemma serveAll_app calls1 : forall calls2 d,
  serveAll bold d (calls1 ++ calls2)
  = (fst (serveAll bold d calls1)
       ++ fst (serveAll bold (snd (serveAll bold d calls1)) calls2),
     snd (serveAll bold (snd (serveAll bold d calls1)) calls2)).
Proof.
  induction calls1 as [ | [r a] rest IH ]; intros calls2 d; cbn [serveAll app].
  - cbn. destruct (serveAll bold d calls2); reflexivity.
  - destruct (serve bold d r a) as [o d1]. rewrite IH.
    destruct (serveAll bold d1 rest) as [os1 d2]. reflexivity.
Qed.

Lemma serveAll_length calls : forall d,
  length (fst (serveAll bold d calls)) = length calls.
Proof.
  induction calls as [ | [r a] rest IH ]; intros d; cbn [serveAll]; [ reflexivity | ].
  destruct (serve bold d r a) as [o d1]. specialize (IH d1).
  destruct (serveAll bold d1 rest) as [os d2]. cbn [fst length] in *. congruence.
Qed.

(** A call whose steps before the cache go through obtains a publisher. *)
Lemma serve_obtains d r a env :
  ans_environment a = Resolved env ->
  (forall validation m asset stack name,
      r = Build (Some validation) m asset stack name ->
      ans_access a = Resolved tt /\ ans_validate a = Resolved tt) ->
  exists p, got (fst (serve bold d r a)) = Some p.
Proof.
  intros Henv Hvalidated.
  destruct r as [validation m asset stack name | m asset name | m asset name];
    cbn [serve]; cbv zeta; cbn [fst got].
  - unfold buildSingleAsset.
    assert (match validation with
            | Some _ =>
                match ans_access a with
                | Rejected e => Rejected e
                | Resolved _ =>
                    match ans_validate a with
                    | Rejected e =>
                        Rejected (ToolkitError (stackName stack +:+ ": "
                                                +:+ ans_formatErrorMessage a e))
                    | Resolved _ => Resolved tt
                    end
                end
            | None => Resolved tt
            end = Resolved tt) as ->.
    { destruct validation as [v | ]; [ | reflexivity ].
      destruct (Hvalidated v m asset stack name eq_refl) as [-> ->]. reflexivity. }
    rewrite Henv. destruct (cachedPublisher bold d m env name) as [p d1].
    exists p. destruct (ans_entry a); reflexivity.
  - unfold publishSingleAsset. rewrite Henv.
    destruct (cachedPublisher bold d m env name) as [p d1]. exists p.
    destruct (allowCrossAccountAssetPublishingForEnv d1 a) as [[allowed | e] d2];
      [ destruct (ans_entry a) | ]; reflexivity.
  - unfold isSingleAssetPublished. rewrite Henv.
    destruct (cachedPublisher bold d m env name) as [p d1]. exists p. reflexivity.
Qed.

End PublisherCacheFacts.

Section PublisherCacheClaims.
Import Deployments.

(** C7: for every sequence of build / publish / existence-check calls on
    one [Deployments] instance, whatever the collaborators answer, every
    call whose steps before the cache go through (the environment is
    resolved and, for a build with version validation, the validation
    passes) obtains a publisher object, which is filed under the manifest
    the call names from then on; two calls obtain the same publisher
    object exactly when they name the same manifest object (so a distinct
    manifest object, whatever it holds, obtains a distinct publisher);
    and an entry of the cache, once made, is still there after every
    later call. *)
Theorem publisher_cache_identity (bold : string -> string)
    (calls : list (Request * Answers)) :
  (forall earlier r a later env,
      calls = earlier ++ (r, a) :: later ->
      ans_environment a = Resolved env ->
      (forall validation m asset stack name,
          r = Build (Some validation) m asset stack name ->
          ans_access a = Resolved tt /\ ans_validate a = Resolved tt) ->
      exists p,
        nth_error (fst (serveAll bold newDeployments calls)) (length earlier)
        = Some {| asked := requestManifest r; got := Some p |}
        /\ publisherCache (snd (serveAll bold newDeployments (earlier ++ [(r, a)])))
             !! manifestRef (requestManifest r) = Some p
        /\ is_Some (publishers (snd (serveAll bold newDeployments (earlier ++ [(r, a)])))
                      !! p))
  /\ (forall o1 o2 p1 p2,
      List.In o1 (fst (serveAll bold newDeployments calls)) ->
      List.In o2 (fst (serveAll bold newDeployments calls)) ->
      got o1 = Some p1 -> got o2 = Some p2 ->
      (manifestRef (asked o1) = manifestRef (asked o2) <-> p1 = p2))
  /\ (forall earlier later, calls = earlier ++ later ->
        cache_kept (snd (serveAll bold newDeployments earlier))
                   (snd (serveAll bold newDeployments calls))).
Proof.
  split; [ | split ].
  - intros earlier r a later env -> Henv Hvalidated.
    rewrite !serveAll_app. cbn [fst snd].
    destruct (serveAll bold newDeployments earlier) as [os1 d1] eqn:Hearlier.
    pose proof (serveAll_length bold earlier newDeployments) as Hlen.
    rewrite Hearlier in Hlen. cbn [fst snd] in *.
    destruct (serveAll_spec bold earlier _ _ _ cache_ok_new Hearlier) as (Hok1 & _ & _).
    cbn [serveAll].
    destruct (serve_obtains bold d1 r a env Henv Hvalidated) as [p Hgot].
    destruct (serve bold d1 r a) as [o d2] eqn:Hserve.
    destruct (serve_spec bold _ _ _ _ _ Hok1 Hserve) as ([Hstore _] & _ & Hasked & Hfiled).
    destruct (serveAll bold d2 later) as [os2 d3]. cbn [fst snd] in *.
    exists p. split; [ | split ].
    + rewrite nth_error_app2 by lia. rewrite Hlen, Nat.sub_diag. cbn [nth_error].
      destruct o as [m g]. cbn [asked got] in *. congruence.
    + rewrite <- Hasked. apply Hfiled, Hgot.
    + eapply Hstore. apply Hfiled, Hgot.
  - intros o1 o2 p1 p2 Hin1 Hin2 Hgot1 Hgot2.
    destruct (serveAll bold newDeployments calls) as [os final] eqn:Hall.
    destruct (serveAll_spec bold calls _ _ _ cache_ok_new Hall) as ([_ Hinj] & _ & Hfiled).
    cbn [fst] in *.
    pose proof (Hfiled o1 p1 Hin1 Hgot1) as H1.
    pose proof (Hfiled o2 p2 Hin2 Hgot2) as H2.
    split.
    + intros Heq. rewrite Heq in H1. congruence.
    + intros <-. exact (Hinj _ _ _ H1 H2).
  - intros earlier later ->. rewrite serveAll_app. cbn [snd].
    destruct (serveAll bold newDeployments earlier) as [os1 d1] eqn:Hearlier.
    destruct (serveAll_spec bold earlier _ _ _ cache_ok_new Hearlier) as (Hok1 & _ & _).
    cbn [snd].
    destruct (serveAll bold d1 later) as [os2 d2] eqn:Hlater.
    destruct (serveAll_spec bold later _ _ _ Hok1 Hlater) as (_ & Hkept & _).
    exact Hkept.
Qed.

(** The calls of [demoCalls] obtain the publishers 1, 1, 2, 3 and 1. *)
Example demoCalls_observed :
  fst (serveAll (fun s => s) newDeployments demoCalls)
  = [ {| asked := manifestA; got := Some 1%positive |};
      {| asked := manifestA; got := Some 1%positive |};
      {| asked := manifestTwin; got := Some 2%positive |};
      {| asked := manifestB; got := Some 3%positive |};
      {| asked := manifestA; got := Some 1%positive |} ].
Proof. vm_compute. reflexivity. Qed.

Lemma publisher_cache_identity_witness :
  (manifestRef manifestA = manifestRef manifestTwin <-> 1%positive = 2%positive)
  /\ (manifestRef manifestA = manifestRef manifestA <-> 1%positive = 1%positive).
Proof.
  split.
  - apply (proj1 (proj2 (publisher_cache_identity (fun s => s) demoCalls))
             {| asked := manifestA; got := Some 1%positive |}
             {| asked := manifestTwin; got := Some 2%positive |}).
    + vm_compute. auto.
    + vm_compute. auto.
    + reflexivity.
    + reflexivity.
  - apply (proj1 (proj2 (publisher_cache_identity (fun s => s) demoCalls))
             {| asked := manifestA; got := Some 1%positive |}
             {| asked := manifestA; got := Some 1%positive |}).
    + vm_compute. auto.
    + vm_compute. auto.
    + reflexivity.
    + reflexivity.
Defined.

End PublisherCacheClaims.

(** ** The destination key of a file asset *)
Section AssetClaims.
Import Assets.

Lemma string_append_assoc (a b c : string) : (a +:+ b) +:+ c = a +:+ b +:+ c.
Proof.
  induction a as [ | x a IH ]; [ reflexivity | ].
  change (String x (a +:+ b) +:+ c = String x (a +:+ b +:+ c)).
  change (String x ((a +:+ b) +:+ c) = String x (a +:+ b +:+ c)).
  rewrite IH. reflexivity.
Qed.

(** What [prepareFileAsset] files in the manifest. *)
Lemma prepareFileAsset_entry extname sep (asset : FileAssetMetadataEntry)
    (b : AssetManifestBuilder) (t : ToolkitInfo) (packaging : FileAssetPackaging)
    (log : list Event) :
  exists params log',
    prepareFileAsset extname sep asset b t packaging log
    = (Resolved (params,
                 addFileAsset b (f_sourceHash asset)
                   {| src_path := f_path asset; src_packaging := packaging |}
                   {| bucketName := toolkitBucketName t;
                      objectKey :=
                        (if String.eqb (f_id asset) (f_sourceHash asset)
                         then "assets/"
                         else "assets/" +:+ f_id asset +:+ "/")
                        +:+ f_sourceHash asset
                        +:+ match packaging with
                            | ZIP_DIRECTORY => ".zip"
                            | FILE => extname (f_path asset)
                            end |}),
       log').
Proof.
  unfold prepareFileAsset. cbv zeta. unfold bind, emit, ret.
  eexists. eexists. reflexivity.
Qed.

(** C6: for every file asset, [prepareAsset] succeeds and files under the
    asset's source hash a destination whose object key is
    [assets/<sourceHash><ext>] when the asset's id equals its source hash
    and [assets/<id>/<sourceHash><ext>] otherwise, where [<ext>] is [.zip]
    for zip (directory) packaging and the extension of the asset path, as
    [path.extname] gives it, for file packaging. *)
Theorem file_asset_object_key (extname : string -> string) (sep : string)
    (prepareEcrRepository : string -> Outcome string) (toLowerCase : string -> string)
    (asset : FileAssetMetadataEntry) (b : AssetManifestBuilder) (t : ToolkitInfo)
    (log : list Event) :
  let ext := match f_packaging asset with
             | zip => ".zip"
             | file => extname (f_path asset)
             end in
  exists params b' log' source dest,
    prepareAsset extname sep prepareEcrRepository toLowerCase (FileAsset asset) b t log
    = (Resolved (params, b'), log')
    /\ files b' !! f_sourceHash asset = Some (source, dest)
    /\ (f_id asset = f_sourceHash asset ->
        objectKey dest = "assets/" +:+ f_sourceHash asset +:+ ext)
    /\ (f_id asset <> f_sourceHash asset ->
        objectKey dest = "assets/" +:+ f_id asset +:+ "/" +:+ f_sourceHash asset +:+ ext).
Proof.
  cbv zeta. cbn [prepareAsset].
  destruct (prepareFileAsset_entry extname sep asset b t
              (match f_packaging asset with zip => ZIP_DIRECTORY | file => FILE end) log)
    as (params & log' & ->).
  eexists params, _, log', _, _. split; [ reflexivity | ].
  split; [ cbn [addFileAsset files]; apply lookup_insert_eq | ].
  cbn [objectKey].
  assert (match match f_packaging asset with zip => ZIP_DIRECTORY | file => FILE end with
          | ZIP_DIRECTORY => ".zip"
          | FILE => extname (f_path asset)
          end
          = match f_packaging asset with
            | zip => ".zip"
            | file => extname (f_path asset)
            end) as -> by (destruct (f_packaging asset); reflexivity).
  split.
  - intros Hsame. rewrite (proj2 (String.eqb_eq _ _) Hsame). reflexivity.
  - intros Hdiff. rewrite (proj2 (String.eqb_neq _ _) Hdiff).
    rewrite !string_append_assoc. reflexivity.
Qed.

Lemma file_asset_object_key_witness :
  exists params b' log' source dest,
    prepareAsset (fun p => after_last_dot p None) "||" (fun _ => Resolved "uri")
                 lower_letters
                 (FileAsset (demoFileAsset "abc123" file)) emptyManifest demoToolkit []
    = (Resolved (params, b'), log')
    /\ files b' !! "abc123" = Some (source, dest)
    /\ objectKey dest = "assets/abc123.js".
Proof.
  destruct (file_asset_object_key (fun p => after_last_dot p None) "||"
              (fun _ => Resolved "uri") lower_letters
              (demoFileAsset "abc123" file) emptyManifest demoToolkit [])
    as (params & b' & log' & source & dest & Hrun & Hfiled & Hsame & _).
  exists params, b', log', source, dest.
  split; [ exact Hrun | split; [ exact Hfiled | ] ].
  exact (Hsame eq_refl).
Defined.

(** The three shapes of the key, on a concrete asset. *)
Example file_asset_keys :
  let key id tag :=
    option_map (fun e => objectKey (snd e))
      (match fst (prepareAsset (fun p => after_last_dot p None) "||" (fun _ => Resolved "uri")
                 lower_letters
                    (FileAsset (demoFileAsset id tag)) emptyManifest demoToolkit [])
       with
       | Resolved (_, b') => files b' !! "abc123"
       | Rejected _ => None
       end) in
  key "abc123" file = Some "assets/abc123.js"
  /\ key "MyAsset" file = Some "assets/MyAsset/abc123.js"
  /\ key "MyAsset" zip = Some "assets/MyAsset/abc123.zip".
Proof. cbv zeta. repeat split; vm_compute; reflexivity. Qed.

End AssetClaims.

(** ** The size of the account cache *)
Section AccountCacheClaims.
Import AccountCache.

Lemma updated_size (map : gmap string Account) (key : string) (account : Account) :
  (size (updated map key account) <= MAX_ENTRIES)%nat.
Proof.
  unfold updated. destruct (MAX_ENTRIES <=? size map)%nat eqn:Hfull.
  - rewrite insert_empty, map_size_singleton. unfold MAX_ENTRIES. lia.
  - apply Nat.leb_gt in Hfull. rewrite map_size_insert.
    destruct (map !! key); cbn; lia.
Qed.

Lemma updated_reset (map : gmap string Account) (key : string) (account : Account) :
  (MAX_ENTRIES <= size map)%nat -> updated map key account = {[ key := account ]}.
Proof.
  intros Hfull. unfold updated. rewrite (proj2 (Nat.leb_le _ _) Hfull).
  apply insert_empty.
Qed.

Lemma saveMap_within_limit f c map :
  within_limit f -> (size map <= MAX_ENTRIES)%nat -> within_limit (snd (saveMap f c map)).
Proof.
  intros Hf Hmap. unfold saveMap. cbv zeta.
  destruct (ensureFailure c) as [ [] | ]; cbn [snd]; try exact Hf.
  destruct (writeFailure c) as [ [] | ]; cbn [snd]; try exact Hmap;
    destruct (cutShort c); try exact I; destruct f; try exact I; exact Hf.
Qed.

Lemma put_within_limit f c key account :
  within_limit f -> within_limit (snd (put f c key account)).
Proof.
  intros Hf. unfold put. destruct (loadMap f c) as [map | e]; [ | exact Hf ].
  apply saveMap_within_limit; [ exact Hf | apply updated_size ].
Qed.

Lemma fetch_within_limit f c key resolver :
  within_limit f -> within_limit (snd (fetch f c key resolver)).
Proof.
  intros Hf. unfold fetch.
  destruct (get f c key) as [ [cached | ] | e ]; try exact Hf.
  destruct resolver as [ [account | ] | e ]; try exact Hf.
  pose proof (put_within_limit f c key account Hf) as Hput.
  destruct (put f c key account) as [ [ [] | e ] f' ]; exact Hput.
Qed.

(** C10: the map that [put] writes never has more than [MAX_ENTRIES]
    (1000) entries: a loaded map with [MAX_ENTRIES] entries or more is
    replaced by the empty map before the new entry goes in, so that the
    written map holds that entry alone; when the write goes through, the
    written map is what the file holds afterwards; and a cache file within
    the limit, or absent, stays within the limit under every sequence of
    [put]s, [fetch]es and [get]s, whatever the file system does. *)
Theorem account_cache_bounded :
  MAX_ENTRIES = 1000%nat
  /\ (forall map key account,
        (size (updated map key account) <= MAX_ENTRIES)%nat
        /\ ((MAX_ENTRIES <= size map)%nat -> updated map key account = {[ key := account ]}))
  /\ (forall f c key account map,
        loadMap f c = Resolved map ->
        ensureFailure c = None -> writeFailure c = None ->
        put f c key account = (Resolved tt, Holding (updated map key account)))
  /\ (forall f ops, within_limit f -> within_limit (performAll f ops))
  /\ (forall ops, within_limit (performAll Absent ops)).
Proof.
  assert (forall ops f, within_limit f -> within_limit (performAll f ops)) as Hseq.
  { unfold performAll. induction ops as [ | op rest IH ]; intros f Hf; cbn [List.fold_left].
    - exact Hf.
    - apply IH. destruct op as [c key account | c key resolver | c key]; cbn [perform].
      + apply put_within_limit, Hf.
      + apply fetch_within_limit, Hf.
      + exact Hf. }
  split; [ reflexivity | split; [ | split; [ | split ] ] ].
  - intros map key account. split; [ apply updated_size | apply updated_reset ].
  - intros f c key account map Hload Hensure Hwrite.
    unfold put, saveMap. rewrite Hload. cbv zeta. rewrite Hensure, Hwrite. reflexivity.
  - intros f ops. apply Hseq.
  - intros ops. apply Hseq. exact I.
Qed.

(** A full cache is emptied by the next [put]. *)
Example put_resets_full_cache (map : gmap string Account) :
  (MAX_ENTRIES <= size map)%nat ->
  put (Holding map) fairWeather "AKIA0001" {| accountId := "1"; partition := "aws" |}
  = (Resolved tt, Holding {[ "AKIA0001" := {| accountId := "1"; partition := "aws" |} ]}).
Proof.
  intros Hfull. unfold put, loadMap, readJson, saveMap. cbn.
  rewrite (updated_reset map _ _ Hfull). reflexivity.
Qed.

End AccountCacheClaims.

(** ** Classifying the changes of an import *)
Section ImporterClaims.
Import Importer.

(** The deployed template is at hand: from the memo, or from a read that
    resolves. *)
Lemma currentTemplate_resolves readCurrentTemplate imp current log :
  _currentTemplate imp = Some current
  \/ (_currentTemplate imp = None /\ readCurrentTemplate = Resolved current) ->
  exists imp' log',
    currentTemplate readCurrentTemplate imp log = (Resolved (current, imp'), log')
    /\ stackTemplate imp' = stackTemplate imp
    /\ forall msg, List.In (IoWarn msg) log' -> List.In (IoWarn msg) log.
Proof.
  unfold currentTemplate. intros [-> | [-> ->]].
  - exists imp, log. repeat split. auto.
  - unfold bind, call, ret. eexists _, _. split; [ reflexivity | split; [ reflexivity | ] ].
    intros msg Hin. apply List.in_app_or in Hin as [Hin | [Hin | []]];
      [ exact Hin | discriminate Hin ].
Qed.

Lemma filter_twice {A : Type} (f g : A -> bool) (l : list A) :
  List.filter f (List.filter g l) = List.filter (fun x => g x && f x) l.
Proof.
  induction l as [ | x l IH ]; [ reflexivity | ]. cbn [List.filter].
  destruct (g x); cbn [List.filter andb]; [ destruct (f x) | ]; rewrite IH; reflexivity.
Qed.

Lemma filter_nothing {A : Type} (f : A -> bool) (l : list A) :
  (forall x, List.In x l -> f x = false) -> List.filter f l = [].
Proof.
  induction l as [ | x l IH ]; intros Hall; [ reflexivity | ]. cbn [List.filter].
  rewrite (Hall x (or_introl eq_refl)). apply IH. intros y Hy. apply Hall. right. exact Hy.
Qed.

Lemma filter_something {A : Type} (f : A -> bool) (l : list A) (x : A) :
  List.In x l -> f x = true -> (0 <? length (List.filter f l))%nat = true.
Proof.
  intros Hin Hx. assert (List.In x (List.filter f l)) as Hfound.
  { apply List.filter_In. split; assumption. }
  destruct (List.filter f l); [ destruct Hfound | reflexivity ].
Qed.

Lemma describeResource_names (imp : ResourceImporter) (logicalId : string) :
  ImporterVocabulary.names_resource (stackTemplate imp) logicalId
                                    (describeResource imp logicalId).
Proof.
  unfold ImporterVocabulary.names_resource, ImporterVocabulary.recorded_path,
    describeResource, templateResource, prop.
  destruct (stackTemplate imp) as [t | ].
  2:{ right. split; [ | reflexivity ]. intros path (t & rs & r & md & H & _). discriminate. }
  destruct (Resources t) as [resources | ] eqn:Hresources.
  2:{ right. split; [ | reflexivity ].
      intros path (t' & rs & r & md & [= <-] & H & _). congruence. }
  destruct (field logicalId resources) as [resource | ] eqn:Hresource.
  2:{ right. split; [ | reflexivity ].
      intros path (t' & rs & r & md & [= <-] & H1 & H2 & _). congruence. }
  cbn [option_map].
  destruct (field "Metadata" resource) as [held | ] eqn:Hmetadata.
  2:{ right. split; [ | reflexivity ].
      intros path (t' & rs & r & md & [= <-] & H1 & H2 & H3 & _). congruence. }
  assert (forall path,
            (exists t' rs r md, Some t = Some t' /\ Resources t' = Some rs
                                /\ field logicalId rs = Some r
                                /\ field "Metadata" r = Some (JObject md)
                                /\ field "aws:cdk:path" md = Some path /\ path <> JNull)
            <-> exists md, held = JObject md /\ field "aws:cdk:path" md = Some path
                           /\ path <> JNull) as Hshape.
  { intros path. split.
    - intros (t' & rs & r & md & [= <-] & H1 & H2 & H3 & H4 & H5).
      exists md. split; [ congruence | split; assumption ].
    - intros (md & -> & H4 & H5). exists t, resources, resource, md. auto 10. }
  destruct held as [ | b | n | str | items | metadata ];
    try (right; split; [ | reflexivity ]; intros path Hpath;
         apply Hshape in Hpath as (md & Hmd & _); discriminate).
  destruct (field "aws:cdk:path" metadata) as [path | ] eqn:Hpath.
  - destruct path as [ | b | n | str | items | fields ];
      try (left; eexists; split; [ apply Hshape; eexists; split; [ reflexivity | ];
                                   split; [ exact Hpath | discriminate ] | reflexivity ]).
    right. split; [ | reflexivity ]. intros path Hrec.
    apply Hshape in Hrec as (md & [= <-] & H4 & H5). congruence.
  - right. split; [ | reflexivity ]. intros path Hrec.
    apply Hshape in Hrec as (md & [= <-] & H4 & H5). congruence.
Qed.

Lemma offending_names (imp imp' : ResourceImporter) (l : list (string * ResourceDifference)) :
  stackTemplate imp' = stackTemplate imp ->
  Forall2 (fun c name => ImporterVocabulary.names_resource (stackTemplate imp) (fst c) name)
          l (List.map (fun c => describeResource imp' (fst c)) l).
Proof.
  intros Hsame. induction l as [ | c l IH ]; cbn [List.map]; constructor; [ | exact IH ].
  rewrite <- Hsame. apply describeResource_names.
Qed.

(** C5: with the deployed template at hand, [discoverImportableResources]
    looks at every resource change of the diff except the one of
    [CDKMetadata].  When all of them are additions it returns exactly
    them, in the order of the diff, as import candidates, with
    [hasNonAdditions = false] and without a warning.  When one of them is
    not an addition and [allowNonAdditions] is false (or left out) it
    throws, and the message lists the changes that are not additions,
    each by its construct path if the stack's template records one and
    by its logical id otherwise.  When one of them is not an addition
    and [allowNonAdditions] is true it warns with a message that lists
    them in the same way, and returns exactly the additions, in the
    order of the diff, with [hasNonAdditions = true]. *)
Theorem discover_importable_classifies
    (fullDiffChanges : Template -> option Template -> list (string * ResourceDifference))
    (readCurrentTemplate : Outcome Template)
    (imp : ResourceImporter) (allowNonAdditions : option bool) (current : Template) :
  _currentTemplate imp = Some current
  \/ (_currentTemplate imp = None /\ readCurrentTemplate = Resolved current) ->
  let changes := fullDiffChanges current (stackTemplate imp) in
  let looked_at (c : string * ResourceDifference) := negb (String.eqb (fst c) "CDKMetadata") in
  let offending :=
    List.filter (fun c => looked_at c && negb (isAddition (snd c))) changes in
  let named (names : list string) :=
    Forall2 (fun c name => ImporterVocabulary.names_resource (stackTemplate imp) (fst c) name)
            offending names in
  let result := run (discoverImportableResources fullDiffChanges readCurrentTemplate
                                                 imp allowNonAdditions) in
  ((forall c, List.In c changes -> fst c <> "CDKMetadata" -> isAddition (snd c) = true) ->
     exists r imp',
       fst result = Resolved (r, imp')
       /\ List.map (fun a => (logicalId a, resourceDiff a)) (additions r)
          = List.filter looked_at changes
       /\ hasNonAdditions r = false
       /\ forall msg, ~ List.In (IoWarn msg) (snd result))
  /\ ((exists c, List.In c changes /\ fst c <> "CDKMetadata" /\ isAddition (snd c) = false) ->
      allowNonAdditions = None \/ allowNonAdditions = Some false ->
      exists names,
        named names
        /\ fst result
           = Rejected (ToolkitError
               ("No resource updates or deletes are allowed on import operation. Make sure to resolve pending changes "
                +:+ "to existing resources, before attempting an import. Updated/deleted resources: "
                +:+ join ", " names +:+ " (--force to override)")))
  /\ ((exists c, List.In c changes /\ fst c <> "CDKMetadata" /\ isAddition (snd c) = false) ->
      allowNonAdditions = Some true ->
      exists names r imp',
        named names
        /\ fst result = Resolved (r, imp')
        /\ List.map (fun a => (logicalId a, resourceDiff a)) (additions r)
           = List.filter (fun c => looked_at c && isAddition (snd c)) changes
        /\ hasNonAdditions r = true
        /\ List.In (IoWarn ("Ignoring updated/deleted resources (--force): "
                            +:+ join ", " names))
                   (snd result)).
Proof.
  intros Hcurrent. cbv zeta.
  unfold run, discoverImportableResources. cbv zeta.
  destruct (currentTemplate_resolves readCurrentTemplate imp current [] Hcurrent)
    as (imp' & log' & Hread & Hsame & Hquiet).
  unfold bind. rewrite !Hread. rewrite !Hsame.
  unfold nonAdditionsOf, additionsOf, resourceChanges. rewrite !filter_twice.
  set (changes := fullDiffChanges current (stackTemplate imp)).
  set (offending := List.filter (fun c => negb (String.eqb (fst c) "CDKMetadata")
                                          && negb (isAddition (snd c))) changes).
  assert (forall l : list (string * ResourceDifference),
            List.map (fun a => (logicalId a, resourceDiff a))
              (List.map (fun c => {| logicalId := fst c;
                                     resourceDiff := snd c;
                                     resourceDefinition :=
                                       addDefaultDeletionPolicy
                                         (nullish (templateResource (stackTemplate imp) (fst c)) []) |})
                        l) = l) as Hback.
  { intros l. rewrite List.map_map. cbn [logicalId resourceDiff].
    induction l as [ | [k v] l IH ]; [ reflexivity | cbn; rewrite IH; reflexivity ]. }
  assert ((exists c, List.In c changes /\ fst c <> "CDKMetadata"
                     /\ isAddition (snd c) = false) ->
          (0 <? length offending)%nat = true) as Hsome.
  { intros (c & Hin & Hname & Hchange). apply (filter_something _ _ c Hin).
    apply String.eqb_neq in Hname. rewrite Hname, Hchange. reflexivity. }
  pose proof (offending_names imp imp' offending Hsame) as Hnames.
  split; [ | split ].
  - intros Hall.
    assert (offending = []) as ->.
    { apply filter_nothing. intros c Hin.
      destruct (String.eqb (fst c) "CDKMetadata") eqn:Hname; [ reflexivity | ].
      apply String.eqb_neq in Hname. rewrite (Hall c Hin Hname). reflexivity. }
    cbn [length Nat.ltb Nat.leb]. unfold ret. cbn [fst snd].
    eexists _, _. split; [ reflexivity | ]. cbn [additions hasNonAdditions].
    split; [ | split; [ reflexivity | ] ].
    + rewrite Hback. apply List.filter_ext_in. intros c Hin.
      destruct (String.eqb (fst c) "CDKMetadata") eqn:Hname; [ reflexivity | ].
      apply String.eqb_neq in Hname. rewrite (Hall c Hin Hname). reflexivity.
    + intros msg Hin. exact (Hquiet msg Hin).
  - intros Hexists Hrefuse. rewrite (Hsome Hexists).
    eexists. split; [ exact Hnames | ].
    destruct Hrefuse as [-> | ->]; unfold throw; reflexivity.
  - intros Hexists ->. rewrite (Hsome Hexists). cbn [nullish].
    unfold emit, ret. cbn [fst snd].
    eexists _, _, _. split; [ exact Hnames | ]. split; [ reflexivity | ].
    cbn [additions hasNonAdditions].
    split; [ apply Hback | split; [ reflexivity | ] ].
    apply List.in_or_app. right. left. reflexivity.
Qed.

(** Two additions next to the change of [CDKMetadata]: both are import
    candidates. *)
Lemma discover_importable_classifies_witness :
  exists r imp',
    fst (run (discoverImportableResources (fun _ _ => twoAdditions)
                (Resolved {| Resources := None |}) demoImporter None))
    = Resolved (r, imp')
    /\ List.map (fun a => (logicalId a, resourceDiff a)) (additions r)
       = [ ("Bucket", added "AWS::S3::Bucket"); ("Queue", added "AWS::SQS::Queue") ]
    /\ hasNonAdditions r = false
    /\ forall msg,
         ~ List.In (IoWarn msg)
             (snd (run (discoverImportableResources (fun _ _ => twoAdditions)
                          (Resolved {| Resources := None |}) demoImporter None))).
Proof.
  apply (proj1 (discover_importable_classifies (fun _ _ => twoAdditions)
                  (Resolved {| Resources := None |}) demoImporter None
                  {| Resources := None |} (or_intror (conj eq_refl eq_refl)))).
  intros c Hin Hname. cbn in Hin.
  destruct Hin as [<- | [<- | [<- | []]]]; [ reflexivity | | reflexivity ].
  exfalso. apply Hname. reflexivity.
Defined.

(** The three outcomes on concrete diffs. *)
Example discover_two_additions :
  run (discoverImportableResources (fun _ _ => twoAdditions)
         (Resolved {| Resources := None |}) demoImporter None)
  = (Resolved
       ({| additions :=
             [ {| logicalId := "Bucket";
                  resourceDiff := added "AWS::S3::Bucket";
                  resourceDefinition := [ ("Type", JString "AWS::S3::Bucket");
                                          ("DeletionPolicy", JString "Retain") ] |};
               {| logicalId := "Queue";
                  resourceDiff := added "AWS::SQS::Queue";
                  resourceDefinition := [ ("Type", JString "AWS::SQS::Queue");
                                          ("DeletionPolicy", JString "Delete") ] |} ];
           hasNonAdditions := false |},
        {| stackTemplate := Some desiredTemplate;
           _currentTemplate := Some {| Resources := None |} |}),
     [ ReadCurrentTemplate ]).
Proof. reflexivity. Qed.

Example discover_change_refused :
  fst (run (discoverImportableResources (fun _ _ => additionAndChange)
              (Resolved {| Resources := None |}) demoImporter (Some false)))
  = Rejected (ToolkitError
      ("No resource updates or deletes are allowed on import operation. Make sure to resolve pending changes "
       +:+ "to existing resources, before attempting an import. Updated/deleted resources: "
       +:+ "Demo/Topic/Resource (--force to override)")).
Proof. reflexivity. Qed.

Example discover_change_allowed :
  snd (run (discoverImportableResources (fun _ _ => additionAndChange)
              (Resolved {| Resources := None |}) demoImporter (Some true)))
  = [ ReadCurrentTemplate;
      IoWarn "Ignoring updated/deleted resources (--force): Demo/Topic/Resource" ].
Proof. reflexivity. Qed.

End ImporterClaims.

(** ** Parameter resolution *)
Section ParameterClaims.
Import Parameters.

(** The cases of the test file. *)
Example makeParams_override :
  forall haveDefault havePrevious,
    makeParams haveDefault havePrevious true
    = Resolved ([ ParameterValue PARAM OVERRIDE ], Changes).
Proof. intros [] []; vm_compute; reflexivity. Qed.

Example makeParams_nothing :
  makeParams false false false
  = Rejected (ToolkitError
                "The following CloudFormation Parameters are missing a value: TheParameter").
Proof. vm_compute. reflexivity. Qed.

Example makeParams_previous :
  forall haveDefault,
    makeParams haveDefault true false = Resolved ([ UsePreviousValue PARAM ], NoChanges).
Proof. intros []; vm_compute; reflexivity. Qed.

Example makeParams_default :
  makeParams true false false = Resolved ([], Changes).
Proof. vm_compute. reflexivity. Qed.

Example store_sourced_always_changed :
  hasChangesOf (updateExisting (storeTemplate false) [] oldValues) oldValues = Some SsmChanges
  /\ hasChangesOf (updateExisting (storeTemplate false) [ ("Foo", Some "/Some/Key") ] oldValues)
                  oldValues
     = Some SsmChanges.
Proof. split; vm_compute; reflexivity. Qed.

Example store_sourced_with_marker :
  hasChangesOf (updateExisting (storeTemplate true) [] oldValues) oldValues = Some NoChanges
  /\ hasChangesOf (updateExisting (storeTemplate true) [ ("Foo", Some "/Some/Key") ] oldValues)
                  oldValues
     = Some NoChanges
  /\ hasChangesOf (updateExisting (storeTemplate true) [ ("Foo", Some "/OTHER/Key") ] oldValues)
                  oldValues
     = Some Changes.
Proof. repeat split; vm_compute; reflexivity. Qed.

Example empty_string_is_a_valid_update :
  option_map apiParameters
    (match updateExisting [ ("Foo", ordinary (Some "Foo")) ] [ ("Foo", Some "") ]
                          {[ "Foo" := "ThisIsOld" ]}
     with Resolved v => Some v | Rejected _ => None end)
  = Some [ ParameterValue "Foo" "" ].
Proof. vm_compute. reflexivity. Qed.

Example unknown_parameter_is_passed_anyway :
  option_map apiParameters
    (match updateExisting [ ("Foo", ordinary (Some "Foo")) ] [ ("Bar", Some "Bar") ] ∅
     with Resolved v => Some v | Rejected _ => None end)
  = Some [ ParameterValue "Bar" "Bar" ].
Proof. vm_compute. reflexivity. Qed.

Example default_can_still_be_dirty :
  hasChangesOf (supplyAll [ ("Foo", ordinary (Some "Foo")) ] []) {[ "Foo" := "NonStandard" ]}
  = Some Changes
  /\ hasChangesOf (supplyAll [ ("Foo", ordinary (Some "Foo")) ] []) {[ "Foo" := "Foo" ]}
     = Some NoChanges.
Proof. split; vm_compute; reflexivity. Qed.

Import ParametersVocabulary.

Lemma field_of_In {A : Type} (l : list (string * A)) (k : string) (x : A) :
  List.NoDup (List.map fst l) -> List.In (k, x) l -> Importer.field k l = Some x.
Proof.
  induction l as [ | [k' x'] l IH ]; intros Hnd Hin; [ destruct Hin | ].
  cbn [List.map fst] in Hnd. inversion Hnd as [ | ? ? Hfresh Hnd' ]; subst.
  cbn [Importer.field]. destruct Hin as [[= -> ->] | Hin].
  - rewrite String.eqb_refl. reflexivity.
  - destruct (String.eqb k' k) eqn:Hk; [ | exact (IH Hnd' Hin) ].
    apply String.eqb_eq in Hk. subst k'. exfalso. apply Hfresh.
    apply List.in_map_iff. exists (k, x). split; [ reflexivity | exact Hin ].
Qed.

Lemma In_of_field {A : Type} (l : list (string * A)) (k : string) (x : A) :
  Importer.field k l = Some x -> List.In (k, x) l.
Proof.
  induction l as [ | [k' x'] l IH ]; cbn [Importer.field]; [ discriminate | ].
  destruct (String.eqb k' k) eqn:Hk.
  - apply String.eqb_eq in Hk. subst k'. intros [= ->]. left. reflexivity.
  - intros H. right. exact (IH H).
Qed.

Lemma field_declared {A : Type} (l : list (string * A)) (k : string) :
  Importer.field k l = None <-> ~ List.In k (List.map fst l).
Proof.
  induction l as [ | [k' x'] l IH ]; cbn [Importer.field List.map fst List.In].
  - tauto.
  - destruct (String.eqb k' k) eqn:Hk.
    + apply String.eqb_eq in Hk. split; [ discriminate | intros H; destruct H; auto ].
    + apply String.eqb_neq in Hk. rewrite IH. tauto.
Qed.

Lemma supplied_override (updates : list (string * option string)) (key value : string) :
  List.NoDup (List.map fst updates) ->
  List.In (key, Some value) updates -> supplied updates key = Some value.
Proof.
  intros Hnd Hin. unfold supplied. rewrite (field_of_In _ _ _ Hnd Hin). reflexivity.
Qed.

Lemma supplied_nothing (updates : list (string * option string)) (key : string) :
  (forall value, ~ List.In (key, Some value) updates) -> supplied updates key = None.
Proof.
  intros Hnone. unfold supplied.
  destruct (Importer.field key updates) as [[value | ] | ] eqn:Hfield; try reflexivity.
  destruct (Hnone value (In_of_field _ _ _ Hfield)).
Qed.

Lemma supplied_listed (updates : list (string * option string)) (key value : string) :
  supplied updates key = Some value -> List.In (key, Some value) updates.
Proof.
  unfold supplied. destruct (Importer.field key updates) as [given | ] eqn:Hfield;
    [ | discriminate ].
  intros ->. exact (In_of_field _ _ _ Hfield).
Qed.

Lemma about_app (key : string) (l1 l2 : list ApiParameter) :
  about key (l1 ++ l2) = about key l1 ++ about key l2.
Proof. unfold about. apply List.filter_app. Qed.

(** One round of the loop over the declared parameters. *)
Lemma resolve_step (updates : list (string * option string))
    (previousValues : gmap string string) (acc : Resolving)
    (k0 : string) (p0 : TemplateParameter) (k : string) :
  let acc1 := resolve updates previousValues acc (k0, p0) in
  r_values acc1 !! k
  = (if String.eqb k0 k
     then match in_force updates previousValues k0 p0 with
          | Some value => Some value
          | None => r_values acc !! k
          end
     else r_values acc !! k)
  /\ about k (r_api acc1)
     = about k (r_api acc) ++ (if String.eqb k0 k then entry updates previousValues k0 else [])
  /\ (List.In k (missingRequired acc1)
      <-> List.In k (missingRequired acc)
          \/ (k0 = k /\ in_force updates previousValues k0 p0 = None)).
Proof.
  cbv zeta. unfold resolve, in_force, entry. cbn [fst snd].
  assert (forall value, <[k0 := value]> (r_values acc) !! k
                        = if String.eqb k0 k then Some value else r_values acc !! k) as Hins.
  { intros value. destruct (String.eqb k0 k) eqn:Hk.
    - apply String.eqb_eq in Hk. subst k. apply lookup_insert_eq.
    - apply String.eqb_neq in Hk. apply lookup_insert_ne, Hk. }
  assert (forall a, ParameterKey a = k0 ->
                    about k (r_api acc ++ [a])
                    = about k (r_api acc) ++ (if String.eqb k0 k then [a] else [])) as Hone.
  { intros a Ha. rewrite about_app. f_equal. unfold about. cbn [List.filter]. rewrite Ha.
    destruct (String.eqb k0 k); reflexivity. }
  destruct (supplied updates k0) as [value | ].
  { cbn [r_values r_api missingRequired]. rewrite Hins, Hone by reflexivity.
    split; [ reflexivity | split; [ reflexivity | ] ].
    split; [ tauto | intros [H | [_ H]]; [ exact H | discriminate ] ]. }
  destruct (previousValues !! k0) as [previous | ].
  { cbn [r_values r_api missingRequired]. rewrite Hins, Hone by reflexivity.
    split; [ reflexivity | split; [ reflexivity | ] ].
    split; [ tauto | intros [H | [_ H]]; [ exact H | discriminate ] ]. }
  destruct (Default p0) as [default | ]; cbn [r_values r_api missingRequired].
  - rewrite Hins. split; [ reflexivity | ].
    split; [ destruct (String.eqb k0 k); rewrite app_nil_r; reflexivity | ].
    split; [ tauto | intros [H | [_ H]]; [ exact H | discriminate ] ].
  - split; [ destruct (String.eqb k0 k); reflexivity | ].
    split; [ destruct (String.eqb k0 k); rewrite app_nil_r; reflexivity | ].
    rewrite List.in_app_iff. cbn [List.In]. intuition.
Qed.

(** The loop over the declared parameters. *)
Lemma resolve_loop (updates : list (string * option string))
    (previousValues : gmap string string) (formal : list (string * TemplateParameter)) :
  forall acc,
    List.NoDup (List.map fst formal) ->
    (forall k, ~ List.In k (List.map fst formal) ->
       r_values (fold_left (resolve updates previousValues) formal acc) !! k
       = r_values acc !! k
       /\ about k (r_api (fold_left (resolve updates previousValues) formal acc))
          = about k (r_api acc))
    /\ (forall k p, List.In (k, p) formal ->
          r_values (fold_left (resolve updates previousValues) formal acc) !! k
          = match in_force updates previousValues k p with
            | Some value => Some value
            | None => r_values acc !! k
            end
          /\ about k (r_api (fold_left (resolve updates previousValues) formal acc))
             = about k (r_api acc) ++ entry updates previousValues k)
    /\ (forall k,
          List.In k (missingRequired (fold_left (resolve updates previousValues) formal acc))
          <-> List.In k (missingRequired acc)
              \/ exists p, List.In (k, p) formal
                           /\ in_force updates previousValues k p = None).
Proof.
  induction formal as [ | [k0 p0] formal IH ]; intros acc Hnd; cbn [fold_left].
  - split; [ intros k _; split; reflexivity | ].
    split; [ intros k p [] | ].
    intros k. split; [ tauto | intros [H | (p & [] & _)]; exact H ].
  - cbn [List.map fst] in Hnd. inversion Hnd as [ | ? ? Hfresh Hnd' ]; subst.
    destruct (IH (resolve updates previousValues acc (k0, p0)) Hnd')
      as (Hother & Hdeclared & Hmissing).
    split; [ | split ].
    + intros k Hk. cbn [List.map fst List.In] in Hk.
      destruct (Hother k ltac:(tauto)) as [Hv Ha].
      destruct (resolve_step updates previousValues acc k0 p0 k) as (Hv1 & Ha1 & _).
      assert (String.eqb k0 k = false) as Hne by (apply String.eqb_neq; tauto).
      rewrite Hne in Hv1, Ha1. rewrite app_nil_r in Ha1.
      split; congruence.
    + intros k p [[= -> ->] | Hin].
      * destruct (Hother k Hfresh) as [Hv Ha].
        destruct (resolve_step updates previousValues acc k p k) as (Hv1 & Ha1 & _).
        rewrite String.eqb_refl in Hv1, Ha1. split; congruence.
      * destruct (Hdeclared k p Hin) as [Hv Ha].
        destruct (resolve_step updates previousValues acc k0 p0 k) as (Hv1 & Ha1 & _).
        assert (String.eqb k0 k = false) as Hne.
        { apply String.eqb_neq. intros ->. apply Hfresh.
          apply List.in_map_iff. exists (k, p). split; [ reflexivity | exact Hin ]. }
        rewrite Hne in Hv1, Ha1. rewrite app_nil_r in Ha1.
        rewrite Hv, Ha, Hv1, Ha1. split; reflexivity.
    + intros k. rewrite Hmissing.
      destruct (resolve_step updates previousValues acc k0 p0 k) as (_ & _ & Hm1).
      rewrite Hm1. split.
      * intros [[Hx | [-> Hx]] | (p & Hin & Hx)].
        -- left. exact Hx.
        -- right. exists p0. split; [ left; reflexivity | exact Hx ].
        -- right. exists p. split; [ right; exact Hin | exact Hx ].
      * intros [Hx | (p & [[= -> ->] | Hin] & Hx)].
        -- left. left. exact Hx.
        -- left. right. split; [ reflexivity | exact Hx ].
        -- right. exists p. split; assumption.
Qed.

Lemma unexpected_undeclared (formal : list (string * TemplateParameter))
    (updates : list (string * option string)) (k value : string) :
  List.In (k, value) (unexpected formal updates) -> Importer.field k formal = None.
Proof.
  unfold unexpected. rewrite List.in_flat_map. intros ([k' given] & _ & Hin).
  cbn [fst snd] in Hin.
  destruct (Importer.field k' formal) eqn:Hfield; [ destruct Hin | ].
  destruct given as [v | ]; [ | destruct Hin ].
  destruct (truthy_string v); [ | destruct Hin ].
  destruct Hin as [[= -> ->] | []]. exact Hfield.
Qed.

Lemma passed_on_values (extra : list (string * string)) (k : string) :
  forall base : gmap string string,
    ~ List.In k (List.map fst extra) ->
    fold_left (fun vs kv => <[fst kv := snd kv]> vs) extra base !! k = base !! k.
Proof.
  induction extra as [ | [k' v'] extra IH ]; intros base Hk; cbn [fold_left]; [ reflexivity | ].
  cbn [List.map fst List.In snd] in *. rewrite IH by tauto.
  apply lookup_insert_ne. tauto.
Qed.

Lemma passed_on_entries (extra : list (string * string)) (k : string) :
  ~ List.In k (List.map fst extra) ->
  about k (List.map (fun kv => ParameterValue (fst kv) (snd kv)) extra) = [].
Proof.
  induction extra as [ | [k' v'] extra IH ]; intros Hk; [ reflexivity | ].
  cbn [List.map fst snd List.In] in *. unfold about in *. cbn [List.filter ParameterKey].
  assert (String.eqb k' k = false) as -> by (apply String.eqb_neq; tauto).
  apply IH. tauto.
Qed.

(** The outcome of the resolution, for one declared parameter. *)
Lemma resolveAll_declared (formal : list (string * TemplateParameter))
    (updates : list (string * option string)) (previousValues : gmap string string)
    (key : string) (p : TemplateParameter) :
  List.NoDup (List.map fst formal) ->
  List.In (key, p) formal ->
  (forall r, resolveAll formal updates previousValues = Resolved r ->
     formalParams r = formal
     /\ values r !! key = in_force updates previousValues key p
     /\ about key (apiParameters r) = entry updates previousValues key
     /\ is_Some (in_force updates previousValues key p))
  /\ (in_force updates previousValues key p = None ->
      exists names,
        resolveAll formal updates previousValues
        = Rejected (ToolkitError
                      ("The following CloudFormation Parameters are missing a value: "
                       +:+ join ", " names))
        /\ List.In key names)
  /\ ((exists r, resolveAll formal updates previousValues = Resolved r)
      <-> forall k q, List.In (k, q) formal ->
                      is_Some (in_force updates previousValues k q)).
Proof.
  intros Hnd Hin. unfold resolveAll. cbv zeta.
  destruct (resolve_loop updates previousValues formal
              {| r_values := ∅; r_api := []; missingRequired := [] |} Hnd)
    as (_ & Hdeclared & Hmissing).
  set (declared := fold_left (resolve updates previousValues) formal _) in *.
  cbn [r_values r_api missingRequired] in *.
  assert (missingRequired declared = []
          <-> forall k q, List.In (k, q) formal ->
                          is_Some (in_force updates previousValues k q)) as Hcomplete.
  { split.
    - intros Hnone k q Hkq.
      destruct (in_force updates previousValues k q) as [value | ] eqn:Hforce; [ eauto | ].
      assert (List.In k (missingRequired declared)) as Hk.
      { apply Hmissing. right. exists q. split; assumption. }
      rewrite Hnone in Hk. destruct Hk.
    - intros Hall. destruct (missingRequired declared) as [ | k rest ] eqn:Hlist;
        [ reflexivity | ].
      destruct (proj1 (Hmissing k) (or_introl eq_refl)) as [[] | (q & Hkq & Hforce)].
      destruct (Hall k q Hkq) as [value Hvalue]. congruence. }
  assert (~ List.In key (List.map fst (unexpected formal updates))) as Hkey.
  { intros Hk. apply List.in_map_iff in Hk as ([k value] & Heq & Hk). cbn [fst] in Heq.
    subst k. apply unexpected_undeclared in Hk. apply field_declared in Hk. apply Hk.
    apply List.in_map_iff. exists (key, p). split; [ reflexivity | exact Hin ]. }
  destruct (Hdeclared key p Hin) as [Hvalue Hentry].
  rewrite lookup_empty in Hvalue. cbn [about List.filter app] in Hentry.
  split; [ | split ].
  - intros r. destruct (missingRequired declared) as [ | k rest ] eqn:Hlist;
      cbn [length Nat.ltb Nat.leb]; [ | discriminate ].
    intros [= <-]. cbn [formalParams values apiParameters].
    assert (is_Some (in_force updates previousValues key p)) as [value Hforce].
    { apply Hcomplete; [ reflexivity | exact Hin ]. }
    split; [ reflexivity | ].
    split; [ rewrite passed_on_values by exact Hkey; rewrite Hvalue, Hforce; reflexivity | ].
    split; [ | eauto ].
    rewrite about_app, passed_on_entries by exact Hkey. rewrite app_nil_r. exact Hentry.
  - intros Hforce. exists (missingRequired declared).
    assert (List.In key (missingRequired declared)) as Hk.
    { apply Hmissing. right. exists p. split; assumption. }
    split; [ | exact Hk ].
    destruct (missingRequired declared); [ destruct Hk | reflexivity ].
  - rewrite <- Hcomplete. destruct (missingRequired declared) as [ | k rest ];
      cbn [length Nat.ltb Nat.leb].
    + split; [ reflexivity | intros _; eexists; reflexivity ].
    + split; [ intros [r Hr]; discriminate | discriminate ].
Qed.

(** What [hasChanges] answers. *)
Lemma hasChanges_answers (v : ParameterValues) (currentValues : gmap string string) :
  (hasChanges v currentValues = SsmChanges
   <-> exists k q, List.In (k, q) (formalParams v)
                   /\ fromParameterStore q = true /\ noInvalidate q = false)
  /\ (hasChanges v currentValues = NoChanges
      <-> (forall k q, List.In (k, q) (formalParams v) ->
                       fromParameterStore q = true -> noInvalidate q = true)
          /\ forall k, values v !! k = currentValues !! k).
Proof.
  unfold hasChanges.
  destruct (existsb _ (formalParams v)) eqn:Hstore.
  { apply List.existsb_exists in Hstore as ([k q] & Hin & Hq). cbn [snd] in Hq.
    apply andb_true_iff in Hq as [Hs Hm]. apply negb_true_iff in Hm.
    split.
    - split; [ intros _; exists k, q; auto | reflexivity ].
    - split; [ discriminate | ]. intros [Hall _]. specialize (Hall k q Hin Hs). congruence. }
  assert (forall k q, List.In (k, q) (formalParams v) ->
                      fromParameterStore q = true -> noInvalidate q = true) as Hmarked.
  { intros k q Hin Hs. destruct (noInvalidate q) eqn:Hm; [ reflexivity | ].
    assert (existsb (fun kp => fromParameterStore (snd kp) && negb (noInvalidate (snd kp)))
                    (formalParams v) = true) as Hyes.
    { apply List.existsb_exists. exists (k, q). split; [ exact Hin | ].
      cbn [snd]. rewrite Hs, Hm. reflexivity. }
    congruence. }
  assert (~ exists k q, List.In (k, q) (formalParams v)
                        /\ fromParameterStore q = true /\ noInvalidate q = false) as Hno.
  { intros (k & q & Hin & Hs & Hm). specialize (Hmarked k q Hin Hs). congruence. }
  destruct (existsb _ (map_to_list currentValues)) eqn:Hgone.
  { apply List.existsb_exists in Hgone as ([k value] & Hin & Hk). cbn [fst snd] in Hk.
    apply negb_true_iff, bool_decide_eq_false in Hk.
    apply list_elem_of_In, elem_of_map_to_list in Hin.
    split; [ split; [ discriminate | tauto ] | ].
    split; [ discriminate | ]. intros [_ Hsame]. exfalso. apply Hk. rewrite Hsame. exact Hin. }
  destruct (existsb _ (map_to_list (values v))) eqn:Hnew.
  { apply List.existsb_exists in Hnew as ([k value] & Hin & Hk). cbn [fst snd] in Hk.
    apply negb_true_iff, bool_decide_eq_false in Hk.
    apply list_elem_of_In, elem_of_map_to_list in Hin.
    split; [ split; [ discriminate | tauto ] | ].
    split; [ discriminate | ]. intros [_ Hsame]. exfalso. apply Hk. rewrite <- Hsame. eauto. }
  split; [ split; [ discriminate | tauto ] | ].
  split; [ intros _ | reflexivity ]. split; [ exact Hmarked | ].
  intros k. destruct (currentValues !! k) as [value | ] eqn:Hcurrent.
  - destruct (decide (values v !! k = Some value)) as [Hsame | Hdiff]; [ exact Hsame | ].
    assert (existsb (fun kv => negb (bool_decide (values v !! fst kv = Some (snd kv))))
                    (map_to_list currentValues) = true) as Hyes.
    { apply List.existsb_exists. exists (k, value).
      split; [ apply list_elem_of_In, elem_of_map_to_list, Hcurrent | ].
      cbn [fst snd]. apply negb_true_iff, bool_decide_eq_false. exact Hdiff. }
    congruence.
  - destruct (values v !! k) as [value | ] eqn:Hvalue; [ | reflexivity ].
    assert (existsb (fun kv => negb (bool_decide (is_Some (currentValues !! fst kv))))
                    (map_to_list (values v)) = true) as Hyes.
    { apply List.existsb_exists. exists (k, value).
      split; [ apply list_elem_of_In, elem_of_map_to_list, Hvalue | ].
      cbn [fst]. apply negb_true_iff, bool_decide_eq_false. rewrite Hcurrent.
      intros [x Hx]. discriminate. }
    congruence.
Qed.

Lemma in_force_sources (updates : list (string * option string))
    (previousValues : gmap string string) (k : string) (q : TemplateParameter) :
  List.NoDup (List.map fst updates) ->
  is_Some (in_force updates previousValues k q)
  <-> (exists value, List.In (k, Some value) updates)
      \/ is_Some (previousValues !! k) \/ is_Some (Default q).
Proof.
  intros Hnd. unfold in_force.
  destruct (supplied updates k) as [value | ] eqn:Hsupplied.
  - split; [ intros _; left; exists value; apply supplied_listed, Hsupplied | eauto ].
  - assert (~ exists value, List.In (k, Some value) updates) as Hnone.
    { intros [value Hin]. rewrite (supplied_override _ _ _ Hnd Hin) in Hsupplied.
      discriminate. }
    destruct (previousValues !! k) as [previous | ].
    + split; [ intros _; right; left; eauto | eauto ].
    + split; [ intros H; right; right; exact H | ].
      intros [H | [[x Hx] | H]]; [ destruct (Hnone H) | discriminate | exact H ].
Qed.

(** C1 (as amended): for every parameter a template declares, an
    override (the empty string included) is always sent and is the value
    in force, and it makes the parameter set count as changed when it
    differs from the previous value or there is none; with no override
    but a previous value, UsePreviousValue is sent and the previous value
    stays in force; with no override and no previous value but a default,
    nothing is sent for the parameter, the default is in force and the
    set counts as changed; with none of the three, the resolution fails
    with the "missing a value" error, which names the parameter.  The
    resolution succeeds exactly when every declared parameter has one of
    the three.  The set counts as changed ('ssm') when a declared
    parameter is sourced from the parameter store and lacks the
    no-invalidate marker, and otherwise exactly when a value in force
    differs from the previous one. *)
Theorem parameter_resolution_table
    (formal : list (string * TemplateParameter))
    (updates : list (string * option string)) (previousValues : gmap string string)
    (key : string) (p : TemplateParameter)
    (Hformal : List.NoDup (List.map fst formal))
    (Hupdates : List.NoDup (List.map fst updates))
    (Hdeclared : List.In (key, p) formal) :
  let outcome := updateExisting formal updates previousValues in
  let sent r := List.filter (fun a => String.eqb (ParameterKey a) key) (apiParameters r) in
  (forall value, List.In (key, Some value) updates ->
     forall r, outcome = Resolved r ->
       sent r = [ParameterValue key value]
       /\ values r !! key = Some value
       /\ (previousValues !! key <> Some value -> hasChanges r previousValues <> NoChanges))
  /\ ((forall value, ~ List.In (key, Some value) updates) ->
      (forall old, previousValues !! key = Some old ->
         forall r, outcome = Resolved r ->
           sent r = [UsePreviousValue key] /\ values r !! key = Some old)
      /\ (previousValues !! key = None ->
          forall default, Default p = Some default ->
            forall r, outcome = Resolved r ->
              sent r = [] /\ values r !! key = Some default
              /\ hasChanges r previousValues <> NoChanges)
      /\ (previousValues !! key = None -> Default p = None ->
          exists names,
            outcome
            = Rejected (ToolkitError
                          ("The following CloudFormation Parameters are missing a value: "
                           +:+ join ", " names))
            /\ List.In key names))
  /\ ((exists r, outcome = Resolved r)
      <-> forall k q, List.In (k, q) formal ->
            (exists value, List.In (k, Some value) updates)
            \/ is_Some (previousValues !! k) \/ is_Some (Default q))
  /\ (forall r, outcome = Resolved r ->
        (hasChanges r previousValues = SsmChanges
         <-> exists k q, List.In (k, q) formal
                         /\ fromParameterStore q = true /\ noInvalidate q = false)
        /\ (hasChanges r previousValues = NoChanges
            <-> (forall k q, List.In (k, q) formal ->
                             fromParameterStore q = true -> noInvalidate q = true)
                /\ forall k, values r !! k = previousValues !! k)).
Proof.
  cbv zeta. unfold updateExisting.
  destruct (resolveAll_declared formal updates previousValues key p Hformal Hdeclared)
    as (Hresolved & Hmissing & Hwhen).
  fold (about key) in *. unfold in_force, entry in Hresolved, Hmissing.
  split; [ | split; [ | split ] ].
  - intros value Hin r Hr. destruct (Hresolved r Hr) as (_ & Hvalue & Hentry & _).
    rewrite (supplied_override _ _ _ Hupdates Hin) in Hvalue, Hentry.
    split; [ exact Hentry | split; [ exact Hvalue | ] ].
    intros Hdiffers Hsame. apply (hasChanges_answers r previousValues) in Hsame as [_ Hsame].
    apply Hdiffers. rewrite <- Hsame. exact Hvalue.
  - intros Hnone. pose proof (supplied_nothing _ _ Hnone) as Hsupplied.
    rewrite Hsupplied in Hresolved, Hmissing. split; [ | split ].
    + intros old Hold r Hr. destruct (Hresolved r Hr) as (_ & Hvalue & Hentry & _).
      rewrite Hold in Hvalue, Hentry. split; assumption.
    + intros Hprevious default Hdefault r Hr.
      destruct (Hresolved r Hr) as (_ & Hvalue & Hentry & _).
      rewrite Hprevious in Hvalue, Hentry. rewrite Hdefault in Hvalue.
      split; [ exact Hentry | split; [ exact Hvalue | ] ].
      intros Hsame. apply (hasChanges_answers r previousValues) in Hsame as [_ Hsame].
      specialize (Hsame key). congruence.
    + intros Hprevious Hdefault. apply Hmissing. rewrite Hprevious. exact Hdefault.
  - rewrite Hwhen. split; intros Hall k q Hkq.
    + apply (in_force_sources _ _ _ _ Hupdates), Hall, Hkq.
    + apply (in_force_sources _ _ _ _ Hupdates), Hall, Hkq.
  - intros r Hr. destruct (Hresolved r Hr) as (Hgiven & _).
    pose proof (hasChanges_answers r previousValues) as Hanswers.
    rewrite Hgiven in Hanswers. exact Hanswers.
Qed.

(** The parameter of the test file, with a default, a previous value and
    an override. *)
Lemma parameter_resolution_table_witness :
  (exists r, updateExisting [ (PARAM, ordinary (Some DEFAULT)) ] [ (PARAM, Some OVERRIDE) ]
                            {[ PARAM := "Foo" ]} = Resolved r)
  <-> forall k q, List.In (k, q) [ (PARAM, ordinary (Some DEFAULT)) ] ->
        (exists value, List.In (k, Some value) [ (PARAM, Some OVERRIDE) ])
        \/ is_Some (({[ PARAM := "Foo" ]} : gmap string string) !! k) \/ is_Some (Default q).
Proof.
  refine (proj1 (proj2 (proj2
            (parameter_resolution_table [ (PARAM, ordinary (Some DEFAULT)) ]
               [ (PARAM, Some OVERRIDE) ] {[ PARAM := "Foo" ]} PARAM (ordinary (Some DEFAULT))
               _ _ _)))).
  - repeat constructor. intros [].
  - repeat constructor. intros [].
  - left. reflexivity.
Defined.

(** C1 as stated fails.  An override that repeats the previous value is
    sent, and the parameter set does not count as changed.  And a
    parameter from the parameter store that lacks the marker makes the
    set count as changed although its previous value is kept. *)
Lemma parameter_resolution_table_counterexample :
  (exists r,
     updateExisting [ (PARAM, ordinary None) ] [ (PARAM, Some "Foo") ] {[ PARAM := "Foo" ]}
     = Resolved r
     /\ apiParameters r = [ ParameterValue PARAM "Foo" ]
     /\ hasChanges r {[ PARAM := "Foo" ]} = NoChanges)
  /\ (exists r,
        updateExisting (storeTemplate false) [] oldValues = Resolved r
        /\ apiParameters r = [ UsePreviousValue "Foo" ]
        /\ hasChanges r oldValues = SsmChanges).
Proof.
  split; eexists; (split; [ vm_compute; reflexivity | ]); split; vm_compute; reflexivity.
Qed.

(** C8 (as amended): a declared parameter that is sourced from the
    parameter store and lacks the no-invalidate marker makes the
    parameter set count as changed ('ssm') whatever is supplied, also
    when the value supplied is the previous one.  For one that carries
    the marker, the value in force equals the previous value exactly
    when there is a previous value and no other value is supplied; and
    when every store-sourced parameter carries the marker, the set counts
    as changed exactly when some value in force differs from the
    previous one, which includes a parameter that had no previous
    value. *)
Theorem store_parameter_changed
    (formal : list (string * TemplateParameter))
    (updates : list (string * option string)) (previousValues : gmap string string)
    (key : string) (p : TemplateParameter)
    (Hformal : List.NoDup (List.map fst formal))
    (Hupdates : List.NoDup (List.map fst updates))
    (Hdeclared : List.In (key, p) formal)
    (Hstore : fromParameterStore p = true) :
  let outcome := updateExisting formal updates previousValues in
  (noInvalidate p = false ->
     forall r currentValues, outcome = Resolved r -> hasChanges r currentValues = SsmChanges)
  /\ (noInvalidate p = true ->
      forall r, outcome = Resolved r ->
        (values r !! key = previousValues !! key
         <-> exists old, previousValues !! key = Some old
                         /\ ((forall value, ~ List.In (key, Some value) updates)
                             \/ List.In (key, Some old) updates))
        /\ ((forall k q, List.In (k, q) formal ->
                         fromParameterStore q = true -> noInvalidate q = true) ->
            hasChanges r previousValues <> SsmChanges
            /\ (hasChanges r previousValues = NoChanges
                <-> forall k, values r !! k = previousValues !! k))).
Proof.
  cbv zeta. unfold updateExisting.
  destruct (resolveAll_declared formal updates previousValues key p Hformal Hdeclared)
    as (Hresolved & _ & _).
  split.
  - intros Hplain r currentValues Hr. destruct (Hresolved r Hr) as (Hgiven & _).
    apply hasChanges_answers. rewrite Hgiven. exists key, p. auto.
  - intros Hmarker r Hr. destruct (Hresolved r Hr) as (Hgiven & Hvalue & _ & Hsome).
    split.
    + rewrite Hvalue. unfold in_force in *.
      destruct (supplied updates key) as [value | ] eqn:Hsupplied.
      * pose proof (supplied_listed _ _ _ Hsupplied) as Hin. split.
        -- intros Hsame. exists value. split; [ congruence | right; exact Hin ].
        -- intros (old & Hold & [Hnone | Hold']); [ destruct (Hnone value Hin) | ].
           rewrite (supplied_override _ _ _ Hupdates Hold') in Hsupplied. congruence.
      * destruct (previousValues !! key) as [old | ] eqn:Hold.
        -- split; [ intros _ | reflexivity ]. exists old. split; [ reflexivity | left ].
           intros value Hin. rewrite (supplied_override _ _ _ Hupdates Hin) in Hsupplied.
           discriminate.
        -- split; [ intros Hnone; rewrite Hnone in Hsome; destruct Hsome; discriminate | ].
           intros (old & Hx & _). discriminate.
    + intros Hall. pose proof (hasChanges_answers r previousValues) as [Hssm Hnone].
      rewrite Hgiven in Hssm, Hnone. split.
      * intros Hyes. apply Hssm in Hyes as (k & q & Hkq & Hs & Hm).
        specialize (Hall k q Hkq Hs). congruence.
      * rewrite Hnone. tauto.
Qed.

(** The parameter of the tests on store-sourced parameters, with the
    marker, given another value than the previous one. *)
Lemma store_parameter_changed_witness :
  let r := {| formalParams := storeTemplate true;
              values := {[ "Foo" := "/OTHER/Key" ]};
              apiParameters := [ ParameterValue "Foo" "/OTHER/Key" ] |} in
  (values r !! "Foo" = oldValues !! "Foo"
   <-> exists old, oldValues !! "Foo" = Some old
                   /\ ((forall value, ~ List.In ("Foo", Some value) [ ("Foo", Some "/OTHER/Key") ])
                       \/ List.In ("Foo", Some old) [ ("Foo", Some "/OTHER/Key") ]))
  /\ ((forall k q, List.In (k, q) (storeTemplate true) ->
                   fromParameterStore q = true -> noInvalidate q = true) ->
      hasChanges r oldValues <> SsmChanges
      /\ (hasChanges r oldValues = NoChanges <-> forall k, values r !! k = oldValues !! k)).
Proof.
  cbv zeta.
  refine (proj2 (store_parameter_changed (storeTemplate true) [ ("Foo", Some "/OTHER/Key") ]
                   oldValues "Foo"
                   {| Default := Some "/Some/Key"; fromParameterStore := true;
                      noInvalidate := true |} _ _ _ eq_refl) eq_refl _ _).
  - repeat constructor. intros [].
  - repeat constructor. intros [].
  - left. reflexivity.
  - vm_compute. reflexivity.
Defined.

(** C8 as stated fails: a parameter from the parameter store that
    carries the marker and has a default, but no previous value, counts
    as changed although no value is supplied for it. *)
Lemma store_parameter_changed_counterexample :
  exists r,
    updateExisting (storeTemplate true) [] ∅ = Resolved r
    /\ apiParameters r = []
    /\ hasChanges r ∅ = Changes.
Proof.
  eexists. split; [ vm_compute; reflexivity | ]. split; vm_compute; reflexivity.
Qed.

End ParameterClaims.

(* ===================================================================== *)
(** * Further properties of the embedded code *)
(* ===================================================================== *)

(** ** The account cache: reading back, tolerance, fetching *)
Section AccountCacheBehaviour.
Import AccountCache.







(** X3: a write that fails with ENOENT, EACCES or EROFS does not make
    [put] fail; the new entry is then not in the cache: the file holds
    what it held before, or nothing readable. *)
Theorem cache_write_failure_is_swallowed (f : CacheFile) (c : Conditions)
    (key : string) (account : Account) (map : gmap string Account) (e : FsError) :
  loadMap f c = Resolved map ->
  e = ENOENT \/ e = EACCES \/ e = EROFS ->
  ensureFailure c = Some e \/ (ensureFailure c = None /\ writeFailure c = Some e) ->
  fst (put f c key account) = Resolved tt
  /\ (snd (put f c key account) = f \/ snd (put f c key account) = Garbled).
Proof.
  intros Hload Hcode Hwhere. unfold put, saveMap. rewrite Hload. cbv zeta.
  destruct Hwhere as [-> | [-> ->]].
  - destruct Hcode as [-> | [-> | ->]]; cbn; auto.
  - destruct Hcode as [-> | [-> | ->]]; cbn [fst snd];
      (split; [ reflexivity | ]);
      destruct (cutShort c); auto; destruct f; auto.
Qed.

Lemma cache_write_failure_is_swallowed_witness :
  fst (put (Holding ∅)
           {| readFailure := None; ensureFailure := None;
              writeFailure := Some EROFS; cutShort := false |}
           "AKIA1" {| accountId := "42"; partition := "aws" |})
  = Resolved tt.
Proof.
  exact (proj1 (cache_write_failure_is_swallowed (Holding ∅)
                  {| readFailure := None; ensureFailure := None;
                     writeFailure := Some EROFS; cutShort := false |}
                  "AKIA1" {| accountId := "42"; partition := "aws" |} ∅ EROFS
                  eq_refl (or_intror (or_intror eq_refl))
                  (or_intror (conj eq_refl eq_refl)))).
Defined.



End AccountCacheBehaviour.

(** ** Preparing assets: configuration errors, reuse, what reaches the manifest *)
Section AssetBehaviour.
Import Assets AssetsVocabulary.

(** X5: a container-image asset without an image-name parameter and
    without both a repository name and an image tag is refused as invalid
    before the repository is prepared: nothing is logged and no manifest
    is produced. *)
Theorem docker_asset_configuration_error (prepareEcrRepository : string -> Outcome string)
    (toLowerCase : string -> string)
    (asset : ContainerImageAssetMetadataEntry)
    (b : AssetManifestBuilder) (log : list Event) :
  truthy_opt_string (imageNameParameter asset) = false ->
  truthy_opt_string (repositoryName asset) = false
  \/ truthy_opt_string (imageTag asset) = false ->
  prepareDockerImageAsset prepareEcrRepository toLowerCase asset b log
  = (Rejected (ToolkitError invalid_docker_message), log).
Proof.
  intros Hname Hrest. unfold prepareDockerImageAsset. rewrite Hname.
  destruct Hrest as [-> | ->]; cbn [negb andb orb];
    [ | rewrite orb_true_r ]; reflexivity.
Qed.

Lemma dashed_character (id : string) (n : nat) :
  String.get n (dashed id)
  = option_map (fun c => if Ascii.eqb c ":" || Ascii.eqb c "/" then "-"%char else c)
               (String.get n id).
Proof.
  revert n. induction id as [ | c rest IH ]; intros n; [ reflexivity | ].
  cbn [dashed]. destruct n as [ | n ]; cbn [String.get option_map]; [ reflexivity | apply IH ].
Qed.

Lemma dashed_is_clear (id : string) :
  forall_chars clear_of_separators (dashed id) = true.
Proof.
  induction id as [ | c rest IH ]; [ reflexivity | ].
  cbn [dashed forall_chars]. rewrite IH, andb_true_r. unfold clear_of_separators.
  destruct (Ascii.eqb c ":") eqn:Hcolon; [ reflexivity | ].
  destruct (Ascii.eqb c "/") eqn:Hslash; [ reflexivity | ].
  cbn [orb]. rewrite Hcolon, Hslash. reflexivity.
Qed.

(** X6: a container-image asset that names no repository is filed under,
    and has prepared for it, the repository [cdk/<name>], where [<name>]
    is what [toLowerCase] makes of the asset id with each colon and each
    slash replaced by a dash, all other characters kept in place; its tag
    is the given image tag, or else the source hash. *)
Theorem docker_asset_default_repository (prepareEcrRepository : string -> Outcome string)
    (toLowerCase : string -> string)
    (asset : ContainerImageAssetMetadataEntry)
    (b : AssetManifestBuilder) (log : list Event) (uri : string) :
  truthy_opt_string (imageNameParameter asset) = true ->
  repositoryName asset = None ->
  (forall name, prepareEcrRepository name = Resolved uri) ->
  exists cleared params b' source,
    forall_chars clear_of_separators cleared = true
    /\ (forall n, String.get n cleared
                  = option_map (fun c => if Ascii.eqb c ":" || Ascii.eqb c "/"
                                         then "-"%char else c)
                               (String.get n (c_id asset)))
    /\ prepareDockerImageAsset prepareEcrRepository toLowerCase asset b log
       = (Resolved (params, b'),
          log ++ [ PrepareEcrRepository ("cdk/" +:+ toLowerCase cleared) ])
    /\ dockerImages b' !! c_sourceHash asset
       = Some (source, {| dest_repositoryName := "cdk/" +:+ toLowerCase cleared;
                          dest_imageTag := nullish (imageTag asset) (c_sourceHash asset) |}).
Proof.
  intros Hname Hrepo Hecr.
  exists (dashed (c_id asset)).
  unfold prepareDockerImageAsset. rewrite Hname, Hrepo. cbn [negb andb nullish].
  unfold bind, call. rewrite Hecr.
  destruct (imageNameParameter asset) as [p | ]; [ | discriminate Hname ].
  cbn [truthy_opt_string] in Hname. rewrite Hname. unfold ret.
  eexists _, _, _. split; [ apply dashed_is_clear | ].
  split; [ apply dashed_character | ].
  split; [ reflexivity | ]. cbn [addDockerImageAsset dockerImages].
  apply lookup_insert_eq.
Qed.

Lemma docker_asset_default_repository_witness :
  exists cleared params b' source,
    forall_chars clear_of_separators cleared = true
    /\ (forall n, String.get n cleared
                  = option_map (fun c => if Ascii.eqb c ":" || Ascii.eqb c "/"
                                         then "-"%char else c)
                               (String.get n "My/Image:V1"))
    /\ prepareDockerImageAsset (fun _ => Resolved "registry/repo") lower_letters
         (demoImageAsset "My/Image:V1" (Some "ImageParam") None None) emptyManifest []
       = (Resolved (params, b'),
          [] ++ [ PrepareEcrRepository ("cdk/" +:+ lower_letters cleared) ])
    /\ dockerImages b' !! "def456"
       = Some (source, {| dest_repositoryName := "cdk/" +:+ lower_letters cleared;
                          dest_imageTag := "def456" |}).
Proof.
  exact (docker_asset_default_repository (fun _ => Resolved "registry/repo") lower_letters
           (demoImageAsset "My/Image:V1" (Some "ImageParam") None None) emptyManifest []
           "registry/repo" eq_refl eq_refl (fun _ => eq_refl)).
Defined.

Lemma docker_asset_configuration_error_witness :
  prepareDockerImageAsset (fun _ => Resolved "registry/repo") lower_letters
    (demoImageAsset "image" None (Some "repo") None) emptyManifest []
  = (Rejected (ToolkitError invalid_docker_message), []).
Proof.
  exact (docker_asset_configuration_error (fun _ => Resolved "registry/repo") lower_letters
           (demoImageAsset "image" None (Some "repo") None) emptyManifest []
           eq_refl (or_intror eq_refl)).
Defined.

(** The name prepared for the asset id [My/Image:V1]. *)
Example docker_default_repository_name :
  snd (prepareDockerImageAsset (fun _ => Resolved "registry/repo") lower_letters
         (demoImageAsset "My/Image:V1" (Some "ImageParam") None None) emptyManifest [])
  = [ PrepareEcrRepository "cdk/my-image-v1" ].
Proof. vm_compute. reflexivity. Qed.

Lemma prepareAsset_frame extname sep ecr lower asset b t log params b' log' :
  prepareAsset extname sep ecr lower asset b t log = (Resolved (params, b'), log') ->
  (forall h, assetSourceHash asset <> Some h ->
     files b' !! h = files b !! h /\ dockerImages b' !! h = dockerImages b !! h)
  /\ (forall h, is_Some (files b !! h) -> is_Some (files b' !! h))
  /\ (forall h, is_Some (dockerImages b !! h) -> is_Some (dockerImages b' !! h))
  /\ match asset with
     | FileAsset a => is_Some (files b' !! f_sourceHash a)
     | ContainerImageAsset a => is_Some (dockerImages b' !! c_sourceHash a)
     | UnknownAsset _ _ => True
     end.
Proof.
  destruct asset as [a | a | id packaging]; cbn [prepareAsset assetSourceHash].
  - destruct (prepareFileAsset_entry extname sep a b t
                (match f_packaging a with zip => ZIP_DIRECTORY | file => FILE end) log)
      as (params0 & log0 & ->).
    intros [= <- <- <-]. cbn [addFileAsset files dockerImages].
    split; [ | split; [ | split ] ].
    + intros h Hh. split; [ | reflexivity ].
      apply lookup_insert_ne. congruence.
    + intros h Hsome. apply lookup_insert_is_Some'. right. exact Hsome.
    + intros h Hsome. exact Hsome.
    + rewrite lookup_insert_eq. eauto.
  - unfold prepareDockerImageAsset.
    destruct (negb (truthy_opt_string (imageNameParameter a)) && _);
      [ discriminate | ].
    cbv zeta. unfold bind, call.
    destruct (ecr _) as [uri | e]; [ | discriminate ].
    assert (forall out : list (string * string) * AssetManifestBuilder,
              snd out = addDockerImageAsset b (c_sourceHash a)
                 {| directory := c_path a;
                    dockerBuildArgs := buildArgs a;
                    dockerBuildTarget := target a;
                    dockerFileName := dockerFile a |}
                 {| dest_repositoryName := nullish (repositoryName a)
                                             ("cdk/" +:+ lower (dashed (c_id a)));
                    dest_imageTag := nullish (imageTag a) (c_sourceHash a) |} ->
              out = (params, b') ->
              (forall h, Some (c_sourceHash a) <> Some h ->
                 files b' !! h = files b !! h /\ dockerImages b' !! h = dockerImages b !! h)
              /\ (forall h, is_Some (files b !! h) -> is_Some (files b' !! h))
              /\ (forall h, is_Some (dockerImages b !! h) -> is_Some (dockerImages b' !! h))
              /\ is_Some (dockerImages b' !! c_sourceHash a)) as Hout.
    { intros out Hsnd ->. cbn [snd] in Hsnd. subst b'.
      cbn [addDockerImageAsset files dockerImages].
      split; [ | split; [ | split ] ].
      - intros h Hh. split; [ reflexivity | ]. apply lookup_insert_ne. congruence.
      - intros h Hsome. exact Hsome.
      - intros h Hsome. apply lookup_insert_is_Some'. right. exact Hsome.
      - rewrite lookup_insert_eq. eauto. }
    destruct (imageNameParameter a) as [p | ];
      [ destruct (truthy_string p) | ]; unfold ret;
      intros [= Hparams Hb Hlog]; eapply Hout; try reflexivity;
      rewrite <- Hb; reflexivity.
  - unfold throw. discriminate.
Qed.

Lemma prepareAll_spec extname sep ecr lower stringify hasAssembly t reuse assets :
  forall params b log params' b' log',
  prepareAll extname sep ecr lower stringify assets reuse hasAssembly t params b log
  = (Resolved (params', b'), log') ->
  (forall h,
     (forall asset, List.In asset assets -> assetSourceHash asset = Some h ->
                    reused reuse asset = true) ->
     files b' !! h = files b !! h /\ dockerImages b' !! h = dockerImages b !! h)
  /\ (forall h, is_Some (files b !! h) -> is_Some (files b' !! h))
  /\ (forall h, is_Some (dockerImages b !! h) -> is_Some (dockerImages b' !! h))
  /\ (forall asset, List.In asset assets -> reused reuse asset = false ->
        match asset with
        | FileAsset a => is_Some (files b' !! f_sourceHash a)
        | ContainerImageAsset a => is_Some (dockerImages b' !! c_sourceHash a)
        | UnknownAsset _ _ => False
        end).
Proof.
  induction assets as [ | asset rest IH ]; intros params b log params' b' log';
    cbn [prepareAll].
  - unfold ret. intros [= <- <- <-].
    split; [ intros h _; split; reflexivity | ].
    split; [ intros h H; exact H | ].
    split; [ intros h H; exact H | ].
    intros asset [].
  - fold (reused reuse asset). destruct (reused reuse asset) eqn:Hreused.
    + unfold bind at 1. unfold emit at 1. intros Hrun.
      destruct (IH _ _ _ _ _ _ Hrun) as (Hframe & Hfiles & Himages & Hin).
      split; [ | split; [ exact Hfiles | split; [ exact Himages | ] ] ].
      * intros h Hh. apply Hframe. intros a Ha. apply Hh. right. exact Ha.
      * intros a [<- | Ha] Hnot; [ congruence | apply Hin; assumption ].
    + unfold bind at 1. unfold emit at 1.
      destruct hasAssembly; cbn [negb]; [ | unfold throw; discriminate ].
      unfold bind at 1.
      destruct (prepareAsset extname sep ecr lower asset b t _) as [[[added b1] | e] log1]
        eqn:Hone; [ | discriminate ].
      intros Hrun.
      destruct (prepareAsset_frame _ _ _ _ _ _ _ _ _ _ _ Hone)
        as (Hframe1 & Hfiles1 & Himages1 & Hin1).
      destruct (IH _ _ _ _ _ _ Hrun) as (Hframe & Hfiles & Himages & Hin).
      split; [ | split; [ | split ] ].
      * intros h Hh.
        assert (assetSourceHash asset <> Some h) as Hne.
        { intros Heq. specialize (Hh asset (or_introl eq_refl) Heq). congruence. }
        destruct (Hframe1 h Hne) as [Hf1 Hd1].
        destruct (Hframe h (fun a Ha => Hh a (or_intror Ha))) as [Hf Hd].
        split; congruence.
      * intros h H. apply Hfiles, Hfiles1, H.
      * intros h H. apply Himages, Himages1, H.
      * intros a [<- | Ha] Hnot; [ | apply Hin; assumption ].
        destruct asset as [fa | ca | id packaging].
        -- apply Hfiles, Hin1.
        -- apply Himages, Hin1.
        -- cbn [prepareAsset] in Hone. unfold throw in Hone. discriminate.
Qed.

(** X7: when [addMetadataAssetsToManifest] succeeds, the manifest entries
    under a source hash are untouched if every asset with that hash is on
    the reuse list; entries that were there before, file entries and
    image entries alike, are still there; and
    every asset that is not on the reuse list has an entry under its
    source hash, a file entry or an image entry according to its kind. *)
Theorem assets_reach_the_manifest
    (extname : string -> string) (sep : string) (lookupToolkit : Outcome ToolkitInfo)
    (ecr : string -> Outcome string) (lower : string -> string)
    (stringify : AssetMetadataEntry -> string)
    (blue : string -> string)
    (assets : list AssetMetadataEntry) (hasAssembly : bool) (environmentName : string)
    (b : AssetManifestBuilder) (reuse : option (list string))
    (params : gmap string string) (b' : AssetManifestBuilder) (log' : list Event) :
  run (addMetadataAssetsToManifest extname sep lookupToolkit ecr lower stringify blue
         assets hasAssembly environmentName b reuse)
  = (Resolved (params, b'), log') ->
  (forall h,
     (forall asset, List.In asset assets -> assetSourceHash asset = Some h ->
                    reused (nullish reuse []) asset = true) ->
     files b' !! h = files b !! h /\ dockerImages b' !! h = dockerImages b !! h)
  /\ (forall h, is_Some (files b !! h) -> is_Some (files b' !! h))
  /\ (forall h, is_Some (dockerImages b !! h) -> is_Some (dockerImages b' !! h))
  /\ (forall asset, List.In asset assets -> reused (nullish reuse []) asset = false ->
        match asset with
        | FileAsset a => is_Some (files b' !! f_sourceHash a)
        | ContainerImageAsset a => is_Some (dockerImages b' !! c_sourceHash a)
        | UnknownAsset _ _ => False
        end).
Proof.
  unfold run, addMetadataAssetsToManifest. cbv zeta.
  destruct assets as [ | first rest ].
  - cbn [length Nat.eqb]. unfold ret. intros [= <- <- <-].
    split; [ intros h _; split; reflexivity | ].
    split; [ intros h H; exact H | ].
    split; [ intros h H; exact H | intros asset [] ].
  - cbn [length Nat.eqb]. unfold bind at 1. unfold call at 1.
    destruct lookupToolkit as [t | e]; [ | discriminate ].
    destruct (found t); cbn [negb]; [ | unfold throw; discriminate ].
    intros Hrun.
    destruct (prepareAll_spec _ _ _ _ _ _ _ _ _ _ _ _ _ _ _ Hrun)
      as (Hframe & Hfiles & Himages & Hin).
    split; [ exact Hframe | split; [ exact Hfiles | split; [ exact Himages | exact Hin ] ] ].
Qed.

Lemma assets_reach_the_manifest_witness :
  is_Some (dockerImages
             (addDockerImageAsset emptyManifest "def456"
                {| directory := "asset.def456"; dockerBuildArgs := None;
                   dockerBuildTarget := None; dockerFileName := None |}
                {| dest_repositoryName := "cdk/img"; dest_imageTag := "def456" |})
           !! "def456").
Proof.
  refine (proj2 (proj2 (proj2 (assets_reach_the_manifest
            (fun _ => ".js") "||" (Resolved demoToolkit) (fun _ => Resolved "uri")
            lower_letters (fun _ => "{}") (fun s => s)
            [ FileAsset (demoFileAsset "keep" file);
              ContainerImageAsset (demoImageAsset "img" (Some "P") None None) ]
            true "aws://1/here" emptyManifest (Some [ "keep" ])
            _ _ _ _)))
          (ContainerImageAsset (demoImageAsset "img" (Some "P") None None))
          (or_intror (or_introl eq_refl)) eq_refl).
  vm_compute. reflexivity.
Defined.

(** X8: a stack without assets needs no toolkit stack: nothing is looked
    up and the manifest is returned as it was; a stack with assets whose
    environment has no toolkit stack is refused right after the lookup,
    whatever is on the reuse list. *)
Theorem assets_need_the_toolkit
    (extname : string -> string) (sep : string) (lookupToolkit : Outcome ToolkitInfo)
    (ecr : string -> Outcome string) (lower : string -> string)
    (stringify : AssetMetadataEntry -> string)
    (blue : string -> string)
    (assets : list AssetMetadataEntry) (hasAssembly : bool) (environmentName : string)
    (b : AssetManifestBuilder) (reuse : option (list string)) :
  (assets = [] ->
     run (addMetadataAssetsToManifest extname sep lookupToolkit ecr lower stringify blue
            assets hasAssembly environmentName b reuse)
     = (Resolved (∅, b), []))
  /\ (assets <> [] ->
      forall t, lookupToolkit = Resolved t -> found t = false ->
      exists msg,
        run (addMetadataAssetsToManifest extname sep lookupToolkit ecr lower stringify blue
               assets hasAssembly environmentName b reuse)
        = (Rejected (ToolkitError msg), [ LookupToolkit ])).
Proof.
  unfold run, addMetadataAssetsToManifest. cbv zeta. split.
  - intros ->. reflexivity.
  - intros Hne t -> Hfound. destruct assets as [ | first rest ]; [ congruence | ].
    cbn [length Nat.eqb]. unfold bind, call. rewrite Hfound. cbn [negb].
    unfold throw. eexists. reflexivity.
Qed.

End AssetBehaviour.

(** ** What an asynchronous computation adds to the log *)
Section AppendFacts.
Import DeploymentsVocabulary.
Context {Ev : Type}.
Variable P : Ev -> Prop.

Lemma appends_ret {A} (a : A) : appends P (@ret Ev A a).
Proof. intros log. exists []. rewrite app_nil_r. split; [ reflexivity | constructor ]. Qed.

Lemma appends_throw {A} (e : Error) : appends P (@throw Ev A e).
Proof. intros log. exists []. rewrite app_nil_r. split; [ reflexivity | constructor ]. Qed.

Lemma appends_settle {A} (o : Outcome A) : appends P (@settle Ev A o).
Proof. intros log. exists []. rewrite app_nil_r. split; [ reflexivity | constructor ]. Qed.

Lemma appends_emit (ev : Ev) : P ev -> appends P (emit ev).
Proof. intros Hev log. exists [ev]. split; [ reflexivity | repeat constructor; exact Hev ]. Qed.

Lemma appends_call {A} (ev : Ev) (answer : Outcome A) : P ev -> appends P (call ev answer).
Proof. intros Hev log. exists [ev]. split; [ reflexivity | repeat constructor; exact Hev ]. Qed.

Lemma returns_call {A} (ev : Ev) (answer : Outcome A) (x : A) :
  returns (call ev answer) x -> answer = Resolved x.
Proof. intros (log & log' & H). unfold call in H. congruence. Qed.

Lemma appends_bind {A B} (m : Async Ev A) (k : A -> Async Ev B) :
  appends P m -> (forall x, returns m x -> appends P (k x)) -> appends P (bind m k).
Proof.
  intros Hm Hk log. unfold bind. destruct (Hm log) as (added & Hlog & Hadded).
  destruct (m log) as [[x | e] log'] eqn:Hrun; cbn [snd] in *; subst log'.
  - destruct (Hk x (ex_intro _ log (ex_intro _ _ Hrun)) (log ++ added))
      as (added' & Hlog' & Hadded').
    exists (added ++ added'). rewrite Hlog', <- app_assoc. split; [ reflexivity | ].
    apply Forall_app. split; assumption.
  - exists added. split; [ reflexivity | exact Hadded ].
Qed.

Lemma appends_try_catch {A} (body : Async Ev A) (handler : Error -> Async Ev A) :
  appends P body -> (forall e, appends P (handler e)) -> appends P (try_catch body handler).
Proof.
  intros Hm Hk log. unfold try_catch. destruct (Hm log) as (added & Hlog & Hadded).
  destruct (body log) as [[x | e] log']; cbn [snd] in *; subst log'.
  - exists added. split; [ reflexivity | exact Hadded ].
  - destruct (Hk e (log ++ added)) as (added' & Hlog' & Hadded').
    exists (added ++ added'). rewrite Hlog', <- app_assoc. split; [ reflexivity | ].
    apply Forall_app. split; assumption.
Qed.

Lemma appends_try_finally {A} (body : Async Ev A) (cleanup : Async Ev unit) :
  appends P body -> appends P cleanup -> appends P (try_finally body cleanup).
Proof.
  intros Hm Hc log. unfold try_finally. destruct (Hm log) as (added & Hlog & Hadded).
  destruct (body log) as [r log']; cbn [snd] in *; subst log'.
  destruct (Hc (log ++ added)) as (added' & Hlog' & Hadded').
  exists (added ++ added').
  destruct (cleanup (log ++ added)) as [[u | e] log'']; cbn [snd] in *; subst log'';
    rewrite <- app_assoc; (split; [ reflexivity | ]);
    apply Forall_app; split; assumption.
Qed.

End AppendFacts.

(** ** The rollback: single attempts, requests made, failures reported *)
Section RollbackBehaviour.
Import Deployments DeploymentsVocabulary.

(** Follow the structure of a computation to show what it adds to the
    log; the side condition on each entry is left to [tac]. *)
Ltac appends_with tac :=
  cbv zeta;
  lazymatch goal with
  | |- appends _ (bind _ _) => apply appends_bind; [ appends_with tac | intros ? ?; appends_with tac ]
  | |- appends _ (ret _) => apply appends_ret
  | |- appends _ (throw _) => apply appends_throw
  | |- appends _ (settle _) => apply appends_settle
  | |- appends _ (emit _) => apply appends_emit; tac
  | |- appends _ (call _ _) => apply appends_call; tac
  | |- appends _ (try_catch _ _) =>
      apply appends_try_catch; [ appends_with tac | intros ?; appends_with tac ]
  | |- appends _ (try_finally _ _) => apply appends_try_finally; appends_with tac
  | |- appends _ (if ?c then _ else _) => destruct c; appends_with tac
  | |- appends _ (match ?x with _ => _ end) => destruct x; appends_with tac
  end.

Lemma no_mutation_no_requests (log : list Event) :
  mutating_calls log = 0%nat -> rollbackRequests log = [] /\ continueRequests log = [].
Proof.
  unfold mutating_calls, rollbackRequests, continueRequests.
  induction log as [ | ev log IH ]; [ split; reflexivity | ].
  cbn [List.filter List.flat_map]. destruct ev; cbn [is_mutating length app];
    solve [ exact IH | discriminate ].
Qed.

Lemma loop_without_orphaning (w : World) (options : RollbackStackOptions)
    (maxLoops i : nat) (skip : list string) :
  nullish (orphanFailedResources options) false = false ->
  adds_at_most 1 (rollbackLoop w options maxLoops i skip).
Proof.
  intros Hforce log. destruct maxLoops as [ | n ]; cbn [rollbackLoop].
  - unfold throw. cbn [snd]. lia.
  - unfold bind. pose proof (iteration_adds w options i skip log) as Hone.
    destruct (rollbackIteration w options i skip log) as [[[r | skip'] | e] log'] eqn:Hrun;
      cbn [snd] in *.
    + unfold ret. cbn [snd]. exact Hone.
    + pose proof (continue_needs_orphaning w options i skip skip' log) as Hneeds.
      rewrite Hrun in Hneeds. specialize (Hneeds eq_refl). congruence.
    + exact Hone.
Qed.

(** X9: without automatic orphaning there is no second attempt: one
    invocation of [rollbackStack] issues at most one state-changing call,
    whatever the collaborators answer. *)
Theorem rollback_without_orphaning_single_call (w : World) (options : RollbackStackOptions) :
  nullish (orphanFailedResources options) false = false ->
  (mutating_calls (snd (run (rollbackStack w options))) <= 1)%nat.
Proof.
  intros Hforce.
  assert (adds_at_most 1 (rollbackStack w options)) as Hadds.
  { unfold rollbackStack. cbv zeta. rewrite Hforce. cbn [andb].
    apply adds_bind_l0; [ apply adds_weaken with (j := 0%nat); [ lia | ];
                          apply (adds_call (AccessStackForMutableStackOperations _)) | intros _ ].
    apply adds_bind_l0; [ | intros _; apply loop_without_orphaning; exact Hforce ].
    destruct (nullish _ true); [ apply validate_adds | apply adds_ret ]. }
  exact (Hadds []).
Qed.

Lemma rollback_without_orphaning_single_call_witness :
  (mutating_calls
     (snd (run (rollbackStack (failingWorld CONTINUE_UPDATE_ROLLBACK)
                              (rollbackOptions None (Some [ "Bucket" ]))))) <= 1)%nat.
Proof.
  exact (rollback_without_orphaning_single_call
           (failingWorld CONTINUE_UPDATE_ROLLBACK)
           (rollbackOptions None (Some [ "Bucket" ])) eq_refl).
Defined.

(** X10: when the loop is entered, the lookup and the role resolve, the
    stack is to start its rollback, the rollback request and the
    monitor's start and stop go through, and the stack stabilises in a
    rollback-success status or with no error seen by the monitor, then
    the invocation returns [success] for the stack that was looked up,
    having made exactly one rollback request, which names the stack and
    carries the resolved execution role, the generated client token and
    [RetainExceptOnCreate = true], and no request to continue a
    rollback. *)
Theorem rollback_start_succeeds (w : World) (options : RollbackStackOptions)
    (stack final : CloudFormationStack) (role : option string) :
  enters_loop w options ->
  w_lookup w 0 = Resolved stack ->
  w_replacePlaceholders w 0 (requestedRole options) = Resolved role ->
  rollbackChoice (stackStatus stack) = START_ROLLBACK ->
  w_rollbackStack w 0 = Resolved tt ->
  w_monitorStart w 0 = Resolved tt ->
  w_stabilizeStack w 0 = Resolved (Some final) ->
  w_monitorStop w 0 = Resolved tt ->
  isRollbackSuccess (stackStatus final) = true \/ w_monitorErrors w 0 = [] ->
  fst (run (rollbackStack w options)) = Resolved (Success (stackId stack))
  /\ rollbackRequests (snd (run (rollbackStack w options)))
     = [ {| rb_StackName := stackName (rs_stack options);
            rb_RoleARN := role;
            rb_ClientRequestToken := w_randomUUID w 0;
            rb_RetainExceptOnCreate := true |} ]
  /\ continueRequests (snd (run (rollbackStack w options))) = [].
Proof.
  intros Henter Hlookup Hrole Hchoice Hcall Hstart Hstable Hstop Hclean.
  destruct (rollbackStack_enters w options Henter) as (log0 & Hzero & ->).
  destruct (no_mutation_no_requests log0 Hzero) as [Hnone1 Hnone2].
  unfold requestedRole in Hrole.
  assert (rollbackLoop w options 10 0 (nullish (orphanLogicalIds options) []) log0
          = (Resolved (Success (stackId stack)),
             log0 ++ [ Lookup (stackName (rs_stack options));
                       ReplacePlaceholders
                         (nullish_opt (rs_roleArn options)
                            (cloudFormationExecutionRoleArn (rs_stack options)));
                       IoDebug ("Initiating rollback of stack " +:+ stackName (rs_stack options));
                       CfnRollbackStack
                         {| rb_StackName := stackName (rs_stack options);
                            rb_RoleARN := role;
                            rb_ClientRequestToken := w_randomUUID w 0;
                            rb_RetainExceptOnCreate := true |};
                       MonitorStart (stackName (rs_stack options));
                       StabilizeStack (stackName (rs_stack options));
                       MonitorStop (stackName (rs_stack options)) ])) as ->.
  { cbn [rollbackLoop]. unfold rollbackIteration, rollbackSwitch, awaitStabilization.
    cbv zeta. unfold bind, call, emit, ret, try_finally, try_catch.
    rewrite Hlookup, Hrole, Hchoice, Hcall, Hstart, Hstable, Hstop.
    assert (isRollbackSuccess (stackStatus final)
            || negb (truthy_opt_string
                       (if truthy_string (join ", " (w_monitorErrors w 0))
                        then Some (join ", " (w_monitorErrors w 0)) else None)) = true) as ->.
    { destruct Hclean as [-> | ->]; [ reflexivity | apply orb_true_r ]. }
    rewrite <- !app_assoc. reflexivity. }
  cbn [fst snd]. split; [ reflexivity | ].
  unfold rollbackRequests, continueRequests in *.
  rewrite !List.flat_map_app, Hnone1, Hnone2. split; reflexivity.
Qed.

Lemma rollback_start_succeeds_witness :
  fst (run (rollbackStack (scriptedWorld (fun _ => START_ROLLBACK) [])
                          (rollbackOptions None None)))
  = Resolved (Success "arn:demo").
Proof.
  exact (proj1 (rollback_start_succeeds (scriptedWorld (fun _ => START_ROLLBACK) [])
                  (rollbackOptions None None) (stackIn START_ROLLBACK)
                  (stackIn START_ROLLBACK) None
                  (conj eq_refl (conj eq_refl (fun _ => eq_refl)))
                  eq_refl eq_refl eq_refl eq_refl eq_refl eq_refl eq_refl
                  (or_intror eq_refl))).
Defined.

Lemma returns_bind {Ev A B} (m : Async Ev A) (k : A -> Async Ev B) (y : B) :
  returns (bind m k) y -> exists x, returns m x /\ returns (k x) y.
Proof.
  intros (log & log' & H). unfold bind in H.
  destruct (m log) as [[x | e] log1] eqn:Hm; [ | discriminate ].
  exists x. split; [ exists log, log1; exact Hm | exists log1, log'; exact H ].
Qed.

Lemma returns_ret {Ev A} (a x : A) : returns (@ret Ev A a) x -> x = a.
Proof. intros (log & log' & H). unfold ret in H. congruence. Qed.

Lemma switch_requests (w : World) (options : RollbackStackOptions) (i : nat)
    (skip : list string) (stack : CloudFormationStack) (role : option string) :
  (nullish (orphanFailedResources options) false = false ->
   skip = nullish (orphanLogicalIds options) []) ->
  appends (request_ok w options) (rollbackSwitch w options i skip stack role).
Proof.
  intros Hskip. unfold rollbackSwitch. cbv zeta.
  destruct (rollbackChoice (stackStatus stack)); try (appends_with ltac:(exact I)).
  apply appends_bind.
  - destruct (nullish (orphanFailedResources options) false);
      appends_with ltac:(exact I).
  - intros skip' Hskip'.
    assert (skip_request_ok w options
              {| cur_StackName := stackName (rs_stack options);
                 cur_ClientRequestToken := w_randomUUID w i;
                 cur_RoleARN := role;
                 cur_ResourcesToSkip := skip' |}) as Hok.
    { split; [ reflexivity | ].
      destruct (nullish (orphanFailedResources options) false) eqn:Hforce.
      - split; [ intros _ | discriminate ].
        apply returns_bind in Hskip' as (errors & Hpoll & Hret).
        apply returns_call in Hpoll. apply returns_ret in Hret.
        exists i, errors. split; [ exact Hpoll | exact Hret ].
      - split; [ discriminate | intros _ ].
        apply returns_ret in Hskip'. cbn [cur_ResourcesToSkip].
        rewrite Hskip'. apply Hskip. reflexivity. }
    apply appends_bind; [ apply appends_emit; exact I | intros _ _ ].
    apply appends_bind; [ apply appends_call; exact Hok | intros _ _ ].
    apply appends_ret.
Qed.

Lemma iteration_requests (w : World) (options : RollbackStackOptions) (i : nat)
    (skip : list string) :
  (nullish (orphanFailedResources options) false = false ->
   skip = nullish (orphanLogicalIds options) []) ->
  appends (request_ok w options) (rollbackIteration w options i skip).
Proof.
  intros Hskip. unfold rollbackIteration. cbv zeta.
  apply appends_bind; [ apply appends_call; exact I | intros stack _ ].
  apply appends_bind; [ apply appends_call; exact I | intros role _ ].
  apply appends_bind; [ apply switch_requests; exact Hskip | intros [r | skip'] _ ].
  - apply appends_ret.
  - unfold awaitStabilization. appends_with ltac:(exact I).
Qed.

Lemma loop_requests (w : World) (options : RollbackStackOptions) (maxLoops : nat) :
  forall i skip,
    (nullish (orphanFailedResources options) false = false ->
     skip = nullish (orphanLogicalIds options) []) ->
    appends (request_ok w options) (rollbackLoop w options maxLoops i skip).
Proof.
  induction maxLoops as [ | n IH ]; intros i skip Hskip; cbn [rollbackLoop].
  - apply appends_throw.
  - apply appends_bind; [ apply iteration_requests; exact Hskip | ].
    intros [r | skip'] Hexit; [ apply appends_ret | ].
    apply IH. intros Hforce. destruct Hexit as (log & log' & Hrun).
    pose proof (continue_needs_orphaning w options i skip skip' log) as Hneeds.
    rewrite Hrun in Hneeds. specialize (Hneeds eq_refl). congruence.
Qed.

Lemma rollbackStack_requests (w : World) (options : RollbackStackOptions) :
  appends (request_ok w options) (rollbackStack w options).
Proof.
  unfold rollbackStack. cbv zeta.
  destruct (_ && _); [ apply appends_throw | ].
  apply appends_bind; [ apply appends_call; exact I | intros _ _ ].
  apply appends_bind.
  - unfold validateBootstrapStackVersion. appends_with ltac:(exact I).
  - intros _ _. apply loop_requests. intros _. reflexivity.
Qed.

(** X11: every request to continue an update rollback that [rollbackStack]
    makes names the stack and skips, under automatic orphaning, the
    resources that a poll of the stack events has reported as failed and
    that are neither the stack itself nor inside a nested stack, and
    otherwise exactly the logical ids the caller has listed. *)
Theorem rollback_skip_lists (w : World) (options : RollbackStackOptions) :
  (forall input,
      List.In input (continueRequests (snd (run (rollbackStack w options)))) ->
      skip_request_ok w options input)
  /\ (forall errors id,
        List.In id (failedTopLevelResources errors) <->
        exists r, List.In r errors /\ isStackEvent r = false
                  /\ parentStackLogicalIds r = []
                  /\ id = nullish (LogicalResourceId r) "").
Proof.
  split.
  - intros input Hin.
    destruct (rollbackStack_requests w options []) as (added & Hlog & Hall).
    unfold run in Hin. rewrite Hlog in Hin. cbn [app] in Hin.
    unfold continueRequests in Hin. apply List.in_flat_map in Hin as (ev & Hev & Hinput).
    rewrite List.Forall_forall in Hall. specialize (Hall ev Hev).
    destruct ev; try destruct Hinput as [ <- | [] ]; try destruct Hinput. exact Hall.
  - intros errors id. unfold failedTopLevelResources.
    rewrite List.in_map_iff. split.
    + intros (r & Hid & Hr). apply List.filter_In in Hr as [Hr Hkeep].
      apply andb_true_iff in Hkeep as [Hstack Hparents].
      exists r. split; [ exact Hr | ].
      split; [ destruct (isStackEvent r); [ discriminate | reflexivity ] | ].
      split; [ | symmetry; exact Hid ].
      destruct (parentStackLogicalIds r); [ reflexivity | discriminate ].
    + intros (r & Hr & Hstack & Hparents & ->). exists r. split; [ reflexivity | ].
      apply List.filter_In. split; [ exact Hr | ]. rewrite Hstack, Hparents. reflexivity.
Qed.

(** With automatic orphaning the failed bucket is skipped, not the
    resource inside the nested stack nor the stack itself; as the wait
    keeps failing, the request is made in each of the ten iterations. *)
Example rollback_orphans_the_bucket :
  List.map cur_ResourcesToSkip
    (continueRequests
       (snd (run (rollbackStack (failingWorld CONTINUE_UPDATE_ROLLBACK)
                                (rollbackOptions (Some true) None)))))
  = List.repeat [ "Bucket" ] 10.
Proof. vm_compute. reflexivity. Qed.

(** X12: when the loop is entered, the lookup and the role resolve, the
    stack is to start its rollback and the rollback request goes through
    (or the stack is to continue its rollback, [orphanFailedResources] is
    not set to true and the request to continue goes through), the
    monitor starts and stops, the wait for the stack to stabilise fails,
    the stack that was looked up is not in a rollback-success status, and
    the error text, which is the formatted error of the wait followed by
    the errors the monitor has seen, is not empty, then the invocation
    fails with that text followed by the advice to use --orphan or
    --force. *)
Theorem rollback_failure_names_recourse (w : World) (options : RollbackStackOptions)
    (stack : CloudFormationStack) (role : option string) (e : Error) :
  enters_loop w options ->
  w_lookup w 0 = Resolved stack ->
  w_replacePlaceholders w 0 (requestedRole options) = Resolved role ->
  (rollbackChoice (stackStatus stack) = START_ROLLBACK /\ w_rollbackStack w 0 = Resolved tt)
  \/ (rollbackChoice (stackStatus stack) = CONTINUE_UPDATE_ROLLBACK
      /\ nullish (orphanFailedResources options) false = false
      /\ w_continueUpdateRollback w 0 (nullish (orphanLogicalIds options) []) = Resolved tt) ->
  w_monitorStart w 0 = Resolved tt ->
  w_stabilizeStack w 0 = Rejected e ->
  w_monitorStop w 0 = Resolved tt ->
  isRollbackSuccess (stackStatus stack) = false ->
  truthy_string (suffixWithErrors (w_formatErrorMessage w e) (w_monitorErrors w 0)) = true ->
  fst (run (rollbackStack w options))
  = Rejected (ToolkitError
                (suffixWithErrors (w_formatErrorMessage w e) (w_monitorErrors w 0)
                 +:+ recourse_suffix)).
Proof.
  intros Henter Hlookup Hrole Hcase Hstart Hstable Hstop Hnot Htext.
  destruct (rollbackStack_enters w options Henter) as (log0 & _ & ->).
  unfold requestedRole in Hrole.
  cbn [rollbackLoop]. unfold rollbackIteration, rollbackSwitch, awaitStabilization.
  cbv zeta. unfold bind, call, emit, ret, throw, try_finally, try_catch.
  rewrite Hlookup, Hrole.
  destruct Hcase as [[Hchoice Hcall] | (Hchoice & Hforce & Hcall)]; rewrite Hchoice.
  - rewrite Hcall, Hstart, Hstable, Hstop, Hnot, Hchoice.
    cbn [truthy_opt_string orb]. rewrite Htext. reflexivity.
  - rewrite Hforce, Hcall, Hstart, Hstable, Hstop, Hnot, Hchoice.
    cbn [truthy_opt_string orb]. rewrite Htext. reflexivity.
Qed.

Lemma rollback_failure_names_recourse_witness :
  fst (run (rollbackStack (failingWorld START_ROLLBACK) (rollbackOptions None None)))
  = Rejected (ToolkitError
                (suffixWithErrors "stack went into ROLLBACK_FAILED" [ "Bucket is not empty" ]
                 +:+ recourse_suffix)).
Proof.
  exact (rollback_failure_names_recourse (failingWorld START_ROLLBACK)
           (rollbackOptions None None) (stackIn START_ROLLBACK) None
           (ForeignError "stack went into ROLLBACK_FAILED")
           (conj eq_refl (conj eq_refl (fun _ => eq_refl)))
           eq_refl eq_refl (or_introl (conj eq_refl eq_refl))
           eq_refl eq_refl eq_refl eq_refl eq_refl).
Defined.

(** X13: a bootstrap stack that fails the version check stops both
    [deployStack] and [rollbackStack] right after the check, with an error
    that puts the stack name in front of the reason; the rollback asks
    for version 23; nothing else has been called by then, in particular
    nothing that changes the stack. *)
Theorem bootstrap_check_precedes_changes (w : World) (e : Error) :
  w_accessStack w = Resolved tt ->
  (forall requires ssm, w_validateVersion w requires ssm = Rejected e) ->
  (forall options dm,
      resolveDeploymentMethod options = Resolved dm ->
      run (deployStack w options)
      = (Rejected (ToolkitError (stackName (ds_stack options) +:+ ": "
                                 +:+ w_formatErrorMessage w e)),
         [ AccessStackForMutableStackOperations (stackName (ds_stack options));
           ValidateVersion (requiresBootstrapStackVersion (ds_stack options))
                           (bootstrapStackVersionSsmParameter (ds_stack options)) ]))
  /\ (forall options,
        nullish (orphanFailedResources options) false
          && (0 <? length (nullish (orphanLogicalIds options) []))%nat = false ->
        nullish (validateBootstrapStackVersionFlag options) true = true ->
        run (rollbackStack w options)
        = (Rejected (ToolkitError (stackName (rs_stack options) +:+ ": "
                                   +:+ w_formatErrorMessage w e)),
           [ AccessStackForMutableStackOperations (stackName (rs_stack options));
             ValidateVersion (Some 23%Z)
                             (bootstrapStackVersionSsmParameter (rs_stack options)) ])).
Proof.
  intros Haccess Hversion. split.
  - intros options dm Hdm. unfold run, deployStack, validateBootstrapStackVersion.
    unfold bind, settle, call, try_catch, throw. rewrite Hdm, Haccess, Hversion. reflexivity.
  - intros options Hvalid Hflag. unfold run, rollbackStack, validateBootstrapStackVersion.
    cbv zeta. rewrite Hvalid, Hflag.
    unfold bind, call, try_catch, throw. rewrite Haccess, Hversion. reflexivity.
Qed.

Lemma bootstrap_check_precedes_changes_witness :
  run (rollbackStack outdatedWorld (rollbackOptions None None))
  = (Rejected (ToolkitError "Demo: bootstrap stack version 6 is too old"),
     [ AccessStackForMutableStackOperations "Demo"; ValidateVersion (Some 23%Z) None ]).
Proof.
  exact (proj2 (bootstrap_check_precedes_changes outdatedWorld
                  (ForeignError "bootstrap stack version 6 is too old")
                  eq_refl (fun _ _ => eq_refl))
               (rollbackOptions None None) eq_refl eq_refl).
Defined.

Lemma loop_never_checks_version (w : World) (options : RollbackStackOptions)
    (maxLoops : nat) : forall i skip,
  appends (fun ev => is_version_check ev = false) (rollbackLoop w options maxLoops i skip).
Proof.
  induction maxLoops as [ | n IH ]; intros i skip; cbn [rollbackLoop].
  - apply appends_throw.
  - apply appends_bind.
    + unfold rollbackIteration, rollbackSwitch, awaitStabilization.
      appends_with ltac:(reflexivity).
    + intros [r | skip'] _; [ apply appends_ret | apply IH ].
Qed.

(** X14: with [validateBootstrapStackVersion] set to false, [rollbackStack]
    never asks for the version of the bootstrap stack, whatever happens
    in its loop. *)
Theorem rollback_version_check_can_be_skipped (w : World) (options : RollbackStackOptions) :
  validateBootstrapStackVersionFlag options = Some false ->
  Forall (fun ev => is_version_check ev = false) (snd (run (rollbackStack w options))).
Proof.
  intros Hflag.
  assert (appends (fun ev => is_version_check ev = false) (rollbackStack w options)) as Happ.
  { unfold rollbackStack. cbv zeta. rewrite Hflag. cbn [nullish].
    destruct (_ && _); [ apply appends_throw | ].
    apply appends_bind; [ apply appends_call; reflexivity | intros _ _ ].
    apply appends_bind; [ apply appends_ret | intros _ _ ].
    apply loop_never_checks_version. }
  destruct (Happ []) as (added & Hlog & Hall). unfold run. rewrite Hlog. exact Hall.
Qed.

Lemma rollback_version_check_can_be_skipped_witness :
  Forall (fun ev => is_version_check ev = false)
    (snd (run (rollbackStack outdatedWorld
                 {| rs_stack := demoArtifact; rs_roleArn := None;
                    orphanFailedResources := None; orphanLogicalIds := None;
                    validateBootstrapStackVersionFlag := Some false |}))).
Proof.
  exact (rollback_version_check_can_be_skipped outdatedWorld
           {| rs_stack := demoArtifact; rs_roleArn := None;
              orphanFailedResources := None; orphanLogicalIds := None;
              validateBootstrapStackVersionFlag := Some false |} eq_refl).
Defined.

End RollbackBehaviour.

(** ** Publishers: what they keep, the failures they remember, the memoised flag *)
Section PublisherBehaviour.
Import Deployments DeploymentsVocabulary.
Variable bold : string -> string.

Lemma publishers_kept_refl d : publishers_kept d d.
Proof. intros p x H. exists x. repeat split; auto. Qed.

Lemma publishers_kept_trans d1 d2 d3 :
  publishers_kept d1 d2 -> publishers_kept d2 d3 -> publishers_kept d1 d3.
Proof.
  intros H12 H23 p x H. destruct (H12 p x H) as (x2 & H2 & Hm & He & Hp & Hf).
  destruct (H23 p x2 H2) as (x3 & H3 & Hm3 & He3 & Hp3 & Hf3).
  exists x3. repeat split; try congruence. auto.
Qed.

Lemma step_ok_refl d : step_ok d d.
Proof. split; [ auto | split; [ apply publishers_kept_refl | auto ] ]. Qed.

Lemma cachedPublisher_step d m env name p d' :
  cache_ok d ->
  cachedPublisher bold d m env name = (p, d') -> step_ok d d'.
Proof.
  intros [Hstore Hinj]. unfold cachedPublisher.
  destruct (publisherCache d !! manifestRef m) as [existing | ] eqn:Hcache.
  - intros [= <- <-]. apply step_ok_refl.
  - cbv zeta. intros [= <- <-].
    set (p := fresh (dom (publishers d))).
    assert (publishers d !! p = None) as Hfresh.
    { apply not_elem_of_dom. apply is_fresh. }
    split; [ | split ].
    + intros _ Hbuilt r q. cbn [publisherCache publishers]. rewrite lookup_insert.
      destruct (decide (manifestRef m = r)) as [Heq | Hne].
      * intros [= <-]. rewrite lookup_insert_eq. eexists. split; [ reflexivity | exact Heq ].
      * intros Hq. destruct (Hbuilt r q Hq) as (x & Hx & Hr).
        exists x. split; [ | exact Hr ]. rewrite lookup_insert_ne; [ exact Hx | ].
        intros <-. congruence.
    + intros q x Hq. exists x. cbn [publishers]. repeat split; auto.
      rewrite lookup_insert_ne; [ exact Hq | ]. intros <-. congruence.
    + intros b Hb. exact Hb.
Qed.

Lemma recordOutcome_step d p failed : step_ok d (recordOutcome d p failed).
Proof.
  split; [ | split ].
  - intros _ Hbuilt r q Hq. cbn [recordOutcome publisherCache publishers] in *.
    destruct (Hbuilt r q Hq) as (x & Hx & Hr). rewrite lookup_alter.
    destruct (decide (p = q)) as [-> | Hne]; rewrite Hx; cbn; eauto.
  - intros q x Hq. cbn [recordOutcome publishers]. rewrite lookup_alter.
    destruct (decide (p = q)) as [-> | Hne]; rewrite Hq; cbn.
    + eexists. split; [ reflexivity | ]. cbn. repeat split; auto.
      intros ->. reflexivity.
    + exists x. repeat split; auto.
  - intros b Hb. exact Hb.
Qed.

Lemma allowCrossAccount_step d a o d' :
  allowCrossAccountAssetPublishingForEnv d a = (o, d') -> step_ok d d'.
Proof.
  unfold allowCrossAccountAssetPublishingForEnv.
  destruct (_allowCrossAccountAssetPublishing d) eqn:Hflag;
    [ | destruct (ans_access a); [ destruct (ans_crossAccount a) | ] ];
    intros [= <- <-]; try apply step_ok_refl.
  split; [ intros _ Hbuilt; exact Hbuilt | split ].
  - intros q x Hq. exists x. cbn [publishers]. repeat split; auto.
  - intros b Hb. congruence.
Qed.

Lemma step_ok_trans d1 d2 d3 :
  (cache_ok d1 -> cache_ok d2) -> step_ok d1 d2 -> step_ok d2 d3 -> step_ok d1 d3.
Proof.
  intros Hok (Hb12 & Hk12 & Hf12) (Hb23 & Hk23 & Hf23).
  split; [ | split ].
  - intros Hok1 Hbuilt. apply Hb23; [ apply Hok, Hok1 | apply Hb12; assumption ].
  - eapply publishers_kept_trans; eassumption.
  - intros b Hb. apply Hf23, Hf12, Hb.
Qed.

Lemma serve_step d r a o d' :
  cache_ok d -> serve bold d r a = (o, d') -> step_ok d d'.
Proof.
  intros Hok. destruct r as [validation m asset stack name | m asset name | m asset name];
    cbn [serve]; cbv zeta; intros [= <- <-].
  - unfold buildSingleAsset.
    destruct (match validation with
              | Some _ => _
              | None => Resolved tt
              end) as [ [] | e ]; [ | apply step_ok_refl ].
    destruct (ans_environment a) as [env | e]; [ | apply step_ok_refl ].
    destruct (cachedPublisher bold d m env name) as [p d1] eqn:Hcached.
    pose proof (cachedPublisher_step _ _ _ _ _ _ Hok Hcached) as Hstep1.
    destruct (cachedPublisher_spec bold _ _ _ _ _ _ Hok Hcached) as (Hok1 & _ & _).
    destruct (ans_entry a) as [failed | e]; cbn [after]; [ | exact Hstep1 ].
    eapply step_ok_trans; [ intros _; exact Hok1 | exact Hstep1 | apply recordOutcome_step ].
  - unfold publishSingleAsset.
    destruct (ans_environment a) as [env | e]; [ | apply step_ok_refl ].
    destruct (cachedPublisher bold d m env name) as [p d1] eqn:Hcached.
    pose proof (cachedPublisher_step _ _ _ _ _ _ Hok Hcached) as Hstep1.
    destruct (cachedPublisher_spec bold _ _ _ _ _ _ Hok Hcached) as (Hok1 & _ & _).
    destruct (allowCrossAccountAssetPublishingForEnv d1 a) as [allowed d2] eqn:Hallow.
    pose proof (allowCrossAccount_step _ _ _ _ Hallow) as Hstep2.
    destruct (allowCrossAccount_spec _ _ _ _ Hok1 Hallow) as [Hok2 _].
    assert (step_ok d d2) as Hstep12
      by (eapply step_ok_trans; [ intros _; exact Hok1 | exact Hstep1 | exact Hstep2 ]).
    destruct allowed as [allowed | e]; [ destruct (ans_entry a) as [failed | e] | ];
      cbn [after]; try exact Hstep12.
    eapply step_ok_trans; [ intros _; exact Hok2 | exact Hstep12 | apply recordOutcome_step ].
  - unfold isSingleAssetPublished.
    destruct (ans_environment a) as [env | e]; [ | apply step_ok_refl ].
    destruct (cachedPublisher bold d m env name) as [p d1] eqn:Hcached.
    exact (cachedPublisher_step _ _ _ _ _ _ Hok Hcached).
Qed.

Lemma serveAll_step calls : forall d,
  cache_ok d -> step_ok d (snd (serveAll bold d calls)).
Proof.
  induction calls as [ | [r a] rest IH ]; intros d Hok; cbn [serveAll].
  - apply step_ok_refl.
  - destruct (serve bold d r a) as [o d1] eqn:Hserve.
    destruct (serve_spec bold _ _ _ _ _ Hok Hserve) as (Hok1 & _).
    specialize (IH d1 Hok1).
    destruct (serveAll bold d1 rest) as [os d2]. cbn [snd] in *.
    eapply step_ok_trans; [ intros _; exact Hok1 | | exact IH ].
    eapply serve_step; eassumption.
Qed.

End PublisherBehaviour.

Section PublisherBehaviourClaims.
Import Deployments DeploymentsVocabulary.

(** X15: a publisher is never rebuilt or replaced: over any sequence of
    asset calls on a fresh coordinator, the publisher filed under a
    manifest was built from that manifest, and a publisher that exists
    after some calls still exists after any further calls, with the
    manifest, environment and message prefix it was built with and with
    its recorded failures still recorded; later calls that name another
    environment or stack name for the same manifest change nothing. *)
Theorem publishers_keep_what_they_were_built_with (bold : string -> string)
    (earlier later : list (Request * Answers)) :
  cache_built_from (snd (serveAll bold newDeployments (earlier ++ later)))
  /\ publishers_kept (snd (serveAll bold newDeployments earlier))
                     (snd (serveAll bold newDeployments (earlier ++ later))).
Proof.
  split.
  - destruct (serveAll_step bold (earlier ++ later) newDeployments cache_ok_new)
      as (Hbuilt & _ & _).
    apply Hbuilt; [ apply cache_ok_new | ].
    intros r p H. cbn in H. rewrite lookup_empty in H. discriminate.
  - rewrite serveAll_app. cbn [snd].
    destruct (serveAll bold newDeployments earlier) as [os1 d1] eqn:Hearlier.
    destruct (serveAll_spec bold earlier _ _ _ cache_ok_new Hearlier) as (Hok1 & _ & _).
    cbn [snd]. destruct (serveAll_step bold later d1 Hok1) as (_ & Hkept & _).
    exact Hkept.
Qed.

Lemma failures_recorded (d : Instance) (p : positive) (failed : bool) :
  publisherHasFailures d p = true ->
  publisherHasFailures (recordOutcome d p failed) p = true.
Proof.
  intros Hfailed. unfold publisherHasFailures in *. cbn [recordOutcome publishers].
  rewrite lookup_alter_eq. destruct (publishers d !! p) as [x | ]; [ | discriminate ].
  cbn. rewrite Hfailed. reflexivity.
Qed.

Lemma allowCrossAccount_publishers (d : Instance) (a : Answers) :
  publishers (snd (allowCrossAccountAssetPublishingForEnv d a)) = publishers d.
Proof.
  unfold allowCrossAccountAssetPublishingForEnv.
  destruct (_allowCrossAccountAssetPublishing d);
    [ | destruct (ans_access a); [ destruct (ans_crossAccount a) | ] ]; reflexivity.
Qed.

(** X16: once a failure is recorded on the publisher filed under a
    manifest, every later build or publish of an asset of that manifest
    fails, with or without version validation and whatever the
    collaborators answer, and the failure stays recorded; when the steps
    before the operation on the asset and that operation itself go
    through, [buildSingleAsset] fails with "Failed to build asset" and
    [publishSingleAsset] with "Failed to publish asset". *)
Theorem publisher_failures_are_sticky (bold : string -> string) (d : Instance)
    (validation : option (option Z * option string))
    (m : AssetManifest) (p : positive) (asset : string) (stack : StackArtifact)
    (name : option string) (a : Answers) :
  publisherCache d !! manifestRef m = Some p ->
  publisherHasFailures d p = true ->
  (exists e, outcome (buildSingleAsset bold d validation m asset stack name a) = Rejected e)
  /\ (exists e, outcome (publishSingleAsset bold d m asset name a) = Rejected e)
  /\ (forall env failed,
        validation = None \/ (ans_access a = Resolved tt /\ ans_validate a = Resolved tt) ->
        ans_environment a = Resolved env ->
        ans_entry a = Resolved failed ->
        outcome (buildSingleAsset bold d validation m asset stack name a)
        = Rejected (ToolkitError ("Failed to build asset " +:+ asset)))
  /\ (forall env failed,
        ans_environment a = Resolved env ->
        is_Some (_allowCrossAccountAssetPublishing d)
        \/ (ans_access a = Resolved tt /\ exists allowed, ans_crossAccount a = Resolved allowed) ->
        ans_entry a = Resolved failed ->
        outcome (publishSingleAsset bold d m asset name a)
        = Rejected (ToolkitError ("Failed to publish asset " +:+ asset)))
  /\ publisherHasFailures (after (buildSingleAsset bold d validation m asset stack name a)) p
     = true
  /\ publisherHasFailures (after (publishSingleAsset bold d m asset name a)) p = true.
Proof.
  intros Hcache Hfailed.
  assert (forall env, cachedPublisher bold d m env name = (p, d)) as Hcached.
  { intros env. unfold cachedPublisher. rewrite Hcache. reflexivity. }
  assert (forall failed, publisherHasFailures (recordOutcome d p failed) p = true) as Hstill.
  { intros failed. apply failures_recorded, Hfailed. }
  assert (forall failed,
            publisherHasFailures
              (recordOutcome (snd (allowCrossAccountAssetPublishingForEnv d a)) p failed) p
            = true) as Hstill'.
  { intros failed. apply failures_recorded. unfold publisherHasFailures in *.
    rewrite allowCrossAccount_publishers. exact Hfailed. }
  assert (publisherHasFailures (snd (allowCrossAccountAssetPublishingForEnv d a)) p = true)
    as Hrest.
  { unfold publisherHasFailures in *. rewrite allowCrossAccount_publishers. exact Hfailed. }
  split; [ | split; [ | split; [ | split; [ | split ] ] ] ].
  - unfold buildSingleAsset.
    destruct (match validation with Some _ => _ | None => Resolved tt end) as [ [] | e ];
      [ | eexists; reflexivity ].
    destruct (ans_environment a) as [env | e]; [ | eexists; reflexivity ].
    rewrite Hcached. destruct (ans_entry a) as [failed | e]; [ | eexists; reflexivity ].
    cbn [outcome]. rewrite Hstill. eexists; reflexivity.
  - unfold publishSingleAsset.
    destruct (ans_environment a) as [env | e]; [ | eexists; reflexivity ].
    rewrite Hcached.
    destruct (allowCrossAccountAssetPublishingForEnv d a) as [[allowed | e] d2];
      [ | eexists; reflexivity ].
    destruct (ans_entry a) as [failed | e]; [ | eexists; reflexivity ].
    cbn [outcome snd] in *. rewrite Hstill'. eexists; reflexivity.
  - intros env failed Hvalidated Henv Hentry. unfold buildSingleAsset.
    assert (match validation with
            | Some _ =>
                match ans_access a with
                | Rejected e => Rejected e
                | Resolved _ =>
                    match ans_validate a with
                    | Rejected e =>
                        Rejected (ToolkitError (stackName stack +:+ ": "
                                                +:+ ans_formatErrorMessage a e))
                    | Resolved _ => Resolved tt
                    end
                end
            | None => Resolved tt
            end = Resolved tt) as ->.
    { destruct Hvalidated as [-> | [-> ->]]; [ reflexivity | ].
      destruct validation; reflexivity. }
    rewrite Henv, Hcached, Hentry. cbn [outcome]. rewrite Hstill. reflexivity.
  - intros env failed Henv Hflag Hentry. unfold publishSingleAsset.
    rewrite Henv, Hcached.
    assert (exists allowed d2,
              allowCrossAccountAssetPublishingForEnv d a = (Resolved allowed, d2)
              /\ publishers d2 = publishers d) as (allowed & d2 & Hallow & Hsame).
    { pose proof (allowCrossAccount_publishers d a) as Hsame.
      unfold allowCrossAccountAssetPublishingForEnv in *.
      destruct (_allowCrossAccountAssetPublishing d) as [known | ].
      - exists known, d. split; reflexivity.
      - destruct Hflag as [[x Hx] | [Haccess [allowed Hcross]]]; [ discriminate | ].
        rewrite Haccess, Hcross in *. eexists _, _. split; [ reflexivity | exact Hsame ]. }
    rewrite Hallow, Hentry. cbn [outcome].
    assert (publisherHasFailures (recordOutcome d2 p failed) p = true) as ->; [ | reflexivity ].
    apply failures_recorded. unfold publisherHasFailures in *. rewrite Hsame. exact Hfailed.
  - unfold buildSingleAsset.
    destruct (match validation with Some _ => _ | None => Resolved tt end) as [ [] | e ];
      [ | exact Hfailed ].
    destruct (ans_environment a) as [env | e]; [ | exact Hfailed ].
    rewrite Hcached. destruct (ans_entry a) as [failed | e]; [ | exact Hfailed ].
    cbn [after]. apply Hstill.
  - unfold publishSingleAsset.
    destruct (ans_environment a) as [env | e]; [ | exact Hfailed ].
    rewrite Hcached.
    destruct (allowCrossAccountAssetPublishingForEnv d a) as [[allowed | e] d2];
      cbn [snd] in *; [ | exact Hrest ].
    destruct (ans_entry a) as [failed | e]; [ | exact Hrest ].
    cbn [after]. apply Hstill'.
Qed.

(** A validated build after a failed one. *)
Lemma publisher_failures_are_sticky_witness :
  let failing := {| ans_access := Resolved tt;
                    ans_validate := Resolved tt;
                    ans_environment := ans_environment calmAnswers;
                    ans_entry := Resolved true;
                    ans_crossAccount := Resolved true;
                    ans_formatErrorMessage := error_message |} in
  let d := after (buildSingleAsset (fun s => s) newDeployments None manifestA "abc123"
                    demoArtifact None failing) in
  outcome (buildSingleAsset (fun s => s) d (Some (Some 6%Z, None)) manifestA "0a1b2c"
             demoArtifact None calmAnswers)
  = Rejected (ToolkitError "Failed to build asset 0a1b2c")
  /\ outcome (publishSingleAsset (fun s => s) d manifestA "0a1b2c" None calmAnswers)
     = Rejected (ToolkitError "Failed to publish asset 0a1b2c").
Proof.
  cbv zeta. split.
  - refine (proj1 (proj2 (proj2 (publisher_failures_are_sticky (fun s => s) _
                     (Some (Some 6%Z, None)) manifestA 1%positive
                     "0a1b2c" demoArtifact None calmAnswers _ _)))
                  {| envName := "aws://1/here"; account := "1"; region := "here" |} false
                  (or_intror (conj eq_refl eq_refl)) eq_refl eq_refl).
    + vm_compute. reflexivity.
    + vm_compute. reflexivity.
  - refine (proj1 (proj2 (proj2 (proj2 (publisher_failures_are_sticky (fun s => s) _
                     None manifestA 1%positive
                     "0a1b2c" demoArtifact None calmAnswers _ _))))
                  {| envName := "aws://1/here"; account := "1"; region := "here" |} false
                  eq_refl (or_intror (conj eq_refl (ex_intro _ true eq_refl))) eq_refl).
    + vm_compute. reflexivity.
    + vm_compute. reflexivity.
Defined.

(** X17: the cross-account publishing flag is determined at most once:
    when it is known, it is the answer given without asking anyone, and
    it stays what it is over every sequence of asset calls; when
    determining it fails, nothing is memoised. *)
Theorem cross_account_flag_is_memoised (bold : string -> string) (d : Instance)
    (a : Answers) :
  (forall allowed, _allowCrossAccountAssetPublishing d = Some allowed ->
     allowCrossAccountAssetPublishingForEnv d a = (Resolved allowed, d)
     /\ (cache_ok d ->
         forall calls,
           _allowCrossAccountAssetPublishing (snd (serveAll bold d calls)) = Some allowed))
  /\ (forall e, fst (allowCrossAccountAssetPublishingForEnv d a) = Rejected e ->
        snd (allowCrossAccountAssetPublishingForEnv d a) = d).
Proof.
  split.
  - intros allowed Hflag. split.
    + unfold allowCrossAccountAssetPublishingForEnv. rewrite Hflag. reflexivity.
    + intros Hok calls. destruct (serveAll_step bold calls d Hok) as (_ & _ & Hkeeps).
      apply Hkeeps, Hflag.
  - intros e. unfold allowCrossAccountAssetPublishingForEnv.
    destruct (_allowCrossAccountAssetPublishing d); [ discriminate | ].
    destruct (ans_access a); [ | reflexivity ].
    destruct (ans_crossAccount a); [ discriminate | reflexivity ].
Qed.

End PublisherBehaviourClaims.

(** ** The helpers of the template diff *)
Section DiffUtilBehaviour.
Import Importer DiffUtil.

Lemma existsb_eqb_elem (v : string) (l : list string) :
  existsb (String.eqb v) l = true <-> v ∈ l.
Proof.
  rewrite existsb_exists, list_elem_of_In. split.
  - intros (x & Hin & Heq). apply String.eqb_eq in Heq. subst x. exact Hin.
  - intros Hin. exists v. split; [ exact Hin | apply String.eqb_refl ].
Qed.

Lemma add_elem (result : list string) (v x : string) :
  x ∈ add result v <-> x ∈ result \/ x = v.
Proof.
  unfold add. destruct (existsb (String.eqb v) result) eqn:Hv.
  - apply existsb_eqb_elem in Hv. split; [ tauto | ].
    intros [H | ->]; assumption.
  - rewrite elem_of_app, list_elem_of_singleton. tauto.
Qed.

Lemma add_NoDup (result : list string) (v : string) :
  NoDup result -> NoDup (add result v).
Proof.
  intros Hnd. unfold add. destruct (existsb (String.eqb v) result) eqn:Hv; [ exact Hnd | ].
  apply NoDup_app. split; [ exact Hnd | ]. split.
  - intros x Hx Hx'. apply list_elem_of_singleton in Hx'. subst x.
    apply existsb_eqb_elem in Hx. congruence.
  - apply NoDup_singleton.
Qed.

Lemma fold_add_elem (rv acc : list string) (x : string) :
  x ∈ fold_left add rv acc <-> x ∈ acc \/ x ∈ rv.
Proof.
  revert acc. induction rv as [| v rv IH]; intros acc; cbn [fold_left].
  - rewrite elem_of_nil. tauto.
  - rewrite IH, add_elem, elem_of_cons. split; intros H; intuition.
Qed.

Lemma fold_add_NoDup (rv acc : list string) :
  NoDup acc -> NoDup (fold_left add rv acc).
Proof.
  revert acc. induction rv as [| v rv IH]; intros acc Hnd; cbn [fold_left]; [ exact Hnd | ].
  apply IH, add_NoDup, Hnd.
Qed.

Lemma fold_add_extends (rv acc : list string) :
  exists tail, fold_left add rv acc = acc ++ tail.
Proof.
  revert acc. induction rv as [| v rv IH]; intros acc; cbn [fold_left].
  - exists []. symmetry. apply app_nil_r.
  - destruct (IH (add acc v)) as (tail & Htail). rewrite Htail. unfold add.
    destruct (existsb (String.eqb v) acc).
    + exists tail. reflexivity.
    + exists ([v] ++ tail). rewrite app_assoc. reflexivity.
Qed.

Lemma fold_add_fresh (lv acc : list string) :
  NoDup (acc ++ lv) -> fold_left add lv acc = acc ++ lv.
Proof.
  revert acc. induction lv as [| v lv IH]; intros acc Hnd; cbn [fold_left].
  - symmetry. apply app_nil_r.
  - assert (add acc v = acc ++ [v]) as ->.
    { unfold add. destruct (existsb (String.eqb v) acc) eqn:Hv; [ | reflexivity ].
      apply existsb_eqb_elem in Hv. apply NoDup_app in Hnd as (_ & Hdisj & _).
      exfalso. apply (Hdisj v Hv). left. }
    rewrite IH; rewrite <- app_assoc; [ reflexivity | exact Hnd ].
Qed.

Lemma unionOf_elem (lv rv : list string) (x : string) :
  x ∈ unionOf lv rv <-> x ∈ lv \/ x ∈ rv.
Proof. unfold unionOf. rewrite !fold_add_elem, elem_of_nil. tauto. Qed.

(** X18. [unionOf] returns each string of either argument exactly once;
    when the left argument has no repetition it comes first, in its own
    order, and the right argument only adds after it. *)
Theorem unionOf_lists_each_once (lv rv : list string) :
  NoDup (unionOf lv rv)
  /\ (forall x, x ∈ unionOf lv rv <-> x ∈ lv \/ x ∈ rv)
  /\ (NoDup lv -> exists tail, unionOf lv rv = lv ++ tail).
Proof.
  unfold unionOf. split; [ | split ].
  - apply fold_add_NoDup, fold_add_NoDup, NoDup_nil_2.
  - intros x. apply unionOf_elem.
  - intros Hnd. rewrite (fold_add_fresh lv []) by exact Hnd. apply fold_add_extends.
Qed.

Section KeyedBehaviour.
Context {E T : Type}.
Variable elementDiff : option E -> option E -> string -> T.
Variable member : string -> E.
Variable oldValue newValue : option (list (string * option E)).

(** What the loop writes under a key, if anything. *)
Let written (key : string) : option T :=
  match element member oldValue key, element member newValue key with
  | None, None => None
  | o, n => Some (elementDiff o n key)
  end.

Lemma field_assign {A : Type} (k key : string) (v : A) (d : list (string * A)) :
  field key (ImportWorkflow.assign k v d)
  = if String.eqb k key then Some v else field key d.
Proof.
  induction d as [| [k' v'] d IH]; cbn [ImportWorkflow.assign field].
  - reflexivity.
  - destruct (String.eqb k' k) eqn:Hk'; cbn [field].
    + apply String.eqb_eq in Hk'. subst k'. destruct (String.eqb k key); reflexivity.
    + destruct (String.eqb k' key) eqn:Hkey; [ | exact IH ].
      apply String.eqb_eq in Hkey. subst k'. rewrite String.eqb_sym, Hk'. reflexivity.
Qed.

Lemma field_store {A : Type} (k key : string) (v : A) (d : list (string * A)) :
  field key (ImportWorkflow.store k v d)
  = if String.eqb k key && negb (String.eqb key "__proto__") then Some v else field key d.
Proof.
  unfold ImportWorkflow.store. destruct (String.eqb k "__proto__") eqn:Hproto.
  - apply String.eqb_eq in Hproto. subst k.
    destruct (String.eqb "__proto__" key) eqn:Hkey; [ | reflexivity ].
    apply String.eqb_eq in Hkey. subst key. reflexivity.
  - rewrite field_assign. destruct (String.eqb k key) eqn:Hkey; [ | reflexivity ].
    apply String.eqb_eq in Hkey. subst key. rewrite Hproto. reflexivity.
Qed.

Lemma diff_loop (keys : list string) (acc : list (string * T)) (key : string) :
  field key
    (fold_left
       (fun result logicalId =>
          let oldElement := element member oldValue logicalId in
          let newElement := element member newValue logicalId in
          match oldElement, newElement with
          | None, None => result
          | _, _ => ImportWorkflow.store logicalId (elementDiff oldElement newElement logicalId)
                                         result
          end) keys acc)
  = if existsb (String.eqb key) keys && negb (String.eqb key "__proto__")
    then match written key with Some t => Some t | None => field key acc end
    else field key acc.
Proof.
  revert acc. induction keys as [| k keys IH]; intros acc; cbn [fold_left existsb].
  - reflexivity.
  - rewrite IH. clear IH. unfold written. cbv zeta.
    destruct (String.eqb key k) eqn:Hk; cbn [orb].
    + apply String.eqb_eq in Hk. subst k.
      destruct (element member oldValue key), (element member newValue key);
        rewrite ?field_store, ?String.eqb_refl;
        destruct (existsb (String.eqb key) keys);
        destruct (negb (String.eqb key "__proto__")); reflexivity.
    + assert (forall t, field key (ImportWorkflow.store k t acc) = field key acc) as Hskip.
      { intros t. rewrite field_store, String.eqb_sym, Hk. reflexivity. }
      destruct (element member oldValue k), (element member newValue k);
        rewrite ?Hskip; reflexivity.
Qed.

(** The map has a property of its own under the key. *)
Let own (m : option (list (string * option E))) (key : string) : Prop :=
  exists fields v, m = Some fields /\ List.In (key, v) fields.

Lemma own_keys (m : option (list (string * option E))) (key : string) :
  own m key <-> key ∈ keys_of m.
Proof.
  unfold own. destruct m as [fields |]; cbn [keys_of].
  - rewrite list_elem_of_In, List.in_map_iff. split.
    + intros (fields' & v & [= <-] & Hin). exists (key, v). split; [ reflexivity | exact Hin ].
    + intros ([k v] & Hk & Hin). cbn [fst] in Hk. subst k. exists fields, v. auto.
  - rewrite elem_of_nil. split; [ intros (fields & v & H & _); discriminate | tauto ].
Qed.

(** X19. The result of [diffKeyedEntities] has a property of its own
    under a key exactly when one of the two maps has one under it, the
    key is not [__proto__], and reading the two maps under it does not
    yield [undefined] twice; the property then holds what the element
    diff makes of the two values read and the key.  Reading a map yields
    its own property under the key; a map that has none is read for the
    member every object inherits under that name, if there is one; and a
    map that is [undefined] yields [undefined]. *)
Theorem diffKeyedEntities_entries (key : string) :
  (own oldValue key \/ own newValue key ->
   key <> "__proto__" ->
   field key (diffKeyedEntities elementDiff member oldValue newValue)
   = match element member oldValue key, element member newValue key with
     | None, None => None
     | o, n => Some (elementDiff o n key)
     end)
  /\ (~ (own oldValue key \/ own newValue key) \/ key = "__proto__" ->
      field key (diffKeyedEntities elementDiff member oldValue newValue) = None)
  /\ (forall fields,
        (forall v, List.In (key, v) fields -> List.NoDup (List.map fst fields) ->
                   element member (Some fields) key = v)
        /\ ((forall v, ~ List.In (key, v) fields) ->
            element member (Some fields) key
            = if ImportWorkflow.inherits key then Some (member key) else None))
  /\ element member None key = None.
Proof.
  unfold diffKeyedEntities. rewrite diff_loop. fold (written key).
  assert (existsb (String.eqb key) (unionOf (keys_of oldValue) (keys_of newValue)) = true
          <-> own oldValue key \/ own newValue key) as Hunion.
  { rewrite existsb_eqb_elem, unionOf_elem, !own_keys. reflexivity. }
  split; [ | split; [ | split; [ | reflexivity ] ] ].
  - intros Hown Hproto. apply Hunion in Hown. rewrite Hown.
    apply String.eqb_neq in Hproto. rewrite Hproto. cbn [negb andb field].
    destruct (written key); reflexivity.
  - intros [Hnone | ->].
    + destruct (existsb (String.eqb key) _) eqn:Hin; [ | reflexivity ].
      destruct Hnone. apply Hunion. reflexivity.
    + rewrite andb_false_r. reflexivity.
  - intros fields. cbn [element]. split.
    + intros v Hin Hnd.
      assert (field key fields = Some v) as ->; [ | reflexivity ].
      clear - Hin Hnd. induction fields as [ | [k' v'] fields IH ]; [ destruct Hin | ].
      cbn [List.map fst] in Hnd. inversion Hnd as [ | ? ? Hfresh Hnd' ]; subst.
      cbn [field]. destruct Hin as [[= -> ->] | Hin].
      * rewrite String.eqb_refl. reflexivity.
      * destruct (String.eqb k' key) eqn:Hk; [ | exact (IH Hin Hnd') ].
        apply String.eqb_eq in Hk. subst k'. exfalso. apply Hfresh.
        apply List.in_map_iff. exists (key, v). split; [ reflexivity | exact Hin ].
    + intros Hnone.
      assert (field key fields = None) as ->; [ | reflexivity ].
      clear - Hnone. induction fields as [ | [k' v'] fields IH ]; [ reflexivity | ].
      cbn [field]. destruct (String.eqb k' key) eqn:Hk.
      * apply String.eqb_eq in Hk. subst k'. destruct (Hnone v'). left. reflexivity.
      * apply IH. intros v Hin. apply (Hnone v). right. exact Hin.
Qed.
End KeyedBehaviour.

Section DependsOnBehaviour.
Variable deepEqual : JSON -> JSON -> bool.

Lemma compareElements_long (rvalue remaining : list JSON) (length_ : nat) :
  length_ <> 1%nat -> compareElements deepEqual rvalue length_ remaining = true.
Proof.
  intros Hlen. induction remaining as [| li rest IH]; cbn [compareElements]; [ reflexivity | ].
  destruct rvalue as [| r0 rvalue']; [ exact IH | ].
  assert ((0 =? Z.of_nat length_ - 1)%Z = false) as -> by (apply Z.eqb_neq; lia).
  rewrite andb_false_r. exact IH.
Qed.

(** X20. Whatever [deepEqual] says of the elements, [dependsOnEqual]
    reports two arrays of the same length as equal unless that length is
    one: the inner loop stops after its first round, so elements are only
    ever compared in arrays of a single element. *)
Theorem dependsOnEqual_only_compares_singletons (lvalue rvalue : list JSON)
    (Hsame : length lvalue = length rvalue) (Hlen : length lvalue <> 1%nat) :
  dependsOnEqual deepEqual (JArray lvalue) (JArray rvalue) = true.
Proof.
  cbn [dependsOnEqual]. rewrite Hsame, Nat.eqb_refl. cbn [negb].
  apply compareElements_long. congruence.
Qed.

(** X21. When exactly one side of a [DependsOn] is an array, it equals
    the other side only as an array of one element that [deepEqual]
    equates with the other side; the order of the two sides plays no
    role. *)
Theorem dependsOnEqual_unwraps_single_dependency (array : list JSON) (nonArray : JSON)
    (Hnon : forall items, nonArray <> JArray items) :
  dependsOnEqual deepEqual (JArray array) nonArray
  = dependsOnEqual deepEqual nonArray (JArray array)
  /\ (dependsOnEqual deepEqual (JArray array) nonArray = true
      <-> exists only, array = [ only ] /\ deepEqual only nonArray = true).
Proof.
  assert (dependsOnEqual deepEqual (JArray array) nonArray
          = match array with [ only ] => deepEqual only nonArray | _ => false end) as Hl.
  { destruct nonArray; try reflexivity. exfalso. exact (Hnon _ eq_refl). }
  assert (dependsOnEqual deepEqual nonArray (JArray array)
          = match array with [ only ] => deepEqual only nonArray | _ => false end) as Hr.
  { destruct nonArray; try reflexivity. exfalso. exact (Hnon _ eq_refl). }
  split; [ congruence | ]. rewrite Hl. split.
  - destruct array as [| only [| second rest]]; try discriminate.
    intros H. exists only. split; [ reflexivity | exact H ].
  - intros (only & -> & H). exact H.
Qed.

(** X29. Two values of [DependsOn] that are both not arrays are never
    reported equal by [dependsOnEqual], whatever [deepEqual] says of
    them: not even a logical id and itself. *)
Theorem dependsOnEqual_rejects_plain_values (lvalue rvalue : JSON)
    (Hl : forall items, lvalue <> JArray items)
    (Hr : forall items, rvalue <> JArray items) :
  dependsOnEqual deepEqual lvalue rvalue = false.
Proof.
  destruct lvalue; try (exfalso; exact (Hl _ eq_refl));
    destruct rvalue; try (exfalso; exact (Hr _ eq_refl)); reflexivity.
Qed.
End DependsOnBehaviour.

Lemma dependsOnEqual_only_compares_singletons_witness :
  dependsOnEqual (fun _ _ => false)
                 (JArray [ JString "TopicA"; JString "TopicB" ])
                 (JArray [ JString "QueueA"; JString "QueueB" ]) = true.
Proof.
  apply (dependsOnEqual_only_compares_singletons (fun _ _ => false)
           [ JString "TopicA"; JString "TopicB" ] [ JString "QueueA"; JString "QueueB" ]).
  - reflexivity.
  - cbn. lia.
Defined.

Lemma dependsOnEqual_rejects_plain_values_witness :
  dependsOnEqual (fun _ _ => true) (JString "Topic") (JString "Topic") = false.
Proof.
  apply (dependsOnEqual_rejects_plain_values (fun _ _ => true)
           (JString "Topic") (JString "Topic")).
  - intros items. discriminate.
  - intros items. discriminate.
Defined.

Lemma dependsOnEqual_unwraps_single_dependency_witness :
  dependsOnEqual (fun l r => String.eqb (js_string l) (js_string r))
                 (JArray [ JString "Topic" ]) (JString "Topic")
  = dependsOnEqual (fun l r => String.eqb (js_string l) (js_string r))
                   (JString "Topic") (JArray [ JString "Topic" ])
  /\ (dependsOnEqual (fun l r => String.eqb (js_string l) (js_string r))
                     (JArray [ JString "Topic" ]) (JString "Topic") = true
      <-> exists only, [ JString "Topic" ] = [ only ]
                       /\ String.eqb (js_string only) (js_string (JString "Topic")) = true).
Proof.
  apply (dependsOnEqual_unwraps_single_dependency
           (fun l r => String.eqb (js_string l) (js_string r))
           [ JString "Topic" ] (JString "Topic")).
  intros items. discriminate.
Defined.

(** ** Mangling like CloudFormation *)

Lemma mangle_facts (n : nat) :
  forall payload, (length payload <= n)%nat ->
    ascii_units (mangleLikeCloudFormation payload)
    /\ (length (mangleLikeCloudFormation payload) <= length payload)%nat
    /\ (ascii_units payload -> mangleLikeCloudFormation payload = payload).
Proof.
  induction n as [| n IH]; intros payload Hlen.
  - destruct payload; [ | cbn in Hlen; lia ].
    cbn. split; [ constructor | split; [ lia | reflexivity ] ].
  - destruct payload as [| u rest].
    { cbn. split; [ constructor | split; [ lia | reflexivity ] ]. }
    cbn [length] in Hlen.
    destruct (IH rest ltac:(lia)) as (Hascii & Hshort & Hid).
    cbn [mangleLikeCloudFormation].
    destruct (u <? 128)%N eqn:Hu.
    + apply N.ltb_lt in Hu. split; [ constructor; assumption | ].
      split; [ cbn [length]; lia | ].
      intros Hall. inversion Hall; subst. rewrite Hid by assumption. reflexivity.
    + apply N.ltb_ge in Hu.
      assert (ascii_units (63%N :: mangleLikeCloudFormation rest)) as Hcons.
      { constructor; [ lia | exact Hascii ]. }
      assert (ascii_units (u :: rest) -> False) as Hno.
      { intros Hall. inversion Hall; subst. lia. }
      destruct (is_high_surrogate u).
      * destruct rest as [| l rest'].
        { split; [ repeat constructor | split; [ cbn; lia | intros H; destruct (Hno H) ] ]. }
        destruct (is_low_surrogate l).
        -- cbn [length] in Hlen.
           destruct (IH rest' ltac:(lia)) as (Hascii' & Hshort' & _).
           split; [ constructor; [ lia | exact Hascii' ] | ].
           split; [ cbn [length]; lia | intros H; destruct (Hno H) ].
        -- split; [ exact Hcons | ].
           split; [ cbn [length] in *; lia | intros H; destruct (Hno H) ].
      * split; [ exact Hcons | ].
        split; [ cbn [length] in *; lia | intros H; destruct (Hno H) ].
Qed.

(** X22. [mangleLikeCloudFormation] returns text of code units below
    128 only, never longer than the payload; a payload that is such text
    already comes back unchanged, so mangling twice is mangling once. *)
Theorem mangle_flattens_to_ascii (payload : list N) :
  ascii_units (mangleLikeCloudFormation payload)
  /\ (length (mangleLikeCloudFormation payload) <= length payload)%nat
  /\ (ascii_units payload -> mangleLikeCloudFormation payload = payload)
  /\ mangleLikeCloudFormation (mangleLikeCloudFormation payload)
     = mangleLikeCloudFormation payload.
Proof.
  destruct (mangle_facts (length payload) payload (le_n _)) as (Hascii & Hshort & Hid).
  split; [ exact Hascii | ]. split; [ exact Hshort | ]. split; [ exact Hid | ].
  destruct (mangle_facts _ (mangleLikeCloudFormation payload) (le_n _)) as (_ & _ & Hid').
  exact (Hid' Hascii).
Qed.

End DiffUtilBehaviour.

(** ** Resolving import identifiers *)
Section ImportWorkflowFacts.
Import Importer ImportWorkflow.


Lemma field_remove {A : Type} (k key : string) (d : list (string * A)) :
  field key (remove k d) = if String.eqb k key then None else field key d.
Proof.
  unfold remove. induction d as [| [k' v'] d IH]; cbn [List.filter field fst].
  - destruct (String.eqb k key); reflexivity.
  - destruct (String.eqb k' k) eqn:Hk'; cbn [negb field].
    + apply String.eqb_eq in Hk'. subst k'. rewrite IH.
      destruct (String.eqb k key); reflexivity.
    + rewrite IH. destruct (String.eqb k' key) eqn:Hkey; [ | reflexivity ].
      apply String.eqb_eq in Hkey. subst k'. rewrite String.eqb_sym, Hk'. reflexivity.
Qed.

Lemma field_keys {A : Type} (key : string) (d : list (string * A)) :
  is_Some (field key d) <-> key ∈ List.map fst d.
Proof.
  induction d as [| [k v] d IH]; cbn [field List.map fst].
  - rewrite elem_of_nil. split; [ intros [x Hx]; discriminate | tauto ].
  - rewrite elem_of_cons. destruct (String.eqb k key) eqn:Hk.
    + apply String.eqb_eq in Hk. split; [ intros _; left; congruence | intros _; eexists; reflexivity ].
    + apply String.eqb_neq in Hk. rewrite IH. split; [ tauto | ].
      intros [Heq | Hin]; [ congruence | exact Hin ].
Qed.




Section Asking.
Variable imp : ResourceImporter.
Variable blue yellow grey : string -> string.
Variable format1 : string -> string -> string.
Variable confirm : list Event -> Outcome bool.
Variable prompt : list Event -> Outcome string.












End Asking.

Section Loading.
Variable imp : ResourceImporter.
Variable blue : string -> string.
Variable format1 : string -> string -> string.
Variable format2 : string -> string -> string -> string.

Lemma wanted_remove (contents : list (string * JSON)) (k : string) (r : ImportableResource) :
  logicalId r <> k -> wanted (remove k contents) r = wanted contents r.
Proof.
  intros Hne. unfold wanted. rewrite field_remove.
  destruct (String.eqb k (logicalId r)) eqn:Hk; [ | reflexivity ].
  apply String.eqb_eq in Hk. congruence.
Qed.

Lemma named_elem (k : string) (l : list ImportableResource) :
  existsb (fun r => String.eqb (logicalId r) k) l = true -> k ∈ List.map logicalId l.
Proof.
  rewrite existsb_exists. intros (r & Hin & Heq). apply String.eqb_eq in Heq. subst k.
  apply list_elem_of_In, in_map, Hin.
Qed.

Lemma read_remove (contents : list (string * JSON)) (k key : string) :
  String.eqb k key = false -> read (remove k contents) key = read contents key.
Proof.
  intros Hne. unfold read. rewrite field_remove, Hne. reflexivity.
Qed.

Lemma wanted_read (contents : list (string * JSON)) (r : ImportableResource) :
  match read contents (logicalId r) with
  | Some held => truthy_held held
  | None => false
  end = wanted contents r.
Proof.
  unfold read, wanted. destruct (field (logicalId r) contents); [ reflexivity | ].
  destruct (inherits (logicalId r)); reflexivity.
Qed.

Lemma loadAll_run (available : list ImportableResource) :
  forall contents acc log,
    NoDup (List.map logicalId available) ->
    exists m contents' infos,
      loadAll imp blue format1 format2 available contents acc log
      = (Resolved (m, contents'), log ++ infos)
      /\ importResources m = importResources acc ++ List.filter (wanted contents) available
      /\ forall k, field k (resourceMap m)
                   = if existsb (fun r => String.eqb (logicalId r) k)
                                (List.filter (wanted contents) available)
                        && negb (String.eqb k "__proto__")
                     then read contents k
                     else field k (resourceMap acc).
Proof.
  induction available as [| resource available IH]; intros contents acc log Hnd;
    cbn [loadAll List.filter List.map] in *.
  - exists acc, contents, []. unfold ret. rewrite !app_nil_r. auto.
  - apply NoDup_cons in Hnd as (Hfresh & Hnd).
    pose proof (wanted_read contents resource) as Hwanted.
    assert (forall ev,
              exists m contents' infos,
                loadAll imp blue format1 format2 available contents acc (log ++ [ev])
                = (Resolved (m, contents'), log ++ infos)
                /\ importResources m
                   = importResources acc ++ List.filter (wanted contents) available
                /\ forall k, field k (resourceMap m)
                             = if existsb (fun r => String.eqb (logicalId r) k)
                                          (List.filter (wanted contents) available)
                                  && negb (String.eqb k "__proto__")
                               then read contents k
                               else field k (resourceMap acc)) as Hskip.
    { intros ev.
      destruct (IH contents acc (log ++ [ev]) Hnd)
        as (m & contents' & infos & Hrun & Himports & Hmap).
      exists m, contents'. exists (ev :: infos).
      split; [ rewrite Hrun, <- app_assoc; reflexivity | ]. split; assumption. }
    destruct (read contents (logicalId resource)) as [idProps |] eqn:Hread;
      [ | rewrite <- Hwanted; unfold bind at 1, emit at 1; apply Hskip ].
    destruct (truthy_held idProps) eqn:Htruthy; rewrite <- Hwanted;
      [ | unfold bind at 1, emit at 1; apply Hskip ].
    unfold bind at 1, emit at 1.
    match goal with
    | |- context [loadAll _ _ _ _ _ ?c ?a ?l] =>
        destruct (IH c a l Hnd) as (m & contents' & infos & Hrun & Himports & Hmap)
    end.
    assert (List.filter (wanted (remove (logicalId resource) contents)) available
            = List.filter (wanted contents) available) as Hsame.
    { apply filter_ext_in. intros r Hr. apply wanted_remove. intros Heq.
      apply Hfresh. rewrite <- Heq. apply list_elem_of_In, in_map, Hr. }
    rewrite Hsame in *. exists m, contents'. eexists (_ :: infos).
    split; [ rewrite Hrun, <- app_assoc; reflexivity | ].
    cbn [importResources resourceMap] in *.
    split; [ rewrite Himports, <- app_assoc; reflexivity | ].
    intros k. rewrite Hmap. cbn [existsb]. rewrite field_store.
    destruct (String.eqb (logicalId resource) k) eqn:Hk; cbn [orb andb].
    + apply String.eqb_eq in Hk. subst k.
      destruct (existsb (fun r => String.eqb (logicalId r) (logicalId resource))
                        (List.filter (wanted contents) available)) eqn:Hagain.
      * exfalso. apply Hfresh. apply named_elem in Hagain.
        apply list_elem_of_In, in_map_iff in Hagain as (r & Heq & Hr).
        apply filter_In in Hr as (Hr & _). rewrite <- Heq.
        apply list_elem_of_In, in_map, Hr.
      * cbn [andb]. rewrite Hread. reflexivity.
    + rewrite (read_remove _ _ _ Hk). reflexivity.
Qed.

(** X26. With one entry per logical id among the available resources
    and an object in the mapping file, [loadResourceIdentifiers] imports exactly those for which reading
    the mapping file under their logical id yields something truthy: a
    truthy value of the file's own or, where the file has no property of
    its own under that name, a member every object inherits; they come
    in their order, and the resource map holds for each what was read,
    except under [__proto__], where the assignment makes no property.
    It cannot fail once the file was read. *)
Theorem mapping_file_decides_imports
    (contents : list (string * JSON)) (available : list ImportableResource)
    (filename : string) (log : list Event)
    (Hdistinct : NoDup (List.map logicalId available)) :
  exists m added,
    loadResourceIdentifiers imp blue format1 format2 (Resolved contents)
                            available filename log
    = (Resolved m, log ++ added)
    /\ importResources m = List.filter (wanted contents) available
    /\ (forall r, r ∈ importResources m ->
                  logicalId r <> "__proto__" ->
                  field (logicalId r) (resourceMap m)
                  = Some match field (logicalId r) contents with
                         | Some value => Own value
                         | None => Member (logicalId r)
                         end)
    /\ field "__proto__" (resourceMap m) = None.
Proof.
  unfold loadResourceIdentifiers. unfold bind at 1, call at 1.
  destruct (loadAll_run available contents {| resourceMap := []; importResources := [] |}
                        (log ++ [ReadJson filename]) Hdistinct)
    as (m & contents' & infos & Hrun & Himports & Hmap).
  unfold bind at 1. rewrite Hrun. cbn [importResources app] in Himports.
  exists m.
  assert (forall r, r ∈ importResources m ->
                    logicalId r <> "__proto__" ->
                    field (logicalId r) (resourceMap m)
                    = Some match field (logicalId r) contents with
                           | Some value => Own value
                           | None => Member (logicalId r)
                           end) as Hvalues.
  { intros r Hr Hproto. rewrite Hmap, <- Himports.
    assert (existsb (fun r' => String.eqb (logicalId r') (logicalId r)) (importResources m)
            = true) as ->.
    { apply existsb_exists. exists r.
      split; [ apply list_elem_of_In, Hr | apply String.eqb_refl ]. }
    apply String.eqb_neq in Hproto. rewrite Hproto. cbn [negb andb].
    rewrite Himports in Hr. apply list_elem_of_In, filter_In in Hr as (_ & Hwanted).
    unfold wanted in Hwanted. unfold read.
    destruct (field (logicalId r) contents); [ reflexivity | ].
    rewrite Hwanted. reflexivity. }
  assert (field "__proto__" (resourceMap m) = None) as Hproto.
  { rewrite Hmap, String.eqb_refl, andb_false_r. reflexivity. }
  destruct (0 <? length (List.map fst contents'))%nat; unfold bind, emit, ret.
  - eexists. split; [ rewrite <- !app_assoc; reflexivity | ]. repeat split; assumption.
  - eexists. split; [ rewrite <- !app_assoc; reflexivity | ]. repeat split; assumption.
Qed.

Lemma named_last (k : string) (l : list ImportableResource) (r : ImportableResource) :
  k ∈ List.map logicalId (l ++ [r]) <-> k ∈ List.map logicalId l \/ k = logicalId r.
Proof.
  rewrite List.map_app, elem_of_app. cbn [List.map]. rewrite list_elem_of_singleton.
  reflexivity.
Qed.

Lemma loadAll_accounts (available : list ImportableResource) :
  forall contents acc log,
    (forall k, is_Some (field k contents) -> ~ k ∈ List.map logicalId (importResources acc)) ->
    (forall k, is_Some (field k (resourceMap acc))
               <-> k ∈ List.map logicalId (importResources acc) /\ k <> "__proto__") ->
    exists m contents' infos,
      loadAll imp blue format1 format2 available contents acc log
      = (Resolved (m, contents'), log ++ infos)
      /\ Forall (fun ev => is_info ev = true) infos
      /\ length infos = length available
      /\ (forall k, k ∈ List.map logicalId (importResources acc) ->
                    k ∈ List.map logicalId (importResources m))
      /\ (forall k, is_Some (field k contents) ->
                    is_Some (field k contents')
                    \/ k ∈ List.map logicalId (importResources m))
      /\ (forall k, is_Some (field k contents') ->
                    is_Some (field k contents)
                    /\ ~ k ∈ List.map logicalId (importResources m))
      /\ (forall k, is_Some (field k (resourceMap m))
                    <-> k ∈ List.map logicalId (importResources m) /\ k <> "__proto__").
Proof.
  induction available as [| resource available IH]; intros contents acc log Hapart Hkeys;
    cbn [loadAll].
  - exists acc, contents, []. unfold ret. rewrite app_nil_r.
    split; [ reflexivity | ]. split; [ constructor | ]. split; [ reflexivity | ].
    split; [ auto | ]. split; [ auto | ]. split; [ | exact Hkeys ].
    intros k Hk. split; [ exact Hk | apply Hapart, Hk ].
  - assert (forall ev, is_info ev = true ->
              exists m contents' infos,
                loadAll imp blue format1 format2 available contents acc (log ++ [ev])
                = (Resolved (m, contents'), log ++ infos)
                /\ Forall (fun ev => is_info ev = true) infos
                /\ length infos = length (resource :: available)
                /\ (forall k, k ∈ List.map logicalId (importResources acc) ->
                              k ∈ List.map logicalId (importResources m))
                /\ (forall k, is_Some (field k contents) ->
                              is_Some (field k contents')
                              \/ k ∈ List.map logicalId (importResources m))
                /\ (forall k, is_Some (field k contents') ->
                              is_Some (field k contents)
                              /\ ~ k ∈ List.map logicalId (importResources m))
                /\ (forall k, is_Some (field k (resourceMap m))
                              <-> k ∈ List.map logicalId (importResources m)
                                  /\ k <> "__proto__"))
      as Hskip.
    { intros ev Hev.
      destruct (IH contents acc (log ++ [ev]) Hapart Hkeys)
        as (m & contents' & infos & Hrun & Hinfos & Hlen & Hrest).
      exists m, contents', (ev :: infos).
      split; [ rewrite Hrun, <- app_assoc; reflexivity | ].
      split; [ constructor; assumption | ].
      split; [ cbn [length]; congruence | exact Hrest ]. }
    destruct (read contents (logicalId resource)) as [idProps |] eqn:Hread;
      [ | unfold bind at 1, emit at 1; apply Hskip; reflexivity ].
    destruct (truthy_held idProps);
      [ | unfold bind at 1, emit at 1; apply Hskip; reflexivity ].
    unfold bind at 1, emit at 1.
    match goal with
    | |- context [loadAll _ _ _ _ _ ?c ?a ?l] =>
        destruct (IH c a l)
          as (m & contents' & infos & Hrun & Hinfos & Hlen & Hgrows & Hfile & Hleft & Hmap)
    end.
    { intros k. cbn [importResources]. rewrite field_remove, named_last.
      destruct (String.eqb (logicalId resource) k) eqn:Hk; [ intros [x Hx]; discriminate | ].
      apply String.eqb_neq in Hk. intros Hsome [Hin | ->]; [ | congruence ].
      exact (Hapart k Hsome Hin). }
    { intros k. cbn [importResources resourceMap]. rewrite field_store, named_last.
      destruct (String.eqb (logicalId resource) k) eqn:Hk; cbn [andb].
      - apply String.eqb_eq in Hk. subst k.
        destruct (String.eqb (logicalId resource) "__proto__") eqn:Hproto; cbn [negb].
        + apply String.eqb_eq in Hproto. rewrite Hkeys. tauto.
        + apply String.eqb_neq in Hproto. split; [ auto | ]. intros _. eexists. reflexivity.
      - apply String.eqb_neq in Hk. rewrite Hkeys.
        split; [ tauto | ]. intros [[Hin | ->] Hproto]; [ tauto | congruence ]. }
    cbn [importResources] in *.
    exists m, contents'. eexists (_ :: infos).
    split; [ rewrite Hrun, <- app_assoc; reflexivity | ].
    split; [ constructor; [ reflexivity | exact Hinfos ] | ].
    split; [ cbn [length]; congruence | ].
    split; [ intros k Hk; apply Hgrows, named_last; left; exact Hk | ].
    split; [ | split; [ | exact Hmap ] ].
    + intros k Hk. destruct (String.eqb (logicalId resource) k) eqn:Hid.
      * apply String.eqb_eq in Hid. subst k. right. apply Hgrows, named_last. right. reflexivity.
      * apply Hfile. rewrite field_remove, Hid. exact Hk.
    + intros k Hk. destruct (Hleft k Hk) as [Hwas Hout]. split; [ | exact Hout ].
      rewrite field_remove in Hwas.
      destruct (String.eqb (logicalId resource) k); [ destruct Hwas; discriminate | exact Hwas ].
Qed.

(** X27. No entry of the mapping file goes unnoticed: once the file is
    read and holds an object, [loadResourceIdentifiers] writes one message per available
    resource and then, if some keys of the file were not used for an
    import, one warning that lists them; each key of the file is either
    in that list or the logical id of an imported resource, never both,
    and the list holds keys of the file only.  The keys of the returned
    resource map are the logical ids of the imported resources, save
    [__proto__], under which an assignment makes no property. *)
Theorem mapping_file_is_accounted_for
    (contents : list (string * JSON)) (available : list ImportableResource)
    (filename : string) (log : list Event) :
  exists m infos unknown,
    loadResourceIdentifiers imp blue format1 format2 (Resolved contents)
                            available filename log
    = (Resolved m, log ++ ReadJson filename :: infos ++ unrecognized unknown)
    /\ Forall (fun ev => is_info ev = true) infos
    /\ length infos = length available
    /\ (forall k, k ∈ List.map fst contents ->
                  k ∈ unknown \/ k ∈ List.map logicalId (importResources m))
    /\ (forall k, k ∈ unknown ->
                  k ∈ List.map fst contents
                  /\ ~ k ∈ List.map logicalId (importResources m))
    /\ (forall k, k ∈ List.map fst (resourceMap m)
                  <-> k ∈ List.map logicalId (importResources m) /\ k <> "__proto__").
Proof.
  unfold loadResourceIdentifiers. unfold bind at 1, call at 1.
  destruct (loadAll_accounts available contents {| resourceMap := []; importResources := [] |}
                             (log ++ [ReadJson filename]))
    as (m & contents' & infos & Hrun & Hinfos & Hlen & _ & Hfile & Hleft & Hmap).
  { intros k _ Hk. cbn in Hk. apply elem_of_nil in Hk. exact Hk. }
  { intros k. cbn. split; [ intros [x Hx]; discriminate | ].
    intros [Hk _]. apply elem_of_nil in Hk. destruct Hk. }
  unfold bind at 1. rewrite Hrun.
  exists m, infos, (List.map fst contents').
  split; [ | split; [ exact Hinfos | split; [ exact Hlen | split; [ | split ] ] ] ].
  - destruct (List.map fst contents') as [| k unknown]; cbn [length Nat.ltb Nat.leb unrecognized];
      unfold bind, emit, ret; rewrite <- !app_assoc; cbn [app]; [ | reflexivity ].
    rewrite app_nil_r. reflexivity.
  - intros k. rewrite <- !field_keys. apply Hfile.
  - intros k. rewrite <- !field_keys. apply Hleft.
  - intros k. rewrite <- field_keys. apply Hmap.
Qed.
End Loading.

Section AddingToTheTemplate.
Variable fullDiffChanges : Template -> option Template -> list (string * ResourceDifference).
Variable readCurrentTemplate : Outcome Template.

Lemma field_with_field (key : string) (v : JSON) (fields : list (string * JSON)) :
  field key (with_field key v fields) = Some v.
Proof.
  induction fields as [| [k v'] fields IH]; cbn [with_field field].
  - rewrite String.eqb_refl. reflexivity.
  - destruct (String.eqb k key) eqn:Hk; cbn [field]; rewrite Hk; [ reflexivity | exact IH ].
Qed.

Lemma addDefaultDeletionPolicy_keeps (resource : list (string * JSON)) :
  keeps_policy (addDefaultDeletionPolicy resource).
Proof.
  unfold addDefaultDeletionPolicy, keeps_policy.
  destruct (field "DeletionPolicy" resource) as [policy |] eqn:Hpolicy.
  - destruct (truthy policy) eqn:Htruthy.
    + exists policy. split; assumption.
    + exists (JString "Retain"). split; [ apply field_with_field | reflexivity ].
  - exists (JString "Retain"). split; [ apply field_with_field | reflexivity ].
Qed.

Lemma currentTemplate_memo (imp imp' : ResourceImporter) (t : Template) (log log' : list Importer.Event) :
  currentTemplate readCurrentTemplate imp log = (Resolved (t, imp'), log') ->
  _currentTemplate imp' = Some t /\ stackTemplate imp' = stackTemplate imp.
Proof.
  unfold currentTemplate. destruct (_currentTemplate imp) as [memo |] eqn:Hmemo.
  - unfold ret. intros H. injection H as <- <- _. split; [ exact Hmemo | reflexivity ].
  - unfold bind, call, ret. destruct readCurrentTemplate as [read | e]; [ | discriminate ].
    intros H. injection H as <- <- _. split; reflexivity.
Qed.

Lemma additions_written (additions : list ImportableResource) :
  forall (resources : list (string * list (string * JSON))) (k : string),
    (exists add, add ∈ additions /\ logicalId add = k
                 /\ field k (fold_left (fun resources add =>
                                          assign (logicalId add) (resourceDefinition add) resources)
                                       additions resources)
                    = Some (resourceDefinition add))
    \/ ((forall add, add ∈ additions -> logicalId add <> k)
        /\ field k (fold_left (fun resources add =>
                                 assign (logicalId add) (resourceDefinition add) resources)
                              additions resources)
           = field k resources).
Proof.
  induction additions as [| a additions IH]; intros resources k; cbn [fold_left].
  - right. split; [ | reflexivity ]. intros add Hadd. apply elem_of_nil in Hadd. destruct Hadd.
  - destruct (IH (assign (logicalId a) (resourceDefinition a) resources) k)
      as [(add & Hin & Hid & Hfield) | (Hnone & Hfield)].
    + left. exists add. split; [ right; exact Hin | ]. split; assumption.
    + rewrite field_assign in Hfield. destruct (String.eqb (logicalId a) k) eqn:Hk.
      * apply String.eqb_eq in Hk. left. exists a. split; [ left | ]. split; assumption.
      * apply String.eqb_neq in Hk. right. split; [ | exact Hfield ].
        intros add Hadd. apply elem_of_cons in Hadd as [-> | Hadd]; [ exact Hk | ].
        apply Hnone, Hadd.
Qed.

(** X28. The template of an import holds every import candidate that
    [discoverImportableResources] returned, each with a truthy
    [DeletionPolicy]; [currentTemplateWithAdditions] builds it from
    the memoised template without reading the deployed template again,
    and the memo holds the additions afterwards. *)
Theorem import_template_keeps_deletion_policies
    (imp imp1 imp2 : ResourceImporter) (allowNonAdditions : option bool)
    (found : DiscoverImportableResourcesResult) (template : Template)
    (log log1 log2 : list Importer.Event)
    (Hdiscover : discoverImportableResources fullDiffChanges readCurrentTemplate
                                             imp allowNonAdditions log
                 = (Resolved (found, imp1), log1))
    (Hadd : currentTemplateWithAdditions readCurrentTemplate imp1 (additions found) log1
            = (Resolved (template, imp2), log2)) :
  log2 = log1
  /\ _currentTemplate imp2 = Some template
  /\ forall add, add ∈ additions found ->
       exists definition,
         templateResource (Some template) (logicalId add) = Some definition
         /\ keeps_policy definition.
Proof.
  unfold discoverImportableResources in Hdiscover. cbv zeta in Hdiscover.
  unfold bind at 1 in Hdiscover.
  destruct (currentTemplate readCurrentTemplate imp log) as [[[current imp'] | e] log0] eqn:Hcurrent;
    [ | discriminate ].
  destruct (currentTemplate_memo _ _ _ _ _ Hcurrent) as (Hmemo & _).
  assert (imp1 = imp' /\ Forall (fun add => keeps_policy (resourceDefinition add))
                                (additions found)) as (-> & Hkept).
  { unfold bind in Hdiscover.
    match type of Hdiscover with
    | (let (_, _) := ?m in _) = _ => destruct m as [[[] | e] log0']
    end; [ | discriminate ].
    unfold ret in Hdiscover. injection Hdiscover as <- <- _. split; [ reflexivity | ].
    cbn [additions]. apply Forall_map, Forall_forall. intros c _.
    cbn [resourceDefinition]. apply addDefaultDeletionPolicy_keeps. }
  unfold currentTemplateWithAdditions, bind, currentTemplate in Hadd.
  rewrite Hmemo in Hadd. unfold ret in Hadd. cbv zeta in Hadd.
  injection Hadd as <- <- <-.
  split; [ reflexivity | ]. split; [ reflexivity | ].
  intros add Hin. cbn [templateResource Resources].
  destruct (additions_written (additions found) (nullish (Resources current) []) (logicalId add))
    as [(add' & Hin' & _ & Hfield) | (Hnone & _)].
  - exists (resourceDefinition add'). split; [ exact Hfield | ].
    rewrite Forall_forall in Hkept. apply Hkept, Hin'.
  - destruct (Hnone add Hin eq_refl).
Qed.
End AddingToTheTemplate.

End ImportWorkflowFacts.

Section ImportWorkflowScenarios.
Import Importer ImportWorkflow.




(** The file names the bucket, holds [null] for the key and an entry
    nobody asked for. *)
Lemma mapping_file_decides_imports_witness :
  exists m added,
    loadResourceIdentifiers demoImporter plain demoFormat1 demoFormat2 (Resolved demoMapping)
                            [ bucketResource; keyResource ] "map.json" []
    = (Resolved m, [] ++ added)
    /\ importResources m = List.filter (wanted demoMapping) [ bucketResource; keyResource ]
    /\ (forall r, r ∈ importResources m ->
                  logicalId r <> "__proto__" ->
                  field (logicalId r) (resourceMap m)
                  = Some match field (logicalId r) demoMapping with
                         | Some value => Own value
                         | None => Member (logicalId r)
                         end)
    /\ field "__proto__" (resourceMap m) = None.
Proof.
  apply (mapping_file_decides_imports demoImporter plain demoFormat1 demoFormat2 demoMapping
           [ bucketResource; keyResource ] "map.json" []).
  cbn. apply NoDup_cons. split; [ | apply NoDup_singleton ].
  intros H. apply list_elem_of_singleton in H. discriminate H.
Defined.

(** The two additions of the demonstration, written into the template
    that was read. *)
Lemma import_template_keeps_deletion_policies_witness :
  [ReadCurrentTemplate] = [ReadCurrentTemplate]
  /\ _currentTemplate {| stackTemplate := Some desiredTemplate;
                         _currentTemplate := Some importTemplate |}
     = Some importTemplate
  /\ forall add, add ∈ additions demoFound ->
       exists definition,
         templateResource (Some importTemplate) (logicalId add) = Some definition
         /\ keeps_policy definition.
Proof.
  apply (import_template_keeps_deletion_policies
           (fun _ _ => twoAdditions) (Resolved {| Resources := None |})
           demoImporter
           {| stackTemplate := Some desiredTemplate;
              _currentTemplate := Some {| Resources := None |} |}
           {| stackTemplate := Some desiredTemplate;
              _currentTemplate := Some importTemplate |}
           None demoFound importTemplate [] [ReadCurrentTemplate] [ReadCurrentTemplate]).
  - vm_compute. reflexivity.
  - vm_compute. reflexivity.
Defined.

End ImportWorkflowScenarios.
